(** * ppo-pytorch: sample buffer, replay buffer, PPO loss and update loop

    A shallow embedding of the parts of [ppo_pytorch/ppo/ppo.py] and
    [ppo_pytorch/ppo/mppo.py] that the specification talks about, and of
    the step and training loops around them, with those of
    [ppo_pytorch/common/multiplayer_env_trainer.py], followed by the
    properties proved about them.

    Conventions.
    - Python exceptions are values of [exn]; a computation that may raise
      returns a [result].
    - Methods that mutate [self] are state-passing functions: they return the
      object as it is when the call ends, also when the call ends by raising
      (Python does not roll anything back).
    - A numpy array whose two leading axes are (time, actor) is an [ndarray]:
      the list of its time rows together with its actor count.  What lies
      beyond the second axis is one value of the element type.
    - Entries pushed into the replay buffer are taken to have the shape
      beyond the second axis that the buffer was allocated with.
    - A method that draws random numbers is the list of its equally likely
      runs; [np.random.randint(high)] has the outcomes 0 .. high - 1.
    - Tensor arithmetic of the loss and of the advantage estimator is
      elementwise over lists of real numbers (rounding is not modelled). *)

From Stdlib Require Import List ZArith Lia Bool Arith.
From Stdlib Require Import Reals Lra.
Import ListNotations.

Set Implicit Arguments.

(** ** Exceptions *)

Inductive exn : Type :=
| AssertionError
| ValueError
| AttributeError
| TypeError
| IndexError
| ZeroDivisionError.

Inductive result (A : Type) : Type :=
| Ok (a : A)
| Raise (e : exn).

Arguments Ok {A} a.
Arguments Raise {A} e.

(** ** Method bodies

    A method body over an object of type [S] ends with a value or an
    exception, and with the object as the body left it. *)

Module Py.

Definition M (S A : Type) : Type := S -> result A * S.

Definition ret {S A} (a : A) : M S A := fun self => (Ok a, self).

Definition bind {S A B} (m : M S A) (f : A -> M S B) : M S B :=
  fun self =>
    match m self with
    | (Ok a, self') => f a self'
    | (Raise e, self') => (Raise e, self')
    end.

Definition raise {S A} (e : exn) : M S A := fun self => (Raise e, self).

Definition assert {S} (b : bool) : M S unit :=
  if b then ret tt else raise AssertionError.

Definition modify {S} (f : S -> S) : M S unit := fun self => (Ok tt, f self).

Definition get {S A} (f : S -> A) : M S A := fun self => (Ok (f self), self).

(** [for x in xs: body(x)] *)
Fixpoint for_each {S X} (xs : list X) (body : X -> M S unit) : M S unit :=
  match xs with
  | [] => ret tt
  | x :: xs' => bind (body x) (fun _ => for_each xs' body)
  end.

Module Notations.
Notation "x <- m ;; k" := (bind m (fun x => k))
  (at level 61, m at next level, right associativity).
Notation "m ;;; k" := (bind m (fun _ => k))
  (at level 61, right associativity).
End Notations.

End Py.

(** ** numpy helpers *)

Module np.

(** An array of shape (len rows, shape1, ...). *)
Record ndarray (X : Type) : Type := mk_ndarray {
  shape1 : nat;
  rows : list (list X)
}.

Arguments mk_ndarray {X} shape1 rows.

Definition shape0 {X} (a : ndarray X) : nat := length (rows a).

(** Every row has [shape1] entries: the array is rectangular. *)
Definition rectangular {X} (a : ndarray X) : Prop :=
  Forall (fun row => length row = shape1 a) (rows a).

(** [np.zeros((n, m, ...))]: negative dimensions are refused. *)
Definition zeros {X} (zero : X) (n m : Z) : result (ndarray X) :=
  if ((n <? 0) || (m <? 0))%Z then Raise ValueError
  else Ok (mk_ndarray (Z.to_nat m) (repeat (repeat zero (Z.to_nat m)) (Z.to_nat n))).

(** Position denoted by the bound [n] of a slice over [len] items: a negative
    bound counts from the end, and bounds are clipped to the array. *)
Definition slice_bound (n : Z) (len : nat) : nat :=
  if (n <? 0)%Z then Z.to_nat (Z.of_nat len + n) else Nat.min (Z.to_nat n) len.

(** [a[:n]] and [a[n:]] along the time axis. *)
Definition slice_to {X} (n : Z) (a : ndarray X) : ndarray X :=
  mk_ndarray (shape1 a) (firstn (slice_bound n (shape0 a)) (rows a)).

Definition slice_from {X} (n : Z) (a : ndarray X) : ndarray X :=
  mk_ndarray (shape1 a) (skipn (slice_bound n (shape0 a)) (rows a)).

(** Broadcasting of one axis to length [k]: the lengths agree, or the source
    has length one and is repeated. *)
Definition broadcast_axis {Y} (src : list Y) (k : nat) : option (list Y) :=
  if length src =? k then Some src
  else match src with
       | [y] => Some (repeat y k)
       | _ => None
       end.

(** A row of one entry stretched to [a] entries. *)
Definition stretch {X} (row : list X) (a : nat) : list X :=
  match row with
  | x :: _ => repeat x a
  | [] => []
  end.

(** Broadcasting of a (time, actor) array to the shape (k, a). *)
Definition broadcast_to {X} (src : ndarray X) (k a : nat) : option (list (list X)) :=
  match broadcast_axis (rows src) k with
  | None => None
  | Some rs =>
      if shape1 src =? a then Some rs
      else if shape1 src =? 1
           then Some (map (fun row => stretch row a) rs)
           else None
  end.

(** [dst[a:b] = src] for [0 <= a <= b]. *)
Definition set_slice {X} (dst : ndarray X) (a b : nat) (src : ndarray X)
  : result (ndarray X) :=
  let a' := Nat.min a (shape0 dst) in
  let b' := Nat.min b (shape0 dst) in
  let k := b' - a' in
  match broadcast_to src k (shape1 dst) with
  | Some rs =>
      Ok (mk_ndarray (shape1 dst) (firstn a' (rows dst) ++ rs ++ skipn (a' + k) (rows dst)))
  | None => Raise ValueError
  end.

(** [src[a:b, r]] for [0 <= a <= b] and [0 <= r < shape1]: the entries of
    actor [r] over the time slice. *)
Fixpoint column {X} (r : nat) (rs : list (list X)) : result (list X) :=
  match rs with
  | [] => Ok []
  | row :: rs' =>
      match nth_error row r, column r rs' with
      | Some x, Ok xs => Ok (x :: xs)
      | None, _ => Raise IndexError
      | _, Raise e => Raise e
      end
  end.

Definition get_window {X} (src : ndarray X) (a b r : nat) : result (list X) :=
  let a' := Nat.min a (shape0 src) in
  let b' := Nat.min b (shape0 src) in
  if r <? shape1 src
  then column r (firstn (b' - a') (skipn a' (rows src)))
  else Raise IndexError.

(** Replace entry [i] of a row. *)
Definition set_nth {X} (i : nat) (x : X) (row : list X) : list X :=
  if i <? length row then firstn i row ++ x :: skipn (S i) row else row.

Fixpoint set_column_rows {X} (i : nat) (col : list X) (rs : list (list X)) : list (list X) :=
  match rs, col with
  | row :: rs', x :: col' => set_nth i x row :: set_column_rows i col' rs'
  | _, _ => rs
  end.

(** [dst[:, i] = col] for [0 <= i < shape1]. *)
Definition set_column {X} (dst : ndarray X) (i : nat) (col : list X)
  : result (ndarray X) :=
  if i <? shape1 dst
  then match broadcast_axis col (shape0 dst) with
       | Some c => Ok (mk_ndarray (shape1 dst) (set_column_rows i c (rows dst)))
       | None => Raise ValueError
       end
  else Raise IndexError.

(** [np.random.randint(high)]: the uniform distribution over [0, high), as
    the list of its equally likely outcomes; [high <= 0] is refused. *)
Definition randint (high : Z) : result (list Z) :=
  if (high <=? 0)%Z then Raise ValueError
  else Ok (map Z.of_nat (seq 0 (Z.to_nat high))).

End np.

(** ** mppo.py: class ReplayBuffer *)

Module ReplayBuffer.

Import np Py Py.Notations.

Section Buffer.

(** Element types of the four arrays (one actor, one time step) and the
    value [np.zeros] fills them with. *)
Variables St Ac Rw Dn : Type.
Variable st0 : St.
Variable ac0 : Ac.
Variable rw0 : Rw.
Variable dn0 : Dn.

Record t : Type := mk {
  capacity : nat;
  states : option (ndarray St);
  actions : option (ndarray Ac);
  rewards : option (ndarray Rw);
  dones : option (ndarray Dn);
  index : nat;
  full_loop : bool
}.

Definition set_states (v : option (ndarray St)) (self : t) : t :=
  mk (capacity self) v (actions self) (rewards self) (dones self) (index self) (full_loop self).
Definition set_actions (v : option (ndarray Ac)) (self : t) : t :=
  mk (capacity self) (states self) v (rewards self) (dones self) (index self) (full_loop self).
Definition set_rewards (v : option (ndarray Rw)) (self : t) : t :=
  mk (capacity self) (states self) (actions self) v (dones self) (index self) (full_loop self).
Definition set_dones (v : option (ndarray Dn)) (self : t) : t :=
  mk (capacity self) (states self) (actions self) (rewards self) v (index self) (full_loop self).
Definition set_index (v : nat) (self : t) : t :=
  mk (capacity self) (states self) (actions self) (rewards self) (dones self) v (full_loop self).
Definition set_full_loop (v : bool) (self : t) : t :=
  mk (capacity self) (states self) (actions self) (rewards self) (dones self) (index self) v.

Definition M : Type -> Type := Py.M t.

Definition __init__ (capacity : nat) : t :=
  mk capacity None None None None 0 false.

(** [self.field[a:b] = src]; a field that is still [None] takes no item
    assignment. *)
Definition assign_slice {X} (get : t -> option (ndarray X))
    (set : option (ndarray X) -> t -> t) (a b : nat) (src : ndarray X) : M unit :=
  fun self =>
    match get self with
    | None => (Raise TypeError, self)
    | Some dst =>
        match set_slice dst a b src with
        | Ok dst' => (Ok tt, set (Some dst') self)
        | Raise e => (Raise e, self)
        end
    end.

Definition _push_unchecked (states_ : ndarray St) (actions_ : ndarray Ac)
    (rewards_ : ndarray Rw) (dones_ : ndarray Dn) : M unit :=
  fun self =>
    let a := index self in
    let b := index self + shape0 states_ in
    (assign_slice states set_states a b states_ ;;;
     assign_slice actions set_actions a b actions_ ;;;
     assign_slice rewards set_rewards a b rewards_ ;;;
     assign_slice dones set_dones a b dones_ ;;;
     modify (fun self => set_index (index self + shape0 states_) self)) self.

(** The shape checks of [push].  The [ndim] checks hold by typing: every
    array has the two leading axes. *)
Definition same_shape2 {X Y} (x : ndarray X) (y : ndarray Y) : bool :=
  (shape0 x =? shape0 y) && (shape1 x =? shape1 y).

Definition push (states_ : ndarray St) (actions_ : ndarray Ac)
    (rewards_ : ndarray Rw) (dones_ : ndarray Dn) : M unit :=
  assert (same_shape2 rewards_ dones_) ;;;
  assert (same_shape2 rewards_ states_ && same_shape2 rewards_ actions_) ;;;
  (fun self =>
     match states self with
     | None =>
         let actors := shape1 states_ in
         let alloc {X} (zero : X) :=
           Some (mk_ndarray actors (repeat (repeat zero actors) (capacity self))) in
         (Ok tt, mk (capacity self) (alloc st0) (alloc ac0) (alloc rw0) (alloc dn0)
                    (index self) (full_loop self))
     | Some _ => (Ok tt, self)
     end) ;;;
  (fun self =>
     if index self + shape0 states_ <=? capacity self
     then _push_unchecked states_ actions_ rewards_ dones_ self
     else
       let n := (Z.of_nat (capacity self) - Z.of_nat (index self)
                 - Z.of_nat (shape0 states_))%Z in
       (_push_unchecked (slice_to n states_) (slice_to n actions_)
                        (slice_to n rewards_) (slice_to n dones_) ;;;
        modify (set_index 0) ;;;
        _push_unchecked (slice_from n states_) (slice_from n actions_)
                        (slice_from n rewards_) (slice_from n dones_) ;;;
        modify (set_full_loop true)) self).

Definition __len__ (self : t) : nat := Nat.min (index self) (capacity self).

(** *** sample *)

(** A method body that draws random numbers: the list of its equally
    likely runs, each ending like a method body does. *)
Definition P (A : Type) : Type := t -> list (result A * t).

Definition pret {A} (a : A) : P A := fun self => [(Ok a, self)].

Definition pbind {A B} (m : P A) (f : A -> P B) : P B :=
  fun self =>
    flat_map (fun run : result A * t =>
                match run with
                | (Ok a, self') => f a self'
                | (Raise e, self') => [(Raise e, self')]
                end) (m self).

Definition lift {A} (r : result A) : P A := fun self => [(r, self)].

Definition read {A} (f : t -> A) : P A := fun self => [(Ok (f self), self)].

(** [self.field.shape], [self.field.dtype], [self.field[...]]: none of them
    exists on [None]. *)
Definition attr {A} (f : t -> option A) : P A :=
  fun self =>
    match f self with
    | Some a => [(Ok a, self)]
    | None => [(Raise AttributeError, self)]
    end.

Definition draw (high : Z) : P Z :=
  fun self =>
    match randint high with
    | Ok xs => map (fun x => (Ok x, self)) xs
    | Raise e => [(Raise e, self)]
    end.

Notation "x <~ m ;; k" := (pbind m (fun x => k))
  (at level 61, m at next level, right associativity).

Record batch : Type := mk_batch {
  b_states : ndarray St;
  b_actions : ndarray Ac;
  b_rewards : ndarray Rw;
  b_dones : ndarray Dn
}.

(** [dst[:, ri] = self.field[rand_h : rand_h + horizon, rand_r]] *)
Definition copy_window {X} (field : t -> option (ndarray X)) (dst : ndarray X)
    (ri : nat) (rand_r rand_h horizon : Z) : P (ndarray X) :=
  src <~ attr field ;;
  w <~ lift (get_window src (Z.to_nat rand_h) (Z.to_nat (rand_h + horizon)) (Z.to_nat rand_r)) ;;
  lift (set_column dst ri w).

(** One turn of the loop of [sample]. *)
Definition sample_step (horizon : Z) (ri : nat) (out : batch) : P batch :=
  sts <~ attr states ;;
  rand_r <~ draw (Z.of_nat (shape1 sts)) ;;
  cap <~ read capacity ;;
  full <~ read full_loop ;;
  idx <~ read index ;;
  rand_h <~ draw (Z.of_nat (if full then cap else idx) - horizon)%Z ;;
  s <~ copy_window states (b_states out) ri rand_r rand_h horizon ;;
  a <~ copy_window actions (b_actions out) ri rand_r rand_h horizon ;;
  r <~ copy_window rewards (b_rewards out) ri rand_r rand_h horizon ;;
  d <~ copy_window dones (b_dones out) ri rand_r rand_h horizon ;;
  pret (mk_batch s a r d).

Fixpoint sample_loop (horizon : Z) (ris : list nat) (out : batch) : P batch :=
  match ris with
  | [] => pret out
  | ri :: ris' =>
      out' <~ sample_step horizon ri out ;;
      sample_loop horizon ris' out'
  end.

Definition sample (rollouts horizon : Z) : P batch :=
  _ <~ attr states ;;
  s <~ lift (zeros st0 horizon rollouts) ;;
  _ <~ attr actions ;;
  a <~ lift (zeros ac0 horizon rollouts) ;;
  _ <~ attr rewards ;;
  r <~ lift (zeros rw0 horizon rollouts) ;;
  _ <~ attr dones ;;
  d <~ lift (zeros dn0 horizon rollouts) ;;
  sample_loop horizon (seq 0 (Z.to_nat rollouts)) (mk_batch s a r d).

End Buffer.

End ReplayBuffer.


(** ** torch helpers: tensors of one axis, elementwise *)

Module torch.

Local Open Scope R_scope.

Definition tensor : Type := list R.

Fixpoint zip_with {A B C} (f : A -> B -> C) (xs : list A) (ys : list B) : list C :=
  match xs, ys with
  | x :: xs', y :: ys' => f x y :: zip_with f xs' ys'
  | _, _ => []
  end.

Definition add : tensor -> tensor -> tensor := zip_with Rplus.
Definition sub : tensor -> tensor -> tensor := zip_with Rminus.
Definition mul : tensor -> tensor -> tensor := zip_with Rmult.
Definition neg : tensor -> tensor := map Ropp.
Definition scale (c : R) : tensor -> tensor := map (Rmult c).
Definition min : tensor -> tensor -> tensor := zip_with Rmin.
Definition max : tensor -> tensor -> tensor := zip_with Rmax.

(** [x.clamp(lo, hi)]: first raised to [lo], then lowered to [hi]. *)
Definition clamp1 (lo hi x : R) : R := Rmin (Rmax x lo) hi.
Definition clamp (x : tensor) (lo hi : R) : tensor := map (clamp1 lo hi) x.

Definition sum (x : tensor) : R := fold_right Rplus 0 x.
Definition mean (x : tensor) : R := sum x / INR (length x).

(** [F.smooth_l1_loss(input, target, reduce=False)], one entry. *)
Definition smooth_l1 (input target : R) : R :=
  let d := Rabs (input - target) in
  if Rlt_dec d 1 then 0.5 * d * d else d - 0.5.

Definition smooth_l1_loss : tensor -> tensor -> tensor := zip_with smooth_l1.

End torch.

(** ** common/gae.py

    The module is imported by [ppo.py]; its two functions are written here
    from the specification of the estimator.  Arrays are (time, actor):
    a list of rows, one row per time step. *)

Module gae.

Local Open Scope R_scope.

Definition array2 (X : Type) : Type := list (list X).

Definition at2 (x : array2 R) (t a : nat) : R := nth a (nth t x []) 0.
Definition done_at (dones : array2 bool) (t a : nat) : bool := nth a (nth t dones []) false.

(** The factor (1 - done). *)
Definition not_done (d : bool) : R := if d then 0 else 1.

(** Modelled from the spec: [calc_returns] of [common/gae.py], which is not
    among the sources.  R_t = reward_t + gamma * R_(t+1) * (1 - done_t),
    computed backward from the last step, the trailing value estimate being
    R at the horizon boundary. *)
Fixpoint returns_from (gamma : R) (rewards : array2 R) (dones : array2 bool)
    (bootstrap : list R) : array2 R :=
  match rewards, dones with
  | r :: rewards', d :: dones' =>
      let rest := returns_from gamma rewards' dones' bootstrap in
      let next := match rest with nx :: _ => nx | [] => bootstrap end in
      map (fun a => nth a r 0 + gamma * nth a next 0 * not_done (nth a d false))
          (seq 0 (length r))
      :: rest
  | _, _ => []
  end.

Definition calc_returns (rewards values : array2 R) (dones : array2 bool)
    (reward_discount : R) : array2 R :=
  returns_from reward_discount rewards dones (last values []).

(** Modelled from the spec: [calc_advantages] of [common/gae.py], which is
    not among the sources.  delta_t = reward_t + gamma * V_(t+1) * (1 - done_t)
    - V_t and A_t = delta_t + gamma * lambda * A_(t+1) * (1 - done_t), computed
    backward, with no advantage beyond the last step. *)
Fixpoint calc_advantages (rewards values : array2 R) (dones : array2 bool)
    (reward_discount advantage_discount : R) : array2 R :=
  match rewards, dones, values with
  | r :: rewards', d :: dones', v :: ((v_next :: _) as values') =>
      let rest := calc_advantages rewards' values' dones'
                    reward_discount advantage_discount in
      let a_next := match rest with x :: _ => x | [] => [] end in
      map (fun a =>
             let delta := nth a r 0
                          + reward_discount * nth a v_next 0 * not_done (nth a d false)
                          - nth a v 0 in
             delta + reward_discount * advantage_discount * nth a a_next 0
                     * not_done (nth a d false))
          (seq 0 (length r))
      :: rest
  | _, _, _ => []
  end.

End gae.

(** ** ppo.py *)

Module PPO.

Import Py Py.Notations.

(** *** The sample buffer *)

Section SampleBuffer.

Variables St Rw Dn Pr Vl Ac : Type.

Record Sample : Type := mk_Sample {
  states : list St;
  rewards : list Rw;
  dones : list Dn;
  probs : list Pr;
  values : list Vl;
  actions : list Ac
}.

Definition create_new_sample : Sample := mk_Sample [] [] [] [] [] [].

(** [states.cpu()] moves the tensor and keeps its value. *)
Definition cpu (x : St) : St := x.

Definition append_to_sample (sample : Sample) (states_ : St) (rewards_ : Rw)
    (dones_ : Dn) (actions_ : Ac) (probs_ : Pr) (values_ : Vl) : Sample :=
  let sample :=
    if negb (length (states sample) =? 0)
    then mk_Sample (states sample) (rewards sample ++ [rewards_])
                   (dones sample ++ [dones_]) (probs sample)
                   (values sample) (actions sample)
    else sample in
  mk_Sample (states sample ++ [cpu states_]) (rewards sample) (dones sample)
            (probs sample ++ [probs_]) (values sample ++ [values_])
            (actions sample ++ [actions_]).

(** The arguments of one call of [append_to_sample]. *)
Record step_args : Type := mk_step {
  a_states : St; a_rewards : Rw; a_dones : Dn;
  a_actions : Ac; a_probs : Pr; a_values : Vl
}.

Definition append_step (sample : Sample) (c : step_args) : Sample :=
  append_to_sample sample (a_states c) (a_rewards c) (a_dones c)
                   (a_actions c) (a_probs c) (a_values c).

End SampleBuffer.

Local Open Scope R_scope.

(** *** The agent's settings read by the functions below *)

Inductive constraint_kind : Type := clip | clip_mod.

Record t : Type := mk {
  reward_discount : R;
  advantage_discount : R;
  policy_clip : R;
  value_clip : R;
  entropy_bonus : R;
  value_loss_scale : R;
  constraint : option constraint_kind;
  reward_scale : R;
  clip_decay : option R          (* the [value] of the decay, when there is one *)
}.

Definition clip_mult (self : t) : R :=
  match clip_decay self with
  | Some value => value
  | None => 1
  end.

(** *** _process_rewards *)

Definition flatten (x : gae.array2 R) : list R := concat x.

Definition np_mean (x : gae.array2 R) : R := torch.mean (flatten x).

(** [x.std()]: the square root of the mean squared deviation. *)
Definition np_std (x : gae.array2 R) : R :=
  sqrt (torch.mean (map (fun v => (v - np_mean x) * (v - np_mean x)) (flatten x))).

(** Python's [max(a, b)]. *)
Definition py_max (a b : R) : R := if Rlt_dec a b then b else a.

Definition _process_rewards (rewards values : gae.array2 R) (dones : gae.array2 bool)
    (reward_discount advantage_discount reward_scale : R)
  : gae.array2 R * gae.array2 R * gae.array2 R :=
  let norm_rewards := map (map (Rmult reward_scale)) rewards in
  let np_returns := gae.calc_returns norm_rewards values dones reward_discount in
  let np_advantages :=
    gae.calc_advantages norm_rewards values dones reward_discount advantage_discount in
  let np_advantages :=
    let m := np_mean np_advantages in
    let s := py_max (np_std np_advantages) 1e-5 in
    map (map (fun v => (v - m) / s)) np_advantages in
  (norm_rewards, np_returns, np_advantages).

(** *** _get_ppo_loss: the loss terms *)

(** The probability distribution strategy, one sample at a time. *)
Record ProbabilityDistribution (Pr Ac : Type) : Type := mk_pd {
  logp : Ac -> Pr -> R;
  entropy : Pr -> R;
  kl : Pr -> Pr -> R
}.

Section get_ppo_loss.

Variables Pr Ac : Type.
Variable self : t.
Variable pd : ProbabilityDistribution Pr Ac.
Variables probs probs_old : list Pr.
Variables values values_old : torch.tensor.
Variable actions : list Ac.
Variables advantages returns : torch.tensor.

(** clipping factors *)
Definition value_clip' : R := value_clip self * clip_mult self.
Definition policy_clip' : R := policy_clip self * clip_mult self.

(** action probability ratio *)
Definition logp' : torch.tensor := torch.zip_with (logp pd) actions probs.
Definition logp_old : torch.tensor := torch.zip_with (logp pd) actions probs_old.
Definition ratio : torch.tensor := torch.sub logp' logp_old.

(** policy loss *)
Definition unclipped_policy_loss : torch.tensor := torch.mul ratio advantages.

Definition loss_clip : torch.tensor :=
  match constraint self with
  | Some _ =>
      let clipped_ratio := torch.clamp ratio (- policy_clip') policy_clip' in
      let clipped_policy_loss := torch.mul clipped_ratio advantages in
      torch.neg (torch.min unclipped_policy_loss clipped_policy_loss)
  | None => torch.neg unclipped_policy_loss
  end.

(** value loss *)
Definition v_pred_clipped : torch.tensor :=
  torch.add values_old (torch.clamp (torch.sub values values_old) (- value_clip') value_clip').
Definition vf_clip_loss : torch.tensor := torch.smooth_l1_loss v_pred_clipped returns.
Definition vf_nonclip_loss : torch.tensor := torch.smooth_l1_loss values returns.
Definition loss_value : torch.tensor :=
  torch.scale (value_loss_scale self * 0.5) (torch.max vf_nonclip_loss vf_clip_loss).

(** entropy bonus *)
Definition entropy' : torch.tensor := map (entropy pd) probs.
Definition loss_ent : torch.tensor := torch.scale (- entropy_bonus self) entropy'.

(** sum of all losses, and the KL divergence *)
Definition total_loss : R :=
  torch.mean loss_clip + torch.mean loss_value + torch.mean loss_ent.

Definition kl' : R := torch.mean (torch.zip_with (kl pd) probs_old probs).

Definition _get_ppo_loss : R * R := (total_loss, kl').

End get_ppo_loss.

(** *** _get_ppo_loss: the check of the total loss, and _ppo_update

    What the float arithmetic of the forward pass and of the loss yields is
    left open: [forward_loss] gives [total_loss.data[0]] for the current
    parameters and a minibatch, and it may be NaN or infinite. *)

Inductive float : Type :=
| Finite (x : R)
| Inf (negative : bool)
| NaN.

Definition isnan (x : float) : bool :=
  match x with NaN => true | _ => false end.

Definition isinf (x : float) : bool :=
  match x with Inf _ => true | _ => false end.

Section ppo_update.

(** Model parameters together with the optimizer's state; the training data. *)
Variables Params Data : Type.
Variable data_len : Data -> nat.
Variable forward_loss : Params -> Data -> list nat -> float.
(** The parameters after [loss.backward()], [clip_grad_norm] and
    [optimizer.step()] for this minibatch. *)
Variable optimizer_step : Params -> Data -> list nat -> Params.
(** [torch.randperm(n)] as drawn in the given epoch. *)
Variable randperm : nat -> nat -> list nat.

Inductive event : Type :=
| ComputeLoss (loss : float)
| Backward (loss : float)
| ClipGradNorm
| OptimizerStep
| ZeroGrad.

(** The agent during an update: its parameters and what it has done to them
    so far, latest last. *)
Record trainer : Type := mk_trainer {
  params : Params;
  log : list event
}.

Definition emit (e : event) : M trainer unit :=
  modify (fun s => mk_trainer (params s) (log s ++ [e])).

(** The [assert] that ends the computation of the loss. *)
Definition _get_ppo_loss_assert (total_loss : float) : M trainer float :=
  assert (negb (isnan total_loss) && negb (isinf total_loss)) ;;;
  ret total_loss.

(** The body of the inner loop. *)
Definition minibatch (data : Data) (batch_idx : list nat) : M trainer unit :=
  theta <- get params ;;
  emit (ComputeLoss (forward_loss theta data batch_idx)) ;;;
  loss <- _get_ppo_loss_assert (forward_loss theta data batch_idx) ;;
  emit (Backward loss) ;;;
  emit ClipGradNorm ;;;
  modify (fun s => mk_trainer (optimizer_step (params s) data batch_idx) (log s)) ;;;
  emit OptimizerStep ;;;
  emit ZeroGrad.

(** [l[a:b]] for [0 <= a <= b]. *)
Definition slice {X} (l : list X) (a b : nat) : list X :=
  firstn (b - a) (skipn a l).

Definition _ppo_update (num_actors horizon batch_size ppo_iters : nat) (data : Data)
  : M trainer unit :=
  batches <- (if (batch_size =? 0)%nat then raise ZeroDivisionError
              else ret (Nat.max 1 (num_actors * horizon / batch_size))) ;;
  for_each (seq 0 ppo_iters) (fun ppo_iter =>
    let rand_idx := randperm ppo_iter (data_len data) in
    for_each (seq 0 batches) (fun loader_iter =>
      let batch_idx := slice rand_idx (loader_iter * batch_size)
                                      ((loader_iter + 1) * batch_size) in
      minibatch data batch_idx)).

End ppo_update.

End PPO.

(** ** mppo.py: the discriminator fake step of MPPO._train_world *)

Module MPPO.

Section train_world.

Variable Tensor : Type.

Record HeadOutput : Type := mk_out {
  hidden_code : Tensor;
  probs : Tensor
}.

(** [self.model(x, hidden_code_input=b)] *)
Variable model : Tensor -> bool -> HeadOutput.
(** [self.model.pd.sample(probs)], as drawn at unroll step [i]. *)
Variable pd_sample : nat -> Tensor -> Tensor.
Variable world_gen : Tensor -> Tensor -> Tensor * Tensor * Tensor.
Variable world_disc : Tensor -> Tensor -> Tensor -> Tensor -> Tensor -> Tensor.

(** [x.detach()] cuts the gradient graph and keeps the value. *)
Definition detach (x : Tensor) : Tensor := x.

(** The lists the loop appends to, and the calls of the generator it has
    made so far (current code, action argument). *)
Record fake_state : Type := mk_fake {
  disc_fake : list Tensor;
  all_gen_hidden_codes : list Tensor;
  all_gen_actions : list Tensor;
  all_gen_rewards : list Tensor;
  all_gen_dones : list Tensor;
  gen_calls : list (Tensor * Tensor)
}.

Definition fake_init : fake_state := mk_fake [] [] [] [] [] [].

(** One turn of [for i in range(self.world_train_horizon)]; [states0] is
    [states[0]] and [actions] the replayed action tensor of the slice. *)
Definition fake_step (states0 actions : Tensor) (s : fake_state) (i : nat) : fake_state :=
  let ac_out :=
    model (if negb (i =? 0) then last (all_gen_hidden_codes s) states0 else states0)
          (negb (i =? 0)) in
  let codes :=
    if i =? 0 then all_gen_hidden_codes s ++ [hidden_code ac_out]
    else all_gen_hidden_codes s in
  let cur_code := last codes states0 in
  let cur_actions := pd_sample i (probs ac_out) in
  let '(gen_next_code, gen_rewards, gen_dones) := world_gen cur_code actions in
  let d := world_disc (detach cur_code) (detach gen_next_code) cur_actions
                      (detach gen_rewards) (detach gen_dones) in
  mk_fake (disc_fake s ++ [d])
          (codes ++ [gen_next_code])
          (all_gen_actions s ++ [cur_actions])
          (all_gen_rewards s ++ [gen_rewards])
          (all_gen_dones s ++ [gen_dones])
          (gen_calls s ++ [(cur_code, actions)]).

Definition disc_fake_unroll (world_train_horizon : nat) (states0 actions : Tensor)
  : fake_state :=
  fold_left (fake_step states0 actions) (seq 0 world_train_horizon) fake_init.

End train_world.

End MPPO.

(** ** ppo.py: class PPO, the steps between two trainings

    [_step] and [_train] as far as they touch the sample buffer and the
    saved models.  The forward pass, the draw of the actions and the
    update itself are parameters; the frame counter belongs to the base
    class and is a field that the methods only read. *)

Module PPORun.

Import Py Py.Notations.

Section Agent.

Variables Obs St Rw Dn Pr Vl Ac Noise Folder : Type.

(** [self._from_numpy(cur_states ...)] *)
Variable _from_numpy : Obs -> St.
(** [self._take_step(states, dones)]: the probs and the state_values. *)
Variable _take_step : St -> Dn -> Pr * Vl.
(** [self.model.pd.sample(probs)] with the random numbers it draws. *)
Variable pd_sample : Noise -> Pr -> Ac.
(** How [_process_sample], [_log_training_data] and [_ppo_update] end on a
    sample. *)
Variable update : PPO.Sample St Rw Dn Pr Vl Ac -> result unit.

(** The file that [torch.save] writes: [tag + '_' + frame + '.pth'] or
    [tag + '.pth'] in the save folder. *)
Inductive file_name : Type :=
| tag_frame (frame : Z)
| tag_only.

Record t : Type := mk {
  horizon : Z;
  sample : PPO.Sample St Rw Dn Pr Vl Ac;
  frame : Z;
  model_save_folder : option Folder;
  model_save_interval : option Z;
  save_intermediate_models : bool;
  last_model_save_frame : Z;
  (** the samples [_train] was called on, and the files written, latest last *)
  trained : list (PPO.Sample St Rw Dn Pr Vl Ac);
  saved : list file_name
}.

Definition set_sample (v : PPO.Sample St Rw Dn Pr Vl Ac) (self : t) : t :=
  mk (horizon self) v (frame self) (model_save_folder self) (model_save_interval self)
     (save_intermediate_models self) (last_model_save_frame self) (trained self) (saved self).
Definition set_frame (v : Z) (self : t) : t :=
  mk (horizon self) (sample self) v (model_save_folder self) (model_save_interval self)
     (save_intermediate_models self) (last_model_save_frame self) (trained self) (saved self).
Definition set_last_model_save_frame (v : Z) (self : t) : t :=
  mk (horizon self) (sample self) (frame self) (model_save_folder self) (model_save_interval self)
     (save_intermediate_models self) v (trained self) (saved self).
Definition set_trained (v : list (PPO.Sample St Rw Dn Pr Vl Ac)) (self : t) : t :=
  mk (horizon self) (sample self) (frame self) (model_save_folder self) (model_save_interval self)
     (save_intermediate_models self) (last_model_save_frame self) v (saved self).
Definition set_saved (v : list file_name) (self : t) : t :=
  mk (horizon self) (sample self) (frame self) (model_save_folder self) (model_save_interval self)
     (save_intermediate_models self) (last_model_save_frame self) (trained self) v.

Definition drop_collected_steps : M t unit :=
  modify (set_sample (PPO.mk_Sample [] [] [] [] [] [])).

(** [Path(None)] is a TypeError. *)
Definition check_save_model : M t unit :=
  fun self =>
    match model_save_interval self with
    | None => (Ok tt, self)
    | Some interval =>
        if (last_model_save_frame self + interval >? frame self)%Z
        then (Ok tt, self)
        else
          (modify (set_last_model_save_frame (frame self)) ;;;
           (let name := if save_intermediate_models self
                        then tag_frame (frame self) else tag_only in
            fun self =>
              match model_save_folder self with
              | None => (Raise TypeError, self)
              | Some _ => (Ok tt, set_saved (saved self ++ [name]) self)
              end)) self
    end.

Definition _train : M t unit :=
  s <- get sample ;;
  modify (fun self => set_trained (trained self ++ [s]) self) ;;;
  (fun self => (update s, self)) ;;;
  check_save_model ;;;
  modify (set_sample (PPO.create_new_sample St Rw Dn Pr Vl Ac)).

Definition _step (prev_states : Obs) (rewards : Rw) (dones : Dn) (cur_states : Obs)
    (u : Noise) : M t Ac :=
  let states := _from_numpy cur_states in
  let ac_out := _take_step states dones in
  let actions := pd_sample u (fst ac_out) in
  let '(probs, values) := ac_out in
  modify (fun self =>
            set_sample (PPO.append_to_sample (sample self) states rewards dones
                                             actions probs values) self) ;;;
  len <- get (fun self => length (PPO.rewards (sample self))) ;;
  h <- get horizon ;;
  (if (Z.of_nat len >=? h)%Z then _train else ret tt) ;;;
  ret actions.

End Agent.

End PPORun.

(** ** mppo.py: class MPPO, the replay buffer in the update

    [__init__], [_update_replay_buffer] and [_ppo_update] as far as they
    touch the replay buffer: the push of the training data, the test that
    opens world training, and the draw of the batch that [_train_world]
    starts with.  What [_train_world] does with the batch and the update of
    the base class are not part of it; neither touches the buffer. *)

Module MPPOUpdate.

Import np.

Section Agent.

Variables St Ac Rw Dn : Type.
Variable st0 : St.
Variable ac0 : Ac.
Variable rw0 : Rw.
Variable dn0 : Dn.

Record t : Type := mk {
  world_train_iters : Z;
  world_train_rollouts : Z;
  world_train_horizon : Z;
  replay_buffer : ReplayBuffer.t St Ac Rw Dn
}.

Definition set_replay_buffer (v : ReplayBuffer.t St Ac Rw Dn) (self : t) : t :=
  mk (world_train_iters self) (world_train_rollouts self) (world_train_horizon self) v.

Definition __init__ (replay_buffer_size : nat)
    (world_train_iters world_train_rollouts world_train_horizon : Z) : result t :=
  if (Z.of_nat replay_buffer_size
      >=? world_train_iters * world_train_rollouts * world_train_horizon)%Z
  then Ok (mk world_train_iters world_train_rollouts world_train_horizon
              (ReplayBuffer.__init__ St Ac Rw Dn replay_buffer_size))
  else Raise AssertionError.

(** The training data as [_update_replay_buffer] views it: four arrays of
    (time, actor). *)
Record TrainingData : Type := mk_data {
  states : ndarray St;
  actions : ndarray Ac;
  rewards : ndarray Rw;
  dones : ndarray Dn
}.

Definition _update_replay_buffer (data : TrainingData) : Py.M t unit :=
  fun self =>
    let (r, buffer) :=
      ReplayBuffer.push st0 ac0 rw0 dn0 (states data) (actions data) (rewards data)
                        (dones data) (replay_buffer self) in
    (r, set_replay_buffer buffer self).

(** The first statement of [_train_world] that touches the agent: the draw
    of the batch. *)
Definition _train_world (self : t)
  : list (result (ReplayBuffer.batch St Ac Rw Dn) * t) :=
  map (fun run : result (ReplayBuffer.batch St Ac Rw Dn) * ReplayBuffer.t St Ac Rw Dn =>
         (fst run, set_replay_buffer (snd run) self))
      (ReplayBuffer.sample st0 ac0 rw0 dn0
         (world_train_rollouts self * world_train_iters self)
         (world_train_horizon self) (replay_buffer self)).

(** The runs of [_ppo_update] up to the update of the base class; the value
    is the batch that world training got, [None] when it was skipped. *)
Definition _ppo_update (data : TrainingData) (self : t)
  : list (result (option (ReplayBuffer.batch St Ac Rw Dn)) * t) :=
  match _update_replay_buffer data self with
  | (Raise e, self') => [(Raise e, self')]
  | (Ok _, self') =>
      if (Z.of_nat (ReplayBuffer.__len__ (replay_buffer self'))
          >? world_train_iters self' * world_train_rollouts self'
             * world_train_horizon self')%Z
      then map (fun run : result (ReplayBuffer.batch St Ac Rw Dn) * t =>
                  match run with
                  | (Ok b, self'') => (Ok (Some b), self'')
                  | (Raise e, self'') => (Raise e, self'')
                  end)
               (_train_world self')
      else [(Ok None, self')]
  end.

End Agent.

End MPPOUpdate.

(** ** common/multiplayer_env_trainer.py: class MultiplayerEnvTrainer

    The frame counter, the selection of the players and the loop of
    [train].  The environment, the algorithms and the loggers are not part
    of it: a step is the record of its frame and its always_log flag, the
    selected algorithms are their indexes in the population, and the lines
    that [_try_update_selection] prints and the calls of
    drop_collected_steps it makes are recorded. *)

Module MultiplayerEnvTrainer.

Import Py Py.Notations.

Section Trainer.

(** [np.random.choice(np.arange(population_size), num_players,
    replace=False)] as drawn at the given frame. *)
Variable choice : Z -> nat -> nat -> list nat.

Record t : Type := mk {
  population_size : nat;
  selection_train_frames : Z;
  num_envs : Z;
  num_players : nat;
  frame : Z;
  selected_algs : option (list nat);
  selection_change_frame : option Z;
  (** the frames printed after 'change', the algorithms whose collected
      steps were dropped, and the steps made (frame, always_log) *)
  printed : list Z;
  dropped : list (list nat);
  stepped : list (Z * bool)
}.

Definition set_frame (v : Z) (self : t) : t :=
  mk (population_size self) (selection_train_frames self) (num_envs self) (num_players self)
     v (selected_algs self) (selection_change_frame self)
     (printed self) (dropped self) (stepped self).
Definition set_selected_algs (v : option (list nat)) (self : t) : t :=
  mk (population_size self) (selection_train_frames self) (num_envs self) (num_players self)
     (frame self) v (selection_change_frame self)
     (printed self) (dropped self) (stepped self).
Definition set_selection_change_frame (v : option Z) (self : t) : t :=
  mk (population_size self) (selection_train_frames self) (num_envs self) (num_players self)
     (frame self) (selected_algs self) v
     (printed self) (dropped self) (stepped self).
Definition set_printed (v : list Z) (self : t) : t :=
  mk (population_size self) (selection_train_frames self) (num_envs self) (num_players self)
     (frame self) (selected_algs self) (selection_change_frame self)
     v (dropped self) (stepped self).
Definition set_dropped (v : list (list nat)) (self : t) : t :=
  mk (population_size self) (selection_train_frames self) (num_envs self) (num_players self)
     (frame self) (selected_algs self) (selection_change_frame self)
     (printed self) v (stepped self).
Definition set_stepped (v : list (Z * bool)) (self : t) : t :=
  mk (population_size self) (selection_train_frames self) (num_envs self) (num_players self)
     (frame self) (selected_algs self) (selection_change_frame self)
     (printed self) (dropped self) v.

Definition __init__ (population_size : nat) (selection_train_frames num_envs : Z)
    (num_players : nat) : result t :=
  if num_players <=? population_size
  then Ok (mk population_size selection_train_frames num_envs num_players
              0 None None [] [] [])
  else Raise AssertionError.

(** [None + int] is a TypeError; a sample without replacement that is
    larger than the population is a ValueError. *)
Definition _try_update_selection : M t unit :=
  fun self =>
    let keep :=
      match selected_algs self with
      | None => Ok false
      | Some _ =>
          match selection_change_frame self with
          | None => Raise TypeError
          | Some change => Ok (change + selection_train_frames self >? frame self)%Z
          end
      end in
    match keep with
    | Raise e => (Raise e, self)
    | Ok true => (Ok tt, self)
    | Ok false =>
        (modify (set_selection_change_frame (Some (frame self))) ;;;
         modify (fun self => set_printed (printed self ++ [frame self]) self) ;;;
         (fun self =>
            match selected_algs self with
            | Some algs => (Ok tt, set_dropped (dropped self ++ [algs]) self)
            | None => (Ok tt, self)
            end) ;;;
         (fun self =>
            if num_players self <=? population_size self
            then (Ok tt, set_selected_algs
                           (Some (choice (frame self) (population_size self)
                                         (num_players self))) self)
            else (Raise ValueError, self))) self
    end.

Definition step (always_log : bool) : M t unit :=
  _try_update_selection ;;;
  modify (fun self => set_stepped (stepped self ++ [(frame self, always_log)]) self) ;;;
  modify (fun self => set_frame (frame self + num_envs self)%Z self).

(** [train]: the loop [for _ in count()], cut after [fuel] turns; the value
    is [None] when the loop is still running then. *)
Fixpoint train (fuel : nat) (max_frames : Z) : M t (option unit) :=
  match fuel with
  | 0 => ret None
  | S fuel' =>
      stop <- get (fun self => (frame self + num_envs self >=? max_frames)%Z) ;;
      step stop ;;;
      if stop then ret (Some tt) else train fuel' max_frames
  end.

End Trainer.

End MultiplayerEnvTrainer.

(** * The vocabulary of the statements

    Predicates and small inputs that the properties below are stated with. *)

(** ** The sample buffer *)

Section SampleBufferVocabulary.

Variables St Rw Dn Pr Vl Ac : Type.

(** The lengths of the six lists after at least one call. *)
Definition lagged (s : PPO.Sample St Rw Dn Pr Vl Ac) : Prop :=
  length (PPO.states s) = S (length (PPO.rewards s))
  /\ length (PPO.dones s) = length (PPO.rewards s)
  /\ length (PPO.probs s) = length (PPO.states s)
  /\ length (PPO.values s) = length (PPO.states s)
  /\ length (PPO.actions s) = length (PPO.states s).

End SampleBufferVocabulary.

(** ** The PPO loss, the update loop, the fake step, the estimator *)

(** An agent with the default settings of [PPO.__init__] except
    value_loss_scale = 1. *)
Definition ppo_unit_scale : PPO.t :=
  PPO.mk 0.99 0.95 0.1 0.1 0.01 1 (Some PPO.clip) 1 None.

(** A distribution strategy to run the loss on: the parameter is the log
    probability of every action. *)
Definition pd_const : PPO.ProbabilityDistribution R R :=
  PPO.mk_pd (fun _ p => p) (fun _ => 0%R) (fun _ _ => 0%R).

(** Neither NaN nor infinite: what the assertion on the total loss asks. *)
Definition finite (l : PPO.float) : bool :=
  negb (PPO.isnan l) && negb (PPO.isinf l).

(** What a minibatch with loss [l] adds to the log when it goes through. *)
Definition block (l : PPO.float) : list PPO.event :=
  [PPO.ComputeLoss l; PPO.Backward l; PPO.ClipGradNorm; PPO.OptimizerStep; PPO.ZeroGrad].

Section UpdateVocabulary.

Variable Params : Type.

(** How a part of the update can end when it starts from [s0]: it went
    through whole minibatches of finite loss, and then either finished or
    stopped on the assertion right after computing a loss that is not
    finite. *)
Definition ends_well (s0 : PPO.trainer Params)
    (r : result unit * PPO.trainer Params) : Prop :=
  exists ls,
    Forall (fun l => finite l = true) ls
    /\ ((fst r = Ok tt /\ PPO.log (snd r) = PPO.log s0 ++ flat_map block ls)
        \/ (exists l, fst r = Raise AssertionError
                      /\ finite l = false
                      /\ PPO.log (snd r)
                         = PPO.log s0 ++ flat_map block ls ++ [PPO.ComputeLoss l])).

End UpdateVocabulary.

(** A run of the unroll on numbers: the model maps a code x to the hidden
    code x + 1 and the parameters x + 2, the policy samples 50 + i at step i,
    the generator returns (code + action, action, action). *)
Definition toy_unroll (horizon states0 actions : nat) : MPPO.fake_state nat :=
  MPPO.disc_fake_unroll
    (fun x _ => MPPO.mk_out (x + 1) (x + 2))
    (fun i _ => 50 + i)
    (fun code action => (code + action, action, action))
    (fun _ _ action _ _ => action)
    horizon states0 actions.

(** The three arrays that [_process_rewards] returns. *)
Definition returns_of (p : gae.array2 R * gae.array2 R * gae.array2 R) : gae.array2 R :=
  snd (fst p).
Definition norm_rewards_of (p : gae.array2 R * gae.array2 R * gae.array2 R) : gae.array2 R :=
  fst (fst p).
Definition advantages_of (p : gae.array2 R * gae.array2 R * gae.array2 R) : gae.array2 R :=
  snd p.

(** Two steps of one actor, reward 1 at both, the first step terminal; the
    value estimates are all 0, or 1 at the step after the terminal one. *)
Definition iso_rewards : gae.array2 R := [[1%R]; [1%R]].
Definition iso_dones : gae.array2 bool := [[true]; [false]].
Definition iso_values : gae.array2 R := [[0%R]; [0%R]; [0%R]].
Definition iso_values' : gae.array2 R := [[0%R]; [1%R]; [0%R]].

(** ** numpy slices and the replay buffer *)

Section ReplayVocabulary.

Import np.

Variables St Ac Rw Dn : Type.
Variable st0 : St.
Variable ac0 : Ac.
Variable rw0 : Rw.
Variable dn0 : Dn.
Variable Ps : St -> Prop.
Variable Pa : Ac -> Prop.
Variable Pr : Rw -> Prop.
Variable Pd : Dn -> Prop.

Local Abbreviation buffer := (ReplayBuffer.t St Ac Rw Dn).
Local Abbreviation batch := (ReplayBuffer.batch St Ac Rw Dn).

(** Rows [a, a + length rs) of [old] replaced by [rs]. *)
Definition overwrite {X} (old : list (list X)) (a : nat) (rs : list (list X)) : list (list X) :=
  firstn a old ++ rs ++ skipn (a + length rs) old.

(** Rows of [shape1] entries that all satisfy [P]. *)
Definition clean_row {X} (P : X -> Prop) (actors : nat) (row : list X) : Prop :=
  length row = actors /\ Forall P row.

(** A rectangular array whose entries all satisfy [P]. *)
Definition clean {X} (P : X -> Prop) (a : ndarray X) : Prop :=
  Forall (clean_row P (shape1 a)) (rows a).

(** The array [dst] with the rows of [src] written from row [a] on. *)
Definition put {X} (dst : ndarray X) (a : nat) (src : ndarray X) : ndarray X :=
  mk_ndarray (shape1 dst) (overwrite (rows dst) a (rows src)).

(** A stored array of [cap] rows over [actors] actors whose rows below [v]
    are full rows of entries that satisfy [P]. *)
Definition field_ok {X} (P : X -> Prop) (cap actors v : nat) (f : option (ndarray X)) : Prop :=
  exists d,
    f = Some d /\ shape0 d = cap /\ shape1 d = actors
    /\ forall i row, i < v -> nth_error (rows d) i = Some row -> clean_row P actors row.

(** The four arrays of a buffer are allocated for [actors] actors and
    their rows below [v] hold entries that satisfy the predicates. *)
Definition fields_ok (actors v : nat) (self : buffer) : Prop :=
  field_ok Ps (ReplayBuffer.capacity self) actors v (ReplayBuffer.states self)
  /\ field_ok Pa (ReplayBuffer.capacity self) actors v (ReplayBuffer.actions self)
  /\ field_ok Pr (ReplayBuffer.capacity self) actors v (ReplayBuffer.rewards self)
  /\ field_ok Pd (ReplayBuffer.capacity self) actors v (ReplayBuffer.dones self).

(** The rows that hold pushed data: all of them once the buffer has wrapped,
    those below the write index before. *)
Definition valid (self : buffer) : nat :=
  if ReplayBuffer.full_loop self then ReplayBuffer.capacity self else ReplayBuffer.index self.

(** The state of a buffer between calls: nothing pushed yet, or the four
    arrays allocated with pushed data in the valid rows. *)
Definition inv (self : buffer) : Prop :=
  (ReplayBuffer.states self = None
   /\ ReplayBuffer.index self = 0 /\ ReplayBuffer.full_loop self = false)
  \/ (exists actors,
        fields_ok actors (valid self) self
        /\ (ReplayBuffer.full_loop self = false ->
            ReplayBuffer.index self <= ReplayBuffer.capacity self)).

(** The last statement of [push]: the [if] over the room that is left. *)
Definition push_rows (sts : ndarray St) (acs : ndarray Ac) (rws : ndarray Rw)
    (dns : ndarray Dn) : ReplayBuffer.M St Ac Rw Dn unit :=
  fun self =>
    if ReplayBuffer.index self + shape0 sts <=? ReplayBuffer.capacity self
    then ReplayBuffer._push_unchecked sts acs rws dns self
    else
      let n := (Z.of_nat (ReplayBuffer.capacity self) - Z.of_nat (ReplayBuffer.index self)
                - Z.of_nat (shape0 sts))%Z in
      Py.bind (ReplayBuffer._push_unchecked (slice_to n sts) (slice_to n acs)
                                            (slice_to n rws) (slice_to n dns))
        (fun _ => Py.bind (Py.modify (ReplayBuffer.set_index 0))
        (fun _ => Py.bind (ReplayBuffer._push_unchecked (slice_from n sts) (slice_from n acs)
                                            (slice_from n rws) (slice_from n dns))
        (fun _ => Py.modify (ReplayBuffer.set_full_loop true)))) self.

(** The buffers a program gets by pushing clean rollouts, one after the
    other, into a new buffer. *)
Inductive reachable : buffer -> Prop :=
| reach_init cap : reachable (ReplayBuffer.__init__ St Ac Rw Dn cap)
| reach_push self self' sts acs rws dns :
    reachable self ->
    clean Ps sts -> clean Pa acs -> clean Pr rws -> clean Pd dns ->
    ReplayBuffer.push st0 ac0 rw0 dn0 sts acs rws dns self = (Ok tt, self') ->
    reachable self'.

(** A stored array [d] and an incoming array [src] of [L] rows, both over
    [actors] actors, the stored one of [cap] rows. *)
Definition fits {X} (cap actors L : nat) (d src : ndarray X) : Prop :=
  shape0 d = cap /\ shape1 d = actors /\ shape0 src = L /\ shape1 src = actors.

(** The rows of a stored array after a push that wraps: the rest of the
    rollout from row 0 on, the old rows up to the old write index, and the
    head of the rollout from the old write index to the end. *)
Definition wrapped {X} (cap idx : nat) (d src : ndarray X) : ndarray X :=
  mk_ndarray (shape1 d)
    (skipn (cap - idx) (rows src)
     ++ skipn (shape0 src - (cap - idx)) (firstn idx (rows d))
     ++ firstn (cap - idx) (rows src)).

(** A list of runs that is not empty, all of which end with an exception
    and with the buffer [self]. *)
Definition raises {A} (self : buffer) (runs : list (result A * buffer)) : Prop :=
  runs <> [] /\ Forall (fun run => exists e, run = (Raise e, self)) runs.

(** Entry (t, c) of an array. *)
Definition entry {X} (a : ndarray X) (t c : nat) : option X :=
  match nth_error (rows a) t with
  | Some row => nth_error row c
  | None => None
  end.

(** An output array of [sample]: [len] rows of [n] entries. *)
Definition out_ok {X} (n len : nat) (a : ndarray X) : Prop :=
  shape1 a = n /\ shape0 a = len /\ Forall (fun row => length row = n) (rows a).

(** The output array after [dst[:, ri] = d[h : h + len, r]]. *)
Definition copy_of {X} (d dst : ndarray X) (ri r h len : nat) : ndarray X :=
  match get_window d h (h + len) r with
  | Ok w => match set_column dst ri w with
            | Ok dst' => dst'
            | Raise _ => dst
            end
  | Raise _ => dst
  end.

(** The same on a field of the buffer. *)
Definition field_copy {X} (f : option (ndarray X)) (dst : ndarray X)
    (ri r h len : nat) : ndarray X :=
  match f with
  | Some d => copy_of d dst ri r h len
  | None => dst
  end.

(** Entry (t, c) of a stored array. *)
Definition stored {X} (f : option (ndarray X)) (t c : nat) : option X :=
  match f with
  | Some d => entry d t c
  | None => None
  end.

(** Column [ri] of [dst'] is the window of [len] rows from row [h] of
    actor [r]; the other columns are those of [dst]. *)
Definition column_copied {X} (f : option (ndarray X)) (dst dst' : ndarray X)
    (ri r h len : nat) : Prop :=
  forall j c,
    entry dst' j c
    = if c =? ri then (if j <? len then stored f (h + j) r else None)
      else entry dst j c.

(** The four output arrays of [sample] have [len] rows of [n] entries. *)
Definition batch_ok (n len : nat) (out : batch) : Prop :=
  out_ok n len (ReplayBuffer.b_states out)
  /\ out_ok n len (ReplayBuffer.b_actions out)
  /\ out_ok n len (ReplayBuffer.b_rewards out)
  /\ out_ok n len (ReplayBuffer.b_dones out).

(** The batch after one turn of the loop that drew actor [r] and start [h]. *)
Definition step_of (self : buffer) (out : batch) (ri r h len : nat) : batch :=
  ReplayBuffer.mk_batch
    (field_copy (ReplayBuffer.states self) (ReplayBuffer.b_states out) ri r h len)
    (field_copy (ReplayBuffer.actions self) (ReplayBuffer.b_actions out) ri r h len)
    (field_copy (ReplayBuffer.rewards self) (ReplayBuffer.b_rewards out) ri r h len)
    (field_copy (ReplayBuffer.dones self) (ReplayBuffer.b_dones out) ri r h len).

(** In all four arrays, column [ri] of [out'] is the window (r, h) of the
    buffer and the other columns are those of [out]. *)
Definition window_copied (self : buffer) (out out' : batch) (ri r h len : nat) : Prop :=
  column_copied (ReplayBuffer.states self)
                (ReplayBuffer.b_states out) (ReplayBuffer.b_states out') ri r h len
  /\ column_copied (ReplayBuffer.actions self)
                   (ReplayBuffer.b_actions out) (ReplayBuffer.b_actions out') ri r h len
  /\ column_copied (ReplayBuffer.rewards self)
                   (ReplayBuffer.b_rewards out) (ReplayBuffer.b_rewards out') ri r h len
  /\ column_copied (ReplayBuffer.dones self)
                   (ReplayBuffer.b_dones out) (ReplayBuffer.b_dones out') ri r h len.

(** In all four arrays, column [c] of [out] is the window of [len] rows
    from row [h] of actor [r] of the buffer. *)
Definition drawn_window (self : buffer) (out : batch) (c r h len : nat) : Prop :=
  forall j, j < len ->
    entry (ReplayBuffer.b_states out) j c = stored (ReplayBuffer.states self) (h + j) r
    /\ entry (ReplayBuffer.b_actions out) j c = stored (ReplayBuffer.actions self) (h + j) r
    /\ entry (ReplayBuffer.b_rewards out) j c = stored (ReplayBuffer.rewards self) (h + j) r
    /\ entry (ReplayBuffer.b_dones out) j c = stored (ReplayBuffer.dones self) (h + j) r.

(** Column [c] is the same in [out] and [out']. *)
Definition same_column (out out' : batch) (c : nat) : Prop :=
  forall j,
    entry (ReplayBuffer.b_states out') j c = entry (ReplayBuffer.b_states out) j c
    /\ entry (ReplayBuffer.b_actions out') j c = entry (ReplayBuffer.b_actions out) j c
    /\ entry (ReplayBuffer.b_rewards out') j c = entry (ReplayBuffer.b_rewards out) j c
    /\ entry (ReplayBuffer.b_dones out') j c = entry (ReplayBuffer.b_dones out) j c.

End ReplayVocabulary.

(** ** Small inputs for the replay buffer *)

(** A rollout of one actor whose states, actions, rewards and done flags
    at step i are all the i-th number of [l]. *)
Definition rollout (l : list nat) : np.ndarray nat :=
  np.mk_ndarray 1 (map (fun x => [x]) l).

(** The push of that rollout. *)
Definition push_numbers (l : list nat)
  : ReplayBuffer.M nat nat nat nat unit :=
  ReplayBuffer.push 0 0 0 0 (rollout l) (rollout l) (rollout l) (rollout l).

(** A buffer of capacity 4 after a push of three steps. *)
Definition three_of_four : ReplayBuffer.t nat nat nat nat :=
  snd (push_numbers [1; 2; 3] (ReplayBuffer.__init__ nat nat nat nat 4)).

(** The same buffer after a second push of three steps. *)
Definition six_of_four : ReplayBuffer.t nat nat nat nat :=
  snd (push_numbers [4; 5; 6] three_of_four).

(** What tells pushed numbers from the zeros of a new array. *)
Definition pushed (x : nat) : Prop := x <> 0.

(** ** The statements on the rest of the code *)

(** ** More on the replay buffer *)

Section PushVocabulary.

Import np.

Variables St Ac Rw Dn : Type.
Variable st0 : St.
Variable ac0 : Ac.
Variable rw0 : Rw.
Variable dn0 : Dn.

(** [np.zeros((cap, actors, ...))] *)
Definition zero_array {X} (zero : X) (cap actors : nat) : ndarray X :=
  mk_ndarray actors (repeat (repeat zero actors) cap).

(** The four arrays of one rollout. *)
Record rollout4 : Type := mk_rollout4 {
  r_states : ndarray St;
  r_actions : ndarray Ac;
  r_rewards : ndarray Rw;
  r_dones : ndarray Dn
}.

(** The four arrays have [L] rows over [actors] actors. *)
Definition rollout_shape (actors L : nat) (r : rollout4) : Prop :=
  (shape0 (r_states r) = L /\ shape1 (r_states r) = actors)
  /\ (shape0 (r_actions r) = L /\ shape1 (r_actions r) = actors)
  /\ (shape0 (r_rewards r) = L /\ shape1 (r_rewards r) = actors)
  /\ (shape0 (r_dones r) = L /\ shape1 (r_dones r) = actors).

(** The shapes that [push] asserts, with [actors] for the second axis. *)
Definition well_shaped (actors : nat) (r : rollout4) : Prop :=
  rollout_shape actors (shape0 (r_states r)) r.

Definition push_rollout (r : rollout4) : ReplayBuffer.M St Ac Rw Dn unit :=
  ReplayBuffer.push st0 ac0 rw0 dn0 (r_states r) (r_actions r) (r_rewards r) (r_dones r).

(** The rollouts pushed one after the other. *)
Definition push_each (rs : list rollout4) : ReplayBuffer.M St Ac Rw Dn unit :=
  Py.for_each rs push_rollout.

(** The number of steps of a list of rollouts. *)
Definition total_steps (rs : list rollout4) : nat :=
  list_sum (map (fun r => shape0 (r_states r)) rs).

(** An array of [cap] rows: the given rows, then zeros. *)
Definition filled {X} (zero : X) (cap actors : nat) (rs : list (list X)) : ndarray X :=
  mk_ndarray actors (rs ++ repeat (repeat zero actors) (cap - length rs)).

(** The rows of one of the four arrays over a list of rollouts, in order. *)
Definition all_rows {X} (field : rollout4 -> ndarray X) (rs : list rollout4)
  : list (list X) :=
  concat (map (fun r => rows (field r)) rs).

End PushVocabulary.

(** The minibatches of one epoch of [_ppo_update]: the index slices
    [rand_idx[i * batch_size : (i + 1) * batch_size]] for the loader
    iterations [i] below [batches]. *)
Definition epoch_batches (rand_idx : list nat) (batches batch_size : nat) : list (list nat) :=
  map (fun loader_iter =>
         PPO.slice rand_idx (loader_iter * batch_size) ((loader_iter + 1) * batch_size))
      (seq 0 batches).

Section ScheduleVocabulary.

Variables Params Data : Type.
Variable data_len : Data -> nat.
Variable forward_loss : Params -> Data -> list nat -> PPO.float.
Variable optimizer_step : Params -> Data -> list nat -> Params.
Variable randperm : nat -> nat -> list nat.

(** The minibatches of an update, in the order in which the two loops of
    [_ppo_update] take them. *)
Definition minibatches (num_actors horizon batch_size ppo_iters : nat) (data : Data)
  : list (list nat) :=
  flat_map (fun ppo_iter =>
              epoch_batches (randperm ppo_iter (data_len data))
                            (Nat.max 1 (num_actors * horizon / batch_size)) batch_size)
           (seq 0 ppo_iters).

(** The parameters after an optimizer step on each of the minibatches
    [idxs], one after the other. *)
Fixpoint params_after (data : Data) (theta : Params) (idxs : list (list nat)) : Params :=
  match idxs with
  | [] => theta
  | idx :: rest => params_after data (optimizer_step theta data idx) rest
  end.

(** The total losses computed on the way: each on the parameters that the
    steps before it have left. *)
Fixpoint losses_along (data : Data) (theta : Params) (idxs : list (list nat))
  : list PPO.float :=
  match idxs with
  | [] => []
  | idx :: rest =>
      forward_loss theta data idx :: losses_along data (optimizer_step theta data idx) rest
  end.

End ScheduleVocabulary.

(** A part of the update that went through [n] minibatches. *)
Definition went_through {Params} (n : nat) (s0 : PPO.trainer Params)
    (r : result unit * PPO.trainer Params) : Prop :=
  fst r = Ok tt
  /\ exists ls, length ls = n /\ PPO.log (snd r) = PPO.log s0 ++ flat_map block ls.

Section RunVocabulary.

Variables Obs St Rw Dn Pr Vl Ac Noise Folder : Type.
Variable _from_numpy : Obs -> St.
Variable _take_step : St -> Dn -> Pr * Vl.
Variable pd_sample : Noise -> Pr -> Ac.
Variable update : PPO.Sample St Rw Dn Pr Vl Ac -> result unit.

Local Abbreviation agent := (PPORun.t St Rw Dn Pr Vl Ac Folder).

(** What one call of [_step] gets: its four arguments, the random numbers
    of the action draw, and the frame counter of the base class at the
    call. *)
Record step_input : Type := mk_input {
  i_prev_states : Obs;
  i_rewards : Rw;
  i_dones : Dn;
  i_cur_states : Obs;
  i_noise : Noise;
  i_frame : Z
}.

(** What that call hands to [append_to_sample]. *)
Definition args_of (i : step_input) : PPO.step_args St Rw Dn Pr Vl Ac :=
  let states := _from_numpy (i_cur_states i) in
  let ac_out := _take_step states (i_dones i) in
  PPO.mk_step states (i_rewards i) (i_dones i)
              (pd_sample (i_noise i) (fst ac_out)) (fst ac_out) (snd ac_out).

(** The sample collected from the steps [l], starting from a new one. *)
Definition sample_of (l : list step_input) : PPO.Sample St Rw Dn Pr Vl Ac :=
  fold_left (@PPO.append_step _ _ _ _ _ _) (map args_of l)
            (PPO.create_new_sample St Rw Dn Pr Vl Ac).

(** One step: the base class has set the frame counter, [_step] runs. *)
Definition step_at (i : step_input) : Py.M agent unit :=
  Py.bind (Py.modify (@PPORun.set_frame _ _ _ _ _ _ _ (i_frame i)))
    (fun _ => Py.bind (PPORun._step _from_numpy _take_step pd_sample update
                         (i_prev_states i) (i_rewards i) (i_dones i) (i_cur_states i)
                         (i_noise i))
    (fun _ => Py.ret tt)).

(** The steps [l] made one after the other. *)
Definition steps (l : list step_input) : Py.M agent unit := Py.for_each l step_at.

(** Saving cannot fail: there is a folder, or nothing is ever saved. *)
Definition can_save (a : agent) : Prop :=
  PPORun.model_save_interval a = None \/ PPORun.model_save_folder a <> None.

(** [check_save_model] called at each of the frames [fs]. *)
Definition save_at (fs : list Z) : Py.M agent unit :=
  Py.for_each fs (fun f =>
    Py.bind (Py.modify (@PPORun.set_frame _ _ _ _ _ _ _ f))
            (fun _ => @PPORun.check_save_model _ _ _ _ _ _ _)).

(** Frames that are at least [d] apart, the first at least [d] after
    [last]. *)
Fixpoint spaced (d last : Z) (l : list Z) : Prop :=
  match l with
  | [] => True
  | f :: l' => (last + d <= f)%Z /\ spaced d f l'
  end.

(** The file written for a save at frame [f]. *)
Definition name_at (a : agent) (f : Z) : PPORun.file_name :=
  if PPORun.save_intermediate_models a then PPORun.tag_frame f else PPORun.tag_only.

(** Two agents with the same settings. *)
Definition same_settings (a a' : agent) : Prop :=
  PPORun.horizon a' = PPORun.horizon a
  /\ PPORun.model_save_folder a' = PPORun.model_save_folder a
  /\ PPORun.model_save_interval a' = PPORun.model_save_interval a
  /\ PPORun.save_intermediate_models a' = PPORun.save_intermediate_models a.

(** The number of steps from one training to the next. *)
Definition period (a : agent) : nat := Z.to_nat (Z.max (PPORun.horizon a) 0) + 1.

End RunVocabulary.

Section WorldVocabulary.

Variables St Ac Rw Dn : Type.

(** The product that the constructor and the gate of world training
    compare with. *)
Definition world_batch (a : MPPOUpdate.t St Ac Rw Dn) : Z :=
  (MPPOUpdate.world_train_iters a * MPPOUpdate.world_train_rollouts a
   * MPPOUpdate.world_train_horizon a)%Z.

End WorldVocabulary.

Section TrainerVocabulary.

Variable choice : Z -> nat -> nat -> list nat.

(** A trainer between two steps: the selection and the frame of its last
    change are set together, and the players fit into the population. *)
Definition selection_ready (a : MultiplayerEnvTrainer.t) : Prop :=
  MultiplayerEnvTrainer.num_players a <= MultiplayerEnvTrainer.population_size a
  /\ (MultiplayerEnvTrainer.selected_algs a = None
      \/ MultiplayerEnvTrainer.selection_change_frame a <> None).

(** The number of steps that [train] makes: at least one, and as many as
    it takes the frame counter to reach [max_frames]. *)
Definition steps_needed (a : MultiplayerEnvTrainer.t) (max_frames : Z) : nat :=
  Z.to_nat (Z.max 1 ((max_frames - MultiplayerEnvTrainer.frame a
                      + MultiplayerEnvTrainer.num_envs a - 1)
                     / MultiplayerEnvTrainer.num_envs a)).

(** The steps of a run of [n] steps from frame [f]: always_log is set at
    the last one only. *)
Definition steps_of_train (f num_envs : Z) (n : nat) : list (Z * bool) :=
  map (fun k => ((f + Z.of_nat k * num_envs)%Z, k =? n - 1)) (seq 0 n).

(** Steps with the given always_log flags, one after the other. *)
Definition run_steps (flags : list bool) : Py.M MultiplayerEnvTrainer.t unit :=
  Py.for_each flags (MultiplayerEnvTrainer.step choice).

End TrainerVocabulary.

(** The selections made at the printed frames but the last one. *)
Definition earlier_selections (choice : Z -> nat -> nat -> list nat)
    (a : MultiplayerEnvTrainer.t) : list (list nat) :=
  map (fun f => choice f (MultiplayerEnvTrainer.population_size a)
                       (MultiplayerEnvTrainer.num_players a))
      (removelast (MultiplayerEnvTrainer.printed a)).

(** The settings of a trainer, which no method changes. *)
Definition same_trainer (a a' : MultiplayerEnvTrainer.t) : Prop :=
  MultiplayerEnvTrainer.population_size a' = MultiplayerEnvTrainer.population_size a
  /\ MultiplayerEnvTrainer.selection_train_frames a'
     = MultiplayerEnvTrainer.selection_train_frames a
  /\ MultiplayerEnvTrainer.num_envs a' = MultiplayerEnvTrainer.num_envs a
  /\ MultiplayerEnvTrainer.num_players a' = MultiplayerEnvTrainer.num_players a.

(** What a trainer has printed and dropped so far fits its selection:
    nothing selected and nothing printed yet, or the printed frames are at
    least selection_train_frames apart, the last of them is the frame of the
    last change, the selection is the one drawn then, and the collected
    steps were dropped for the selections made before, one after the
    other. *)
Definition selection_log_ok (choice : Z -> nat -> nat -> list nat)
    (a : MultiplayerEnvTrainer.t) : Prop :=
  match MultiplayerEnvTrainer.printed a with
  | [] =>
      MultiplayerEnvTrainer.selected_algs a = None
      /\ MultiplayerEnvTrainer.selection_change_frame a = None
      /\ MultiplayerEnvTrainer.dropped a = []
  | f0 :: rest =>
      spaced (MultiplayerEnvTrainer.selection_train_frames a) f0 rest
      /\ MultiplayerEnvTrainer.selection_change_frame a = Some (last rest f0)
      /\ MultiplayerEnvTrainer.selected_algs a
         = Some (choice (last rest f0) (MultiplayerEnvTrainer.population_size a)
                        (MultiplayerEnvTrainer.num_players a))
      /\ MultiplayerEnvTrainer.dropped a = earlier_selections choice a
  end.

(** ** Small inputs for the rest of the code *)

(** The rollout of one actor whose four arrays hold the numbers [l]. *)
Definition rollout_of (l : list nat) : rollout4 nat nat nat nat :=
  mk_rollout4 (rollout l) (rollout l) (rollout l) (rollout l).

(** The stored array of capacity 4 that holds 1, 2, 3 and a zero row. *)
Definition stored_123 : np.ndarray nat := np.mk_ndarray 1 [[1]; [2]; [3]; [0]].

(** An MPPO agent with world_train_iters, world_train_rollouts and
    world_train_horizon 1 and a new replay buffer of capacity 4; training
    data of three steps. *)
Definition small_mppo : MPPOUpdate.t nat nat nat nat :=
  MPPOUpdate.mk 1 1 1 (ReplayBuffer.__init__ nat nat nat nat 4).

Definition small_data : MPPOUpdate.TrainingData nat nat nat nat :=
  MPPOUpdate.mk_data (rollout [1; 2; 3]) (rollout [1; 2; 3])
                     (rollout [1; 2; 3]) (rollout [1; 2; 3]).

(** A PPO agent of horizon 1 on numbers, saving every 10 frames: the state
    is the observation, the probs and the value are the state, the action
    is the random number, and the update goes through. *)
Definition toy_agent : PPORun.t nat nat bool nat nat nat unit :=
  PPORun.mk 1 (PPO.create_new_sample nat nat bool nat nat nat) 0
            (Some tt) (Some 10%Z) true 0 [] [].

Definition toy_from_numpy (x : nat) : nat := x.
Definition toy_take_step (s : nat) (d : bool) : nat * nat := (s, s).
Definition toy_pd_sample (u p : nat) : nat := u.
Definition toy_update (s : PPO.Sample nat nat bool nat nat nat) : result unit := Ok tt.

(** The step at frame n that observes n, with the reward n. *)
Definition toy_input (n : nat) : step_input nat nat bool nat :=
  mk_input n n false n n (Z.of_nat n).

(** A trainer of a population of two for one player, with 10 frames
    between two selections. *)
Definition toy_trainer (num_envs : Z) : MultiplayerEnvTrainer.t :=
  MultiplayerEnvTrainer.mk 2 10 num_envs 1 0 None None [] [] [].

(** The draw of the players: the first ones, at every frame. *)
Definition toy_choice (frame : Z) (population_size num_players : nat) : list nat :=
  seq 0 num_players.

(** An update on numbers whose losses are all 0. *)
Definition zero_loss (theta data : nat) (idx : list nat) : PPO.float := PPO.Finite 0.
Definition count_step (theta data : nat) (idx : list nat) : nat := S theta.
Definition identity_perm (epoch n : nat) : list nat := seq 0 n.

(** * Properties *)

(** ** The sample buffer *)

Section SampleBufferFacts.

Variables St Rw Dn Pr Vl Ac : Type.

Local Abbreviation Sample := (PPO.Sample St Rw Dn Pr Vl Ac).
Local Abbreviation step_args := (PPO.step_args St Rw Dn Pr Vl Ac).

Lemma append_first (c : step_args) :
  PPO.append_step (PPO.create_new_sample St Rw Dn Pr Vl Ac) c
  = PPO.mk_Sample [PPO.a_states c] [] [] [PPO.a_probs c] [PPO.a_values c] [PPO.a_actions c].
Proof. reflexivity. Qed.

Lemma append_keeps_lagged (s : Sample) (c : step_args) :
  lagged s -> lagged (PPO.append_step s c).
Proof.
  intros (Hs & Hd & Hp & Hv & Ha).
  unfold PPO.append_step, PPO.append_to_sample.
  destruct (PPO.states s) as [|x xs] eqn:E; [discriminate Hs|].
  cbn [length Nat.eqb negb].
  unfold lagged; cbn [PPO.states PPO.rewards PPO.dones PPO.probs PPO.values PPO.actions].
  rewrite !length_app; cbn [length] in *.
  repeat split; lia.
Qed.

Lemma fold_keeps_lagged (cs : list step_args) :
  forall s, lagged s -> lagged (fold_left (@PPO.append_step _ _ _ _ _ _) cs s).
Proof.
  induction cs as [|c cs IH]; intros s Hs; cbn [fold_left].
  - exact Hs.
  - apply IH, append_keeps_lagged, Hs.
Qed.

(** C9.  On a fresh sample buffer the first call of [append_to_sample] stores
    the state, the probability parameters, the value and the action and no
    reward or done flag; after every call of any sequence of calls,
    len(rewards) = len(dones) = len(states) - 1 and
    len(states) = len(probs) = len(values) = len(actions). *)
Theorem append_to_sample_lag_by_one (c : step_args) (cs : list step_args) :
  let first := PPO.append_step (PPO.create_new_sample St Rw Dn Pr Vl Ac) c in
  let s := fold_left (@PPO.append_step _ _ _ _ _ _) cs first in
  (PPO.states first = [PPO.a_states c]
   /\ PPO.probs first = [PPO.a_probs c]
   /\ PPO.values first = [PPO.a_values c]
   /\ PPO.actions first = [PPO.a_actions c]
   /\ PPO.rewards first = []
   /\ PPO.dones first = [])
  /\ (Z.of_nat (length (PPO.rewards s)) = Z.of_nat (length (PPO.states s)) - 1
      /\ Z.of_nat (length (PPO.dones s)) = Z.of_nat (length (PPO.states s)) - 1
      /\ length (PPO.states s) = length (PPO.probs s)
      /\ length (PPO.states s) = length (PPO.values s)
      /\ length (PPO.states s) = length (PPO.actions s))%Z.
Proof.
  intros first s.
  split.
  - subst first. rewrite append_first. cbn. repeat split.
  - assert (H : lagged s).
    { subst s. apply fold_keeps_lagged. subst first. rewrite append_first.
      unfold lagged; cbn. repeat split. }
    destruct H as (Hs & Hd & Hp & Hv & Ha).
    repeat split; lia.
Qed.

End SampleBufferFacts.

(** ** The PPO loss *)

Section LossFacts.

Local Open Scope R_scope.

Lemma nth_error_zip_with {A B C} (f : A -> B -> C) (xs : list A) (ys : list B) :
  forall i x y,
    nth_error xs i = Some x -> nth_error ys i = Some y ->
    nth_error (torch.zip_with f xs ys) i = Some (f x y).
Proof.
  revert ys; induction xs as [|x0 xs IH]; intros ys [|i] x y Hx Hy;
    destruct ys as [|y0 ys]; cbn in *; try discriminate.
  - congruence.
  - eauto.
Qed.

Lemma nth_error_map_some {A B} (f : A -> B) (xs : list A) :
  forall i x, nth_error xs i = Some x -> nth_error (map f xs) i = Some (f x).
Proof.
  induction xs as [|x0 xs IH]; intros [|i] x Hx; cbn in *; try discriminate.
  - congruence.
  - eauto.
Qed.

Variables Pr Ac : Type.
Variable self : PPO.t.
Variable pd : PPO.ProbabilityDistribution Pr Ac.

Lemma ratio_at probs probs_old actions i a p p_old :
  nth_error actions i = Some a ->
  nth_error probs i = Some p ->
  nth_error probs_old i = Some p_old ->
  nth_error (PPO.ratio pd probs probs_old actions) i
  = Some (PPO.logp pd a p - PPO.logp pd a p_old).
Proof.
  intros Ha Hp Ho. unfold PPO.ratio, torch.sub, PPO.logp', PPO.logp_old.
  apply nth_error_zip_with; apply nth_error_zip_with; assumption.
Qed.

(** C6.  Under the clip constraint ('clip' or 'clip_mod'), for every sample
    of the minibatch the probability ratio is the difference of the log
    probabilities, logp(action|new) - logp(action|old), with no exponential,
    and the policy loss is
    -min(ratio * advantage, clamp(ratio, -c, c) * advantage)
    where c = policy_clip * clip_mult: the thresholds bound the difference
    of the logarithms itself. *)
Theorem ppo_log_ratio_clipped_policy_loss
    probs probs_old actions advantages i a p p_old adv :
  PPO.constraint self <> None ->
  nth_error actions i = Some a ->
  nth_error probs i = Some p ->
  nth_error probs_old i = Some p_old ->
  nth_error advantages i = Some adv ->
  let r := PPO.logp pd a p - PPO.logp pd a p_old in
  let c := PPO.policy_clip self * PPO.clip_mult self in
  nth_error (PPO.ratio pd probs probs_old actions) i = Some r
  /\ nth_error (PPO.loss_clip self pd probs probs_old actions advantages) i
     = Some (- Rmin (r * adv) (Rmin (Rmax r (- c)) c * adv)).
Proof.
  intros Hc Ha Hp Ho Hadv r c.
  pose proof (ratio_at probs probs_old actions i Ha Hp Ho) as Hr.
  split; [exact Hr|].
  unfold PPO.loss_clip.
  destruct (PPO.constraint self) as [k|]; [|contradiction].
  unfold torch.neg, torch.min, PPO.unclipped_policy_loss, torch.mul, torch.clamp.
  apply (nth_error_map_some Ropp).
  apply nth_error_zip_with.
  - apply nth_error_zip_with; assumption.
  - apply nth_error_zip_with; [|assumption].
    apply (nth_error_map_some (torch.clamp1 (- PPO.policy_clip' self) (PPO.policy_clip' self))).
    exact Hr.
Qed.

(** Without a constraint the policy loss is the plain -ratio * advantage. *)
Lemma unconstrained_policy_loss probs probs_old actions advantages i a p p_old adv :
  PPO.constraint self = None ->
  nth_error actions i = Some a ->
  nth_error probs i = Some p ->
  nth_error probs_old i = Some p_old ->
  nth_error advantages i = Some adv ->
  nth_error (PPO.loss_clip self pd probs probs_old actions advantages) i
  = Some (- ((PPO.logp pd a p - PPO.logp pd a p_old) * adv)).
Proof.
  intros Hc Ha Hp Ho Hadv.
  unfold PPO.loss_clip. rewrite Hc.
  apply (nth_error_map_some Ropp).
  apply nth_error_zip_with; [|assumption].
  apply ratio_at; assumption.
Qed.

Lemma loss_value_at values values_old returns i v v_old ret :
  nth_error values i = Some v ->
  nth_error values_old i = Some v_old ->
  nth_error returns i = Some ret ->
  nth_error (PPO.loss_value self values values_old returns) i
  = Some (PPO.value_loss_scale self * 0.5
          * Rmax (torch.smooth_l1 v ret)
                 (torch.smooth_l1
                    (v_old + torch.clamp1 (- PPO.value_clip' self) (PPO.value_clip' self)
                                          (v - v_old)) ret)).
Proof.
  intros Hv Ho Hr.
  unfold PPO.loss_value, torch.scale, torch.max.
  apply (nth_error_map_some (Rmult (PPO.value_loss_scale self * 0.5))).
  apply nth_error_zip_with.
  - unfold PPO.vf_nonclip_loss, torch.smooth_l1_loss.
    apply nth_error_zip_with; assumption.
  - unfold PPO.vf_clip_loss, torch.smooth_l1_loss, PPO.v_pred_clipped, torch.add.
    apply nth_error_zip_with; [|assumption].
    apply nth_error_zip_with; [assumption|].
    unfold torch.clamp, torch.sub.
    apply (nth_error_map_some (torch.clamp1 (- PPO.value_clip' self) (PPO.value_clip' self))).
    apply nth_error_zip_with; assumption.
Qed.

(** C7, as the code has it.  For every sample of the minibatch the value loss
    is value_loss_scale * 0.5 * max(L(value), L(clipped value)) where L is the
    smooth L1 loss against the return and the clipped value is
    old_value + clamp(value - old_value, -c, c) with
    c = value_clip * clip_mult. *)
Theorem value_loss_half_scaled_max values values_old returns i v v_old ret :
  nth_error values i = Some v ->
  nth_error values_old i = Some v_old ->
  nth_error returns i = Some ret ->
  let c := PPO.value_clip self * PPO.clip_mult self in
  nth_error (PPO.loss_value self values values_old returns) i
  = Some (PPO.value_loss_scale self * 0.5
          * Rmax (torch.smooth_l1 v ret)
                 (torch.smooth_l1 (v_old + Rmin (Rmax (v - v_old) (- c)) c) ret)).
Proof.
  intros Hv Ho Hr c.
  exact (loss_value_at values values_old returns i Hv Ho Hr).
Qed.

End LossFacts.

Lemma smooth_l1_2_0 : torch.smooth_l1 2 0 = 1.5%R.
Proof.
  unfold torch.smooth_l1.
  replace (2 - 0)%R with 2%R by lra.
  rewrite Rabs_pos_eq by lra.
  destruct (Rlt_dec 2 1); lra.
Qed.

(** C7, as the specification states it, fails: with value_loss_scale = 1,
    value 2, old value 2 and return 0 both smooth L1 losses are 1.5; the
    coefficient times their maximum is 1 * 1.5, and the code gives
    1 * 0.5 * 1.5. *)
Lemma value_loss_is_not_scale_times_max :
  let c := (PPO.value_clip ppo_unit_scale * PPO.clip_mult ppo_unit_scale)%R in
  nth_error (PPO.loss_value ppo_unit_scale [2%R] [2%R] [0%R]) 0
  <> Some (PPO.value_loss_scale ppo_unit_scale
           * Rmax (torch.smooth_l1 2 0)
                  (torch.smooth_l1 (2 + Rmin (Rmax (2 - 2) (- c)) c) 0))%R.
Proof.
  intros c.
  rewrite (@loss_value_at ppo_unit_scale [2%R] [2%R] [0%R] 0 2%R 2%R 0%R
             eq_refl eq_refl eq_refl).
  unfold torch.clamp1, PPO.value_clip'. fold c.
  assert (Hc : c = 0.1%R) by (unfold c, PPO.clip_mult; cbn; lra).
  replace (2 + Rmin (Rmax (2 - 2) (- c)) c)%R with 2%R.
  2:{ rewrite Hc. replace (2 - 2)%R with 0%R by lra.
      rewrite Rmax_left by lra. rewrite Rmin_left by lra. lra. }
  rewrite smooth_l1_2_0, Rmax_left by lra.
  cbn [PPO.value_loss_scale ppo_unit_scale].
  intros H. injection H as H. lra.
Qed.

Lemma ppo_log_ratio_clipped_policy_loss_witness :
  PPO.constraint ppo_unit_scale <> None
  /\ nth_error (PPO.ratio pd_const [3%R] [1%R] [0%R]) 0 = Some (3 - 1)%R
  /\ nth_error (PPO.loss_clip ppo_unit_scale pd_const [3%R] [1%R] [0%R] [2%R]) 0
     = Some (- Rmin ((3 - 1) * 2)
                    (Rmin (Rmax (3 - 1) (- (0.1 * 1))) (0.1 * 1) * 2))%R.
Proof.
  split; [discriminate|].
  apply (@ppo_log_ratio_clipped_policy_loss R R ppo_unit_scale pd_const
           [3%R] [1%R] [0%R] [2%R] 0%nat 0%R 3%R 1%R 2%R);
    [discriminate | reflexivity | reflexivity | reflexivity | reflexivity].
Defined.

Lemma value_loss_half_scaled_max_witness :
  nth_error (PPO.loss_value ppo_unit_scale [2%R] [2%R] [0%R]) 0
  = Some (1 * 0.5
          * Rmax (torch.smooth_l1 2 0)
                 (torch.smooth_l1 (2 + Rmin (Rmax (2 - 2) (- (0.1 * 1))) (0.1 * 1)) 0))%R.
Proof.
  apply (@value_loss_half_scaled_max ppo_unit_scale [2%R] [2%R] [0%R] 0%nat 2%R 2%R 0%R);
    reflexivity.
Defined.

(** ** The update loop and the check of the total loss *)

Section UpdateFacts.

Variables Params Data : Type.
Variable data_len : Data -> nat.
Variable forward_loss : Params -> Data -> list nat -> PPO.float.
Variable optimizer_step : Params -> Data -> list nat -> Params.
Variable randperm : nat -> nat -> list nat.

Local Abbreviation trainer := (PPO.trainer Params).
Local Abbreviation run := (result unit * trainer)%type.

Lemma minibatch_finite data idx (s : trainer) :
  finite (forward_loss (PPO.params s) data idx) = true ->
  PPO.minibatch forward_loss optimizer_step data idx s
  = (Ok tt, PPO.mk_trainer (optimizer_step (PPO.params s) data idx)
                           (PPO.log s ++ block (forward_loss (PPO.params s) data idx))).
Proof.
  intros Hf. unfold finite in Hf.
  unfold PPO.minibatch, PPO._get_ppo_loss_assert, PPO.emit, Py.bind, Py.get, Py.modify.
  cbn [PPO.params PPO.log]. rewrite Hf. cbn.
  rewrite <- !app_assoc. reflexivity.
Qed.

Lemma minibatch_not_finite data idx (s : trainer) :
  finite (forward_loss (PPO.params s) data idx) = false ->
  PPO.minibatch forward_loss optimizer_step data idx s
  = (Raise AssertionError,
     PPO.mk_trainer (PPO.params s)
                    (PPO.log s ++ [PPO.ComputeLoss (forward_loss (PPO.params s) data idx)])).
Proof.
  intros Hf. unfold finite in Hf.
  unfold PPO.minibatch, PPO._get_ppo_loss_assert, PPO.emit, Py.bind, Py.get, Py.modify.
  cbn [PPO.params PPO.log]. rewrite Hf. reflexivity.
Qed.

Lemma minibatch_ends_well data idx (s : trainer) :
  ends_well s (PPO.minibatch forward_loss optimizer_step data idx s).
Proof.
  destruct (finite (forward_loss (PPO.params s) data idx)) eqn:Hf.
  - rewrite minibatch_finite by exact Hf.
    exists [forward_loss (PPO.params s) data idx]. split.
    + constructor; [exact Hf|constructor].
    + left. cbn [fst snd PPO.log flat_map]. rewrite app_nil_r. split; reflexivity.
  - rewrite minibatch_not_finite by exact Hf.
    exists []. split; [constructor|].
    right. exists (forward_loss (PPO.params s) data idx).
    cbn [fst snd PPO.log flat_map app]. repeat split. exact Hf.
Qed.

Lemma for_each_ends_well {X} (body : X -> Py.M trainer unit) :
  (forall x s, ends_well s (body x s)) ->
  forall xs s, ends_well s (Py.for_each xs body s).
Proof.
  intros Hbody xs. induction xs as [|x xs IH]; intros s; cbn [Py.for_each].
  - exists []. split; [constructor|]. left. cbn. rewrite app_nil_r. split; reflexivity.
  - unfold Py.bind. destruct (Hbody x s) as (ls1 & Hls1 & H1).
    destruct (body x s) as [[u|e] s'] eqn:E; cbn [fst snd] in H1.
    + destruct H1 as [[_ Hlog]|(l & Hr & _)]; [|discriminate Hr].
      destruct (IH s') as (ls2 & Hls2 & H2).
      exists (ls1 ++ ls2). split; [apply Forall_app; split; assumption|].
      rewrite flat_map_app. rewrite Hlog in H2.
      destruct H2 as [[Hr Hlog2]|(l & Hr & Hl & Hlog2)].
      * left. split; [exact Hr|]. rewrite Hlog2, <- app_assoc. reflexivity.
      * right. exists l. repeat split; try assumption.
        rewrite Hlog2, <- !app_assoc. reflexivity.
    + exists ls1. split; [exact Hls1|]. cbn [fst snd]. exact H1.
Qed.

Lemma ppo_update_ends num_actors horizon batch_size ppo_iters data (s : trainer) :
  let r := PPO._ppo_update data_len forward_loss optimizer_step randperm
             num_actors horizon batch_size ppo_iters data s in
  ends_well s r \/ (batch_size = 0%nat /\ r = (Raise ZeroDivisionError, s)).
Proof.
  unfold PPO._ppo_update, Py.bind.
  destruct (batch_size =? 0)%nat eqn:Eb.
  - right. apply Nat.eqb_eq in Eb. split; [exact Eb|reflexivity].
  - left. cbn [Py.ret].
    apply for_each_ends_well. intros ppo_iter s1.
    apply for_each_ends_well. intros loader_iter s2.
    apply minibatch_ends_well.
Qed.

Lemma in_block e l : In e (block l) -> forall l', e = PPO.Backward l' \/ e = PPO.ComputeLoss l' -> l' = l.
Proof.
  unfold block. cbn [In].
  intros H l' [He|He]; subst e;
    repeat (destruct H as [H|H]; [try discriminate H; injection H as H; congruence|]);
    contradiction.
Qed.

Lemma in_blocks e ls :
  In e (flat_map block ls) -> exists l, In l ls /\ In e (block l).
Proof.
  intros H. apply in_flat_map in H. exact H.
Qed.

Lemma for_each_app {S X} (body : X -> Py.M S unit) (l1 l2 : list X) (s : S) :
  Py.for_each (l1 ++ l2) body s
  = Py.bind (Py.for_each l1 body) (fun _ => Py.for_each l2 body) s.
Proof.
  revert s. induction l1 as [|x l1 IH]; intros s; cbn [app Py.for_each].
  - reflexivity.
  - unfold Py.bind. destruct (body x s) as [[u|e] s']; [|reflexivity].
    rewrite IH. reflexivity.
Qed.

Lemma for_each_ext {S X} (body body' : X -> Py.M S unit) (xs : list X) :
  (forall x s, body x s = body' x s) ->
  forall s, Py.for_each xs body s = Py.for_each xs body' s.
Proof.
  intros H. induction xs as [|x xs IH]; intros s; cbn [Py.for_each]; [reflexivity|].
  unfold Py.bind. rewrite H. destruct (body' x s) as [[u|e] s']; [apply IH|reflexivity].
Qed.

Lemma for_each_map {S X Y} (f : X -> Y) (body : Y -> Py.M S unit) (xs : list X) :
  forall s, Py.for_each (map f xs) body s = Py.for_each xs (fun x => body (f x)) s.
Proof.
  induction xs as [|x xs IH]; intros s; cbn [map Py.for_each]; [reflexivity|].
  unfold Py.bind. destruct (body (f x) s) as [[u|e] s']; [apply IH|reflexivity].
Qed.

Lemma for_each_flat_map {S X Y} (g : X -> list Y) (body : Y -> Py.M S unit) (xs : list X) :
  forall s,
    Py.for_each (flat_map g xs) body s
    = Py.for_each xs (fun x => Py.for_each (g x) body) s.
Proof.
  induction xs as [|x xs IH]; intros s; cbn [flat_map Py.for_each]; [reflexivity|].
  rewrite for_each_app. unfold Py.bind.
  destruct (Py.for_each (g x) body s) as [[u|e] s']; [apply IH|reflexivity].
Qed.

(** The two loops of [_ppo_update] are one loop over the minibatches. *)
Lemma ppo_update_loops num_actors horizon batch_size ppo_iters data (s : trainer) :
  batch_size <> 0%nat ->
  PPO._ppo_update data_len forward_loss optimizer_step randperm
    num_actors horizon batch_size ppo_iters data s
  = Py.for_each (minibatches data_len randperm num_actors horizon batch_size ppo_iters data)
                (PPO.minibatch forward_loss optimizer_step data) s.
Proof.
  intros Hb. apply Nat.eqb_neq in Hb.
  unfold PPO._ppo_update, Py.bind at 1. rewrite Hb. cbn [Py.ret].
  unfold minibatches. rewrite for_each_flat_map.
  apply for_each_ext. intros ppo_iter s1.
  unfold epoch_batches. rewrite for_each_map. reflexivity.
Qed.

(** A loop over minibatches takes them in order, with an optimizer step for
    each, up to the first one whose total loss is not finite: there it
    stops, on the parameters that loss was computed with. *)
Lemma minibatches_run data (idxs : list (list nat)) :
  forall s : trainer,
    let r := Py.for_each idxs (PPO.minibatch forward_loss optimizer_step data) s in
    exists done rest,
      idxs = done ++ rest
      /\ Forall (fun l => finite l = true)
                (losses_along forward_loss optimizer_step data (PPO.params s) done)
      /\ PPO.params (snd r) = params_after optimizer_step data (PPO.params s) done
      /\ ((rest = [] /\ fst r = Ok tt
           /\ PPO.log (snd r)
              = PPO.log s
                ++ flat_map block
                     (losses_along forward_loss optimizer_step data (PPO.params s) done))
          \/ (exists idx rest',
                rest = idx :: rest'
                /\ finite (forward_loss (PPO.params (snd r)) data idx) = false
                /\ fst r = Raise AssertionError
                /\ PPO.log (snd r)
                   = PPO.log s
                     ++ flat_map block
                          (losses_along forward_loss optimizer_step data (PPO.params s) done)
                     ++ [PPO.ComputeLoss (forward_loss (PPO.params (snd r)) data idx)])).
Proof.
  induction idxs as [|idx idxs IH]; intros s r.
  - exists [], []. subst r. cbn. rewrite app_nil_r.
    split; [reflexivity|]. split; [constructor|]. split; [reflexivity|].
    left. repeat split.
  - subst r. cbn [Py.for_each]. unfold Py.bind.
    destruct (finite (forward_loss (PPO.params s) data idx)) eqn:Hf.
    + rewrite minibatch_finite by exact Hf.
      destruct (IH (PPO.mk_trainer (optimizer_step (PPO.params s) data idx)
                      (PPO.log s ++ block (forward_loss (PPO.params s) data idx))))
        as (done & rest & Hsplit & Hfin & Hpar & Hend).
      cbn [PPO.params PPO.log] in Hfin, Hpar, Hend.
      exists (idx :: done), rest.
      split; [rewrite Hsplit; reflexivity|].
      cbn [losses_along params_after flat_map].
      split; [constructor; assumption|]. split; [exact Hpar|].
      destruct Hend as [(Hrest & Hok & Hlog)|(idx' & rest' & Hrest & Hnf & Hraise & Hlog)].
      * left. split; [exact Hrest|]. split; [exact Hok|].
        rewrite Hlog, <- app_assoc. reflexivity.
      * right. exists idx', rest'. split; [exact Hrest|]. split; [exact Hnf|].
        split; [exact Hraise|]. rewrite Hlog, <- !app_assoc. reflexivity.
    + rewrite minibatch_not_finite by exact Hf.
      exists [], (idx :: idxs). cbn [app losses_along params_after flat_map fst snd
                                    PPO.params PPO.log].
      split; [reflexivity|]. split; [constructor|]. split; [reflexivity|].
      right. exists idx, idxs. repeat split. exact Hf.
Qed.

(** C8.  Start an update with an empty log.  (1) No backward pass is ever
    run on a total loss that is NaN or infinite.  (2) As soon as such a total
    loss has been computed the update ends with AssertionError, and computing
    that loss is the last thing it did: no gradient, no optimizer step, no
    later minibatch.  (3) When every total loss computed is finite the update
    does not end with AssertionError.  (4) What the update does is fixed by
    the total losses themselves: unless batch_size is 0, it takes the
    minibatches in the order of its loops, computes the total loss of each
    with the forward pass on the current parameters and makes the optimizer
    step for it as long as the loss is finite; at the first loss that is not
    finite it ends with AssertionError, the model parameters being those
    the loss was computed with and the minibatches after it untouched; and
    it returns only when every minibatch has gone through. *)
Theorem nonfinite_total_loss_halts_update
    num_actors horizon batch_size ppo_iters data (theta : Params) :
  let r := PPO._ppo_update data_len forward_loss optimizer_step randperm
             num_actors horizon batch_size ppo_iters data (PPO.mk_trainer theta []) in
  (forall l, In (PPO.Backward l) (PPO.log (snd r)) -> finite l = true)
  /\ (forall l, In (PPO.ComputeLoss l) (PPO.log (snd r)) -> finite l = false ->
        fst r = Raise AssertionError
        /\ exists before, PPO.log (snd r) = before ++ [PPO.ComputeLoss l])
  /\ ((forall l, In (PPO.ComputeLoss l) (PPO.log (snd r)) -> finite l = true) ->
        fst r <> Raise AssertionError)
  /\ ((batch_size = 0%nat /\ r = (Raise ZeroDivisionError, PPO.mk_trainer theta []))
      \/ (exists done rest,
            minibatches data_len randperm num_actors horizon batch_size ppo_iters data
            = done ++ rest
            /\ Forall (fun l => finite l = true)
                      (losses_along forward_loss optimizer_step data theta done)
            /\ PPO.params (snd r) = params_after optimizer_step data theta done
            /\ ((rest = [] /\ fst r = Ok tt
                 /\ PPO.log (snd r)
                    = flat_map block
                        (losses_along forward_loss optimizer_step data theta done))
                \/ (exists idx rest',
                      rest = idx :: rest'
                      /\ finite (forward_loss (PPO.params (snd r)) data idx) = false
                      /\ fst r = Raise AssertionError
                      /\ PPO.log (snd r)
                         = flat_map block
                             (losses_along forward_loss optimizer_step data theta done)
                           ++ [PPO.ComputeLoss
                                 (forward_loss (PPO.params (snd r)) data idx)])))).
Proof.
  intros r.
  assert (H123 :
    (forall l, In (PPO.Backward l) (PPO.log (snd r)) -> finite l = true)
    /\ (forall l, In (PPO.ComputeLoss l) (PPO.log (snd r)) -> finite l = false ->
          fst r = Raise AssertionError
          /\ exists before, PPO.log (snd r) = before ++ [PPO.ComputeLoss l])
    /\ ((forall l, In (PPO.ComputeLoss l) (PPO.log (snd r)) -> finite l = true) ->
          fst r <> Raise AssertionError)).
  { destruct (ppo_update_ends num_actors horizon batch_size ppo_iters data
                (PPO.mk_trainer theta [])) as [H|[_ H]]; fold r in H.
    2:{ rewrite H. cbn [fst snd PPO.log]. repeat split; try contradiction; discriminate. }
    destruct H as (ls & Hls & H). cbn [PPO.log app] in H.
    rewrite Forall_forall in Hls.
    assert (Hin : forall e l, In e (flat_map block ls) ->
                    e = PPO.Backward l \/ e = PPO.ComputeLoss l -> finite l = true).
    { intros e l He Hl. apply in_blocks in He. destruct He as (l0 & Hl0 & He).
      rewrite (in_block He Hl). apply Hls, Hl0. }
    destruct H as [[Hr Hlog]|(l0 & Hr & Hl0 & Hlog)]; rewrite Hlog.
    - split; [|split].
      + intros l Hl. apply (Hin _ l Hl). left; reflexivity.
      + intros l Hl Hnf. rewrite (Hin _ l Hl) in Hnf by (right; reflexivity). discriminate.
      + intros _. rewrite Hr. discriminate.
    - split; [|split].
      + intros l Hl. apply in_app_or in Hl. destruct Hl as [Hl|[Hl|[]]]; [|discriminate].
        apply (Hin _ l Hl). left; reflexivity.
      + intros l Hl Hnf. split; [exact Hr|].
        apply in_app_or in Hl. destruct Hl as [Hl|[Hl|[]]].
        * rewrite (Hin _ l Hl) in Hnf by (right; reflexivity). discriminate.
        * injection Hl as <-. exists (flat_map block ls). reflexivity.
      + intros Hall. rewrite (Hall l0) in Hl0; [discriminate|].
        apply in_or_app. right. left. reflexivity. }
  destruct H123 as (H1 & H2 & H3).
  split; [exact H1|]. split; [exact H2|]. split; [exact H3|].
  destruct (Nat.eq_dec batch_size 0) as [Hb|Hb].
  - left. split; [exact Hb|]. subst r. rewrite Hb. reflexivity.
  - right. subst r. rewrite (ppo_update_loops num_actors horizon ppo_iters data _ Hb).
    destruct (minibatches_run data
                (minibatches data_len randperm num_actors horizon batch_size ppo_iters data)
                (PPO.mk_trainer theta []))
      as (done & rest & Hsplit & Hfin & Hpar & Hend).
    cbn [PPO.params PPO.log app] in Hfin, Hpar, Hend.
    exists done, rest. split; [exact Hsplit|]. split; [exact Hfin|]. split; [exact Hpar|].
    exact Hend.
Qed.

End UpdateFacts.

(** ** The discriminator fake step *)

Section FakeStepFacts.

Variable Tensor : Type.
Variable model : Tensor -> bool -> MPPO.HeadOutput Tensor.
Variable pd_sample : nat -> Tensor -> Tensor.
Variable world_gen : Tensor -> Tensor -> Tensor * Tensor * Tensor.
Variable world_disc : Tensor -> Tensor -> Tensor -> Tensor -> Tensor -> Tensor.

Local Abbreviation unroll := (MPPO.disc_fake_unroll model pd_sample world_gen world_disc).
Local Abbreviation step := (MPPO.fake_step model pd_sample world_gen world_disc).

Lemma unroll_succ n states0 actions :
  unroll (S n) states0 actions = step states0 actions (unroll n states0 actions) n.
Proof.
  unfold MPPO.disc_fake_unroll. rewrite seq_S, fold_left_app. reflexivity.
Qed.

Lemma step_gen_calls states0 actions s i :
  exists code,
    MPPO.gen_calls (step states0 actions s i) = MPPO.gen_calls s ++ [(code, actions)].
Proof.
  unfold MPPO.fake_step.
  destruct (world_gen _ actions) as [[c r] d]. cbn [MPPO.gen_calls].
  eexists. reflexivity.
Qed.

(** Whatever the policy samples, every call of the generator in the unroll
    receives the replayed action tensor [actions] as its action argument,
    one call per step. *)
Lemma generator_receives_replayed_actions n states0 actions :
  length (MPPO.gen_calls (unroll n states0 actions)) = n
  /\ Forall (fun call => snd call = actions) (MPPO.gen_calls (unroll n states0 actions)).
Proof.
  induction n as [|n [IHlen IHall]].
  - split; [reflexivity|constructor].
  - rewrite unroll_succ.
    destruct (step_gen_calls states0 actions (unroll n states0 actions) n) as (code & ->).
    split.
    + rewrite length_app, IHlen. cbn. lia.
    + apply Forall_app. split; [exact IHall|]. constructor; [reflexivity|constructor].
Qed.

End FakeStepFacts.

(** C2.  Two unroll steps from the state 1 with the replayed actions 7: the
    policy samples the actions 50 and 51, which reach the discriminator,
    and the generator is called with 7 both times. *)
Theorem fake_step_generator_gets_replayed_actions :
  MPPO.all_gen_actions (toy_unroll 2 1 7) = [50; 51]
  /\ MPPO.disc_fake (toy_unroll 2 1 7) = [50; 51]
  /\ MPPO.gen_calls (toy_unroll 2 1 7) = [(2, 7); (9, 7)]
  /\ MPPO.all_gen_hidden_codes (toy_unroll 2 1 7) = [2; 9; 16].
Proof. repeat split. Qed.

(** ** Returns and advantages *)

Section EstimatorFacts.

Local Open Scope R_scope.

Lemma nth_tabulate (f : nat -> R) (n a : nat) :
  nth a (map f (seq 0 n)) 0 = if (a <? n)%nat then f a else 0.
Proof.
  destruct (a <? n)%nat eqn:E.
  - apply Nat.ltb_lt in E.
    rewrite (nth_indep _ 0 (f 0%nat)) by (rewrite length_map, length_seq; exact E).
    rewrite map_nth, seq_nth by exact E. reflexivity.
  - apply Nat.ltb_ge in E.
    apply nth_overflow. rewrite length_map, length_seq. exact E.
Qed.

Lemma at2_cons_0 (row : list R) (rest : gae.array2 R) (a : nat) :
  gae.at2 (row :: rest) 0 a = nth a row 0.
Proof. reflexivity. Qed.

Lemma at2_cons_S (row : list R) (rest : gae.array2 R) (t a : nat) :
  gae.at2 (row :: rest) (S t) a = gae.at2 rest t a.
Proof. reflexivity. Qed.

Lemma done_at_cons_S (row : list bool) (rest : gae.array2 bool) (t a : nat) :
  gae.done_at (row :: rest) (S t) a = gae.done_at rest t a.
Proof. reflexivity. Qed.

(** At a terminal step the return is the reward alone, whatever follows. *)
Lemma returns_from_terminal gamma (rewards : gae.array2 R) :
  forall (dones : gae.array2 bool) boot boot' t a,
    gae.done_at dones t a = true ->
    gae.at2 (gae.returns_from gamma rewards dones boot) t a
    = gae.at2 (gae.returns_from gamma rewards dones boot') t a.
Proof.
  induction rewards as [|r rewards IH]; intros dones boot boot' t a Hd; [reflexivity|].
  destruct dones as [|d dones]; [reflexivity|].
  cbn [gae.returns_from].
  destruct t as [|t].
  - rewrite !at2_cons_0, !nth_tabulate.
    unfold gae.done_at in Hd. cbn [nth] in Hd. rewrite Hd. cbn [gae.not_done].
    destruct (a <? length r)%nat; lra.
  - rewrite !at2_cons_S. apply IH. exact Hd.
Qed.

(** At a terminal step the advantage is reward minus value, whatever the
    values of the later steps are. *)
Lemma advantages_terminal gamma lambda (rewards : gae.array2 R) :
  forall (dones : gae.array2 bool) (values values' : gae.array2 R) t a,
    gae.done_at dones t a = true ->
    length values = length values' ->
    firstn (S t) values = firstn (S t) values' ->
    gae.at2 (gae.calc_advantages rewards values dones gamma lambda) t a
    = gae.at2 (gae.calc_advantages rewards values' dones gamma lambda) t a.
Proof.
  induction rewards as [|r rewards IH]; intros dones values values' t a Hd Hlen Hpre;
    [reflexivity|].
  destruct dones as [|d dones]; [reflexivity|].
  destruct values as [|v [|v1 values]]; destruct values' as [|v' [|v1' values']];
    try discriminate Hlen; try reflexivity.
  cbn [gae.calc_advantages].
  cbn [firstn] in Hpre. injection Hpre as Hv Hpre. subst v'.
  destruct t as [|t].
  - rewrite !at2_cons_0, !nth_tabulate.
    unfold gae.done_at in Hd. cbn [nth] in Hd. rewrite Hd. cbn [gae.not_done].
    destruct (a <? length r)%nat; lra.
  - rewrite !at2_cons_S. apply IH.
    + exact Hd.
    + cbn [length] in Hlen |- *. lia.
    + exact Hpre.
Qed.

(** C3.  Let the done flag of an actor be set at time t, and change the
    value estimates of the steps after t in any way.  The return R_t of
    that actor, as [_process_rewards] gives it, does not change, and neither
    does its advantage A_t, the value of the advantage recursion at t on the
    scaled rewards. *)
Theorem terminal_step_isolates_return_and_raw_advantage
    (rewards values values' : gae.array2 R) (dones : gae.array2 bool)
    (reward_discount advantage_discount reward_scale : R) (t a : nat) :
  gae.done_at dones t a = true ->
  length values = length values' ->
  firstn (S t) values = firstn (S t) values' ->
  let run v := PPO._process_rewards rewards v dones
                 reward_discount advantage_discount reward_scale in
  let raw v := gae.calc_advantages (norm_rewards_of (run v)) v dones
                 reward_discount advantage_discount in
  gae.at2 (returns_of (run values)) t a = gae.at2 (returns_of (run values')) t a
  /\ gae.at2 (raw values) t a = gae.at2 (raw values') t a.
Proof.
  intros Hd Hlen Hpre run raw. split.
  - unfold run, returns_of, PPO._process_rewards, gae.calc_returns. cbn [fst snd].
    apply returns_from_terminal. exact Hd.
  - unfold raw, run, norm_rewards_of, PPO._process_rewards. cbn [fst snd].
    apply advantages_terminal; assumption.
Qed.

End EstimatorFacts.

Lemma terminal_step_isolates_return_and_raw_advantage_witness :
  let run v := PPO._process_rewards iso_rewards v iso_dones 0.99 0.95 1 in
  let raw v := gae.calc_advantages (norm_rewards_of (run v)) v iso_dones 0.99 0.95 in
  gae.done_at iso_dones 0 0 = true
  /\ gae.at2 (returns_of (run iso_values)) 0 0 = gae.at2 (returns_of (run iso_values')) 0 0
  /\ gae.at2 (raw iso_values) 0 0 = gae.at2 (raw iso_values') 0 0.
Proof.
  split; [reflexivity|].
  apply (@terminal_step_isolates_return_and_raw_advantage
           iso_rewards iso_values iso_values' iso_dones 0.99 0.95 1 0 0);
    reflexivity.
Defined.

(** ** numpy slices *)

Section SliceFacts.

Import np.

Variable X : Type.

Lemma overwrite_length (old : list (list X)) a rs :
  a + length rs <= length old -> length (overwrite old a rs) = length old.
Proof.
  intros H. unfold overwrite.
  rewrite !length_app, length_firstn, length_skipn. lia.
Qed.

Lemma overwrite_nth_error (old : list (list X)) a rs i :
  a + length rs <= length old ->
  nth_error (overwrite old a rs) i
  = if i <? a then nth_error old i
    else if i <? a + length rs then nth_error rs (i - a)
         else nth_error old i.
Proof.
  intros H. unfold overwrite.
  assert (Hf : length (firstn a old) = a) by (rewrite length_firstn; lia).
  destruct (i <? a) eqn:E1.
  - apply Nat.ltb_lt in E1.
    rewrite nth_error_app1 by lia. rewrite nth_error_firstn.
    apply Nat.ltb_lt in E1. rewrite E1. reflexivity.
  - apply Nat.ltb_ge in E1.
    rewrite nth_error_app2 by lia. rewrite Hf.
    destruct (i <? a + length rs) eqn:E2.
    + apply Nat.ltb_lt in E2. rewrite nth_error_app1 by lia. reflexivity.
    + apply Nat.ltb_ge in E2. rewrite nth_error_app2 by lia.
      rewrite nth_error_skipn. f_equal. lia.
Qed.

Lemma broadcast_axis_some {Y} (src : list Y) k rs :
  broadcast_axis src k = Some rs ->
  length rs = k /\ (forall y, In y rs -> In y src).
Proof.
  unfold broadcast_axis. destruct (length src =? k) eqn:E.
  - intros [= <-]. apply Nat.eqb_eq in E. split; [exact E|auto].
  - destruct src as [|y [|y' src]]; try discriminate.
    intros [= <-]. split; [apply repeat_length|].
    intros y0 Hy. apply repeat_spec in Hy. left. symmetry. exact Hy.
Qed.

Lemma broadcast_axis_exact {Y} (src : list Y) :
  broadcast_axis src (length src) = Some src.
Proof. unfold broadcast_axis. rewrite Nat.eqb_refl. reflexivity. Qed.

Lemma broadcast_to_some (P : X -> Prop) src k actors rs :
  broadcast_to src k actors = Some rs ->
  clean P src ->
  length rs = k /\ Forall (clean_row P actors) rs.
Proof.
  unfold broadcast_to. destruct (broadcast_axis (rows src) k) as [rs0|] eqn:E; [|discriminate].
  apply broadcast_axis_some in E. destruct E as [Hlen Hin].
  intros H Hc.
  assert (H0 : Forall (clean_row P (shape1 src)) rs0).
  { apply Forall_forall. intros row Hrow.
    unfold clean in Hc. rewrite Forall_forall in Hc. apply Hc, Hin, Hrow. }
  destruct (shape1 src =? actors) eqn:E1.
  - apply Nat.eqb_eq in E1. injection H as <-. rewrite <- E1. split; assumption.
  - destruct (shape1 src =? 1) eqn:E2; [|discriminate].
    apply Nat.eqb_eq in E2. injection H as <-.
    split; [rewrite length_map; exact Hlen|].
    apply Forall_map. eapply Forall_impl; [|exact H0].
    intros row [Hl Hp]. rewrite E2 in Hl.
    destruct row as [|x [|x' row]]; try discriminate Hl.
    cbn [stretch]. split; [apply repeat_length|].
    apply Forall_forall. intros y Hy. apply repeat_spec in Hy. subst y.
    inversion Hp; assumption.
Qed.

(** What a slice assignment that went through has done. *)
Lemma set_slice_ok (P : X -> Prop) dst a b src dst' :
  a <= b ->
  set_slice dst a b src = Ok dst' ->
  clean P src ->
  exists rs,
    dst' = mk_ndarray (shape1 dst) (overwrite (rows dst) (Nat.min a (shape0 dst)) rs)
    /\ length rs = Nat.min b (shape0 dst) - Nat.min a (shape0 dst)
    /\ Forall (clean_row P (shape1 dst)) rs.
Proof.
  intros Hab. unfold set_slice.
  destruct (broadcast_to _ _ _) as [rs|] eqn:E; [|discriminate].
  intros [= <-] Hc.
  destruct (@broadcast_to_some P _ _ _ _ E Hc) as [Hlen Hrs].
  exists rs. unfold overwrite. rewrite Hlen. repeat split; assumption.
Qed.

(** A slice assignment of exactly the shape of the slice goes through. *)
Lemma set_slice_exact (dst : ndarray X) a src :
  a + shape0 src <= shape0 dst ->
  shape1 src = shape1 dst ->
  set_slice dst a (a + shape0 src) src
  = Ok (mk_ndarray (shape1 dst) (overwrite (rows dst) a (rows src))).
Proof.
  intros Hfit Hs. unfold set_slice, broadcast_to.
  rewrite !Nat.min_l by lia.
  replace (a + shape0 src - a) with (length (rows src)) by (unfold shape0; lia).
  rewrite broadcast_axis_exact, Hs, Nat.eqb_refl. reflexivity.
Qed.

End SliceFacts.

(** ** The replay buffer: push *)

Section PushFacts.

Import np.

Variables St Ac Rw Dn : Type.
Variable st0 : St.
Variable ac0 : Ac.
Variable rw0 : Rw.
Variable dn0 : Dn.

Local Abbreviation buffer := (ReplayBuffer.t St Ac Rw Dn).

Lemma field_ok_overwrite {X} (P : X -> Prop) cap actors v v' (d : ndarray X) a b rs :
  a <= b ->
  field_ok P cap actors v (Some d) ->
  length rs = Nat.min b cap - Nat.min a cap ->
  Forall (clean_row P actors) rs ->
  Nat.min a cap <= v ->
  v' <= Nat.max v (Nat.min b cap) ->
  field_ok P cap actors v'
    (Some (mk_ndarray (shape1 d) (overwrite (rows d) (Nat.min a cap) rs))).
Proof.
  intros Hab (d0 & [= <-] & H0 & H1 & Hv) Hlen Hrs Hav Hv'.
  unfold shape0 in H0.
  assert (Hfit : Nat.min a cap + length rs <= length (rows d)) by lia.
  eexists. split; [reflexivity|]. unfold shape0. cbn [rows shape1].
  split; [rewrite overwrite_length by exact Hfit; exact H0|].
  split; [exact H1|].
  intros i row Hi. rewrite overwrite_nth_error by exact Hfit.
  destruct (i <? Nat.min a cap) eqn:E1.
  - apply Nat.ltb_lt in E1. apply Hv. lia.
  - apply Nat.ltb_ge in E1.
    destruct (i <? Nat.min a cap + length rs) eqn:E2.
    + intros Hn. rewrite Forall_forall in Hrs. apply Hrs.
      eapply nth_error_In. exact Hn.
    + apply Nat.ltb_ge in E2. apply Hv. lia.
Qed.

Lemma assign_slice_keeps {X} (P : X -> Prop)
    (get : buffer -> option (ndarray X)) (set : option (ndarray X) -> buffer -> buffer)
    a b src self self' cap actors v v' :
  a <= b ->
  clean P src ->
  field_ok P cap actors v (get self) ->
  ReplayBuffer.assign_slice get set a b src self = (Ok tt, self') ->
  Nat.min a cap <= v ->
  v' <= Nat.max v (Nat.min b cap) ->
  exists d', self' = set (Some d') self /\ field_ok P cap actors v' (Some d').
Proof.
  intros Hab Hc Hf. unfold ReplayBuffer.assign_slice.
  destruct Hf as (d & Hg & H0 & H1 & Hv). rewrite Hg.
  destruct (set_slice d a b src) as [d'|e] eqn:E; [|discriminate].
  intros [= <-] Hav Hv'.
  destruct (@set_slice_ok _ P _ _ _ _ _ Hab E Hc) as (rs & -> & Hlen & Hrs).
  eexists. split; [reflexivity|].
  rewrite H0 in *. rewrite H1 in Hrs.
  apply field_ok_overwrite with (v := v) (b := b); try assumption.
  exists d. split; [reflexivity|]. split; [assumption|]. split; assumption.
Qed.

(** What the entries of the pushed rollouts satisfy. *)
Variable Ps : St -> Prop.
Variable Pa : Ac -> Prop.
Variable Pr : Rw -> Prop.
Variable Pd : Dn -> Prop.

Lemma push_unchecked_keeps actors v v' (self self' : buffer) sts acs rws dns :
  clean Ps sts -> clean Pa acs -> clean Pr rws -> clean Pd dns ->
  fields_ok Ps Pa Pr Pd actors v self ->
  ReplayBuffer._push_unchecked sts acs rws dns self = (Ok tt, self') ->
  Nat.min (ReplayBuffer.index self) (ReplayBuffer.capacity self) <= v ->
  v' <= Nat.max v (Nat.min (ReplayBuffer.index self + shape0 sts) (ReplayBuffer.capacity self)) ->
  fields_ok Ps Pa Pr Pd actors v' self'
  /\ ReplayBuffer.index self' = ReplayBuffer.index self + shape0 sts
  /\ ReplayBuffer.capacity self' = ReplayBuffer.capacity self
  /\ ReplayBuffer.full_loop self' = ReplayBuffer.full_loop self.
Proof.
  intros Cs Ca Cr Cd (Fs & Fa & Fr & Fd) Hrun Hav Hv'.
  destruct self as [cap s a r d idx fl].
  cbn [ReplayBuffer.capacity ReplayBuffer.states ReplayBuffer.actions
       ReplayBuffer.rewards ReplayBuffer.dones ReplayBuffer.index ReplayBuffer.full_loop] in *.
  unfold ReplayBuffer._push_unchecked, Py.bind in Hrun.
  cbn [ReplayBuffer.index] in Hrun.
  assert (Hab : idx <= idx + shape0 sts) by lia.
  destruct (ReplayBuffer.assign_slice _ _ _ _ sts _) as [[[]|e] s1] eqn:E1; [|discriminate].
  destruct (@assign_slice_keeps _ Ps (@ReplayBuffer.states _ _ _ _) (@ReplayBuffer.set_states _ _ _ _)
              _ _ _ (ReplayBuffer.mk cap s a r d idx fl) _ _ _ _ _
              Hab Cs Fs E1 Hav Hv') as (s' & -> & Fs').
  cbn [ReplayBuffer.set_states ReplayBuffer.capacity ReplayBuffer.states ReplayBuffer.actions
       ReplayBuffer.rewards ReplayBuffer.dones ReplayBuffer.index ReplayBuffer.full_loop] in Hrun.
  destruct (ReplayBuffer.assign_slice _ _ _ _ acs _) as [[[]|e] s2] eqn:E2; [|discriminate].
  destruct (@assign_slice_keeps _ Pa (@ReplayBuffer.actions _ _ _ _) (@ReplayBuffer.set_actions _ _ _ _)
              _ _ _ (ReplayBuffer.mk cap (Some s') a r d idx fl) _ _ _ _ _
              Hab Ca Fa E2 Hav Hv') as (a' & -> & Fa').
  cbn [ReplayBuffer.set_actions ReplayBuffer.capacity ReplayBuffer.states ReplayBuffer.actions
       ReplayBuffer.rewards ReplayBuffer.dones ReplayBuffer.index ReplayBuffer.full_loop] in Hrun.
  destruct (ReplayBuffer.assign_slice _ _ _ _ rws _) as [[[]|e] s3] eqn:E3; [|discriminate].
  destruct (@assign_slice_keeps _ Pr (@ReplayBuffer.rewards _ _ _ _) (@ReplayBuffer.set_rewards _ _ _ _)
              _ _ _ (ReplayBuffer.mk cap (Some s') (Some a') r d idx fl) _ _ _ _ _
              Hab Cr Fr E3 Hav Hv') as (r' & -> & Fr').
  cbn [ReplayBuffer.set_rewards ReplayBuffer.capacity ReplayBuffer.states ReplayBuffer.actions
       ReplayBuffer.rewards ReplayBuffer.dones ReplayBuffer.index ReplayBuffer.full_loop] in Hrun.
  destruct (ReplayBuffer.assign_slice _ _ _ _ dns _) as [[[]|e] s4] eqn:E4; [|discriminate].
  destruct (@assign_slice_keeps _ Pd (@ReplayBuffer.dones _ _ _ _) (@ReplayBuffer.set_dones _ _ _ _)
              _ _ _ (ReplayBuffer.mk cap (Some s') (Some a') (Some r') d idx fl) _ _ _ _ _
              Hab Cd Fd E4 Hav Hv') as (d' & -> & Fd').
  unfold Py.modify in Hrun. injection Hrun as <-.
  cbn. repeat split; assumption.
Qed.

Lemma clean_slice_to {X} (P : X -> Prop) n (a : ndarray X) :
  clean P a -> clean P (slice_to n a).
Proof.
  unfold clean, slice_to. cbn [rows shape1]. intros H.
  rewrite <- (firstn_skipn (slice_bound n (shape0 a)) (rows a)) in H.
  apply Forall_app in H. exact (proj1 H).
Qed.

Lemma clean_slice_from {X} (P : X -> Prop) n (a : ndarray X) :
  clean P a -> clean P (slice_from n a).
Proof.
  unfold clean, slice_from. cbn [rows shape1]. intros H.
  rewrite <- (firstn_skipn (slice_bound n (shape0 a)) (rows a)) in H.
  apply Forall_app in H. exact (proj2 H).
Qed.

Lemma push_rows_keeps actors (self self' : buffer) sts acs rws dns :
  clean Ps sts -> clean Pa acs -> clean Pr rws -> clean Pd dns ->
  fields_ok Ps Pa Pr Pd actors (valid self) self ->
  (ReplayBuffer.full_loop self = false ->
   ReplayBuffer.index self <= ReplayBuffer.capacity self) ->
  push_rows sts acs rws dns self = (Ok tt, self') ->
  inv Ps Pa Pr Pd self'.
Proof.
  intros Cs Ca Cr Cd Hf Hidx. unfold push_rows.
  destruct (_ <=? _) eqn:Efit.
  - apply Nat.leb_le in Efit. intros Hrun.
    assert (Hav : Nat.min (ReplayBuffer.index self) (ReplayBuffer.capacity self) <= valid self).
    { unfold valid. destruct (ReplayBuffer.full_loop self); lia. }
    destruct (@push_unchecked_keeps actors (valid self)
                (if ReplayBuffer.full_loop self then ReplayBuffer.capacity self
                 else ReplayBuffer.index self + shape0 sts)
                self self' sts acs rws dns Cs Ca Cr Cd Hf Hrun Hav)
      as (Hf' & Hi' & Hc' & Hl').
    { unfold valid. destruct (ReplayBuffer.full_loop self); lia. }
    right. exists actors. unfold valid. rewrite Hl', Hc', Hi'. split.
    + exact Hf'.
    + intros _. exact Efit.
  - apply Nat.leb_gt in Efit. cbv zeta. unfold Py.bind.
    set (n := (Z.of_nat (ReplayBuffer.capacity self) - Z.of_nat (ReplayBuffer.index self)
               - Z.of_nat (shape0 sts))%Z).
    destruct (ReplayBuffer._push_unchecked (slice_to n sts) _ _ _ self) as [[[]|e] s1] eqn:E1;
      [|discriminate].
    assert (Hav : Nat.min (ReplayBuffer.index self) (ReplayBuffer.capacity self) <= valid self).
    { unfold valid. destruct (ReplayBuffer.full_loop self) eqn:El; [lia|].
      specialize (Hidx eq_refl). lia. }
    destruct (@push_unchecked_keeps actors (valid self) (ReplayBuffer.capacity self)
                self s1 _ _ _ _
                (clean_slice_to n Cs) (clean_slice_to n Ca)
                (clean_slice_to n Cr) (clean_slice_to n Cd) Hf E1 Hav)
      as (Hf1 & Hi1 & Hc1 & Hl1).
    { unfold valid. destruct (ReplayBuffer.full_loop self) eqn:El; [lia|].
      specialize (Hidx eq_refl).
      unfold shape0, slice_to, slice_bound. cbn [rows].
      assert (Hn : (n <? 0)%Z = true) by (apply Z.ltb_lt; unfold n; lia).
      rewrite Hn, length_firstn. unfold shape0 in *. unfold n. lia. }
    unfold Py.modify.
    destruct (ReplayBuffer._push_unchecked (slice_from n sts) _ _ _ _) as [[[]|e] s2] eqn:E2;
      [|discriminate].
    intros [= <-].
    assert (Hf1' : fields_ok Ps Pa Pr Pd actors (ReplayBuffer.capacity self) (ReplayBuffer.set_index 0 s1)).
    { unfold fields_ok in *. destruct s1; cbn in *. exact Hf1. }
    destruct (@push_unchecked_keeps actors (ReplayBuffer.capacity self) (ReplayBuffer.capacity self)
                (ReplayBuffer.set_index 0 s1) s2 _ _ _ _
                (clean_slice_from n Cs) (clean_slice_from n Ca)
                (clean_slice_from n Cr) (clean_slice_from n Cd) Hf1' E2)
      as (Hf2 & Hi2 & Hc2 & Hl2).
    { destruct s1; cbn. lia. }
    { lia. }
    right. exists actors.
    assert (Hcap : ReplayBuffer.capacity s2 = ReplayBuffer.capacity self).
    { rewrite Hc2. destruct s1; cbn in *. exact Hc1. }
    split.
    + rewrite <- Hcap in Hf2. unfold valid, fields_ok in *. destruct s2; cbn in *. exact Hf2.
    + destruct s2; cbn. discriminate.
Qed.

Lemma push_keeps_inv (self self' : buffer) sts acs rws dns :
  inv Ps Pa Pr Pd self ->
  clean Ps sts -> clean Pa acs -> clean Pr rws -> clean Pd dns ->
  ReplayBuffer.push st0 ac0 rw0 dn0 sts acs rws dns self = (Ok tt, self') ->
  inv Ps Pa Pr Pd self'.
Proof.
  intros Hinv Cs Ca Cr Cd.
  change (ReplayBuffer.push st0 ac0 rw0 dn0 sts acs rws dns self)
    with (Py.bind (Py.assert (ReplayBuffer.same_shape2 rws dns))
            (fun _ => Py.bind (Py.assert (ReplayBuffer.same_shape2 rws sts
                                          && ReplayBuffer.same_shape2 rws acs))
            (fun _ => Py.bind
               (fun self : buffer =>
                  match ReplayBuffer.states self with
                  | None =>
                      let actors := shape1 sts in
                      let alloc {X} (zero : X) :=
                        Some (mk_ndarray actors
                                (repeat (repeat zero actors) (ReplayBuffer.capacity self))) in
                      (Ok tt, ReplayBuffer.mk (ReplayBuffer.capacity self)
                                (alloc st0) (alloc ac0) (alloc rw0) (alloc dn0)
                                (ReplayBuffer.index self) (ReplayBuffer.full_loop self))
                  | Some _ => (Ok tt, self)
                  end)
               (fun _ => push_rows sts acs rws dns))) self).
  unfold Py.bind, Py.assert.
  destruct (ReplayBuffer.same_shape2 rws dns); [|discriminate].
  destruct (_ && _); [|discriminate].
  cbn [Py.ret].
  destruct (ReplayBuffer.states self) as [d|] eqn:Es.
  - destruct Hinv as [(Hn & _)|(actors & Hf & Hi)]; [congruence|].
    apply push_rows_keeps with (actors := actors); assumption.
  - destruct Hinv as [(_ & Hi & Hl)|(actors & ((d & Hd & _) & _) & _)]; [|congruence].
    cbv zeta. apply push_rows_keeps with (actors := shape1 sts); try assumption.
    + unfold valid, fields_ok. cbn. rewrite Hl, Hi.
      repeat apply conj;
        (eexists; split; [reflexivity|]; unfold shape0; cbn [rows shape1];
         rewrite repeat_length; split; [reflexivity|]; split; [reflexivity|];
         intros i row Hlt; lia).
    + cbn. intros _. lia.
Qed.

Lemma reachable_inv self : reachable st0 ac0 rw0 dn0 Ps Pa Pr Pd self -> inv Ps Pa Pr Pd self.
Proof.
  induction 1 as [cap|self self' sts acs rws dns _ IH Cs Ca Cr Cd Hrun].
  - left. repeat split.
  - eapply push_keeps_inv; eassumption.
Qed.

Lemma fits_put {X} cap actors L a (d src : ndarray X) :
  fits cap actors L d src -> a + L <= cap ->
  shape0 (put d a src) = cap /\ shape1 (put d a src) = actors.
Proof.
  intros (H0 & H1 & H2 & H3) Ha. unfold put, shape0 in *. cbn [rows shape1].
  split; [|exact H1]. rewrite overwrite_length; lia.
Qed.

Lemma assign_slice_exact {X}
    (get : buffer -> option (ndarray X)) (set : option (ndarray X) -> buffer -> buffer)
    cap actors L a (d src : ndarray X) self :
  get self = Some d ->
  fits cap actors L d src -> a + L <= cap ->
  ReplayBuffer.assign_slice get set a (a + L) src self
  = (Ok tt, set (Some (put d a src)) self).
Proof.
  intros Hg (H0 & H1 & H2 & H3) Ha. unfold ReplayBuffer.assign_slice. rewrite Hg.
  rewrite <- H2. rewrite set_slice_exact by lia. reflexivity.
Qed.

Lemma push_unchecked_exact cap actors (ds : ndarray St) (da : ndarray Ac)
    (dr : ndarray Rw) (dd : ndarray Dn) idx fl sts acs rws dns :
  fits cap actors (shape0 sts) ds sts ->
  fits cap actors (shape0 sts) da acs ->
  fits cap actors (shape0 sts) dr rws ->
  fits cap actors (shape0 sts) dd dns ->
  idx + shape0 sts <= cap ->
  ReplayBuffer._push_unchecked sts acs rws dns
    (ReplayBuffer.mk cap (Some ds) (Some da) (Some dr) (Some dd) idx fl)
  = (Ok tt, ReplayBuffer.mk cap (Some (put ds idx sts)) (Some (put da idx acs))
                            (Some (put dr idx rws)) (Some (put dd idx dns))
                            (idx + shape0 sts) fl).
Proof.
  intros Fs Fa Fr Fd Hfit.
  unfold ReplayBuffer._push_unchecked, Py.bind. cbn [ReplayBuffer.index].
  erewrite (@assign_slice_exact _ (@ReplayBuffer.states _ _ _ _));
    [|reflexivity|exact Fs|exact Hfit].
  cbn [ReplayBuffer.set_states ReplayBuffer.capacity ReplayBuffer.states ReplayBuffer.actions
       ReplayBuffer.rewards ReplayBuffer.dones ReplayBuffer.index ReplayBuffer.full_loop].
  erewrite (@assign_slice_exact _ (@ReplayBuffer.actions _ _ _ _));
    [|reflexivity|exact Fa|exact Hfit].
  cbn [ReplayBuffer.set_actions ReplayBuffer.capacity ReplayBuffer.states ReplayBuffer.actions
       ReplayBuffer.rewards ReplayBuffer.dones ReplayBuffer.index ReplayBuffer.full_loop].
  erewrite (@assign_slice_exact _ (@ReplayBuffer.rewards _ _ _ _));
    [|reflexivity|exact Fr|exact Hfit].
  cbn [ReplayBuffer.set_rewards ReplayBuffer.capacity ReplayBuffer.states ReplayBuffer.actions
       ReplayBuffer.rewards ReplayBuffer.dones ReplayBuffer.index ReplayBuffer.full_loop].
  erewrite (@assign_slice_exact _ (@ReplayBuffer.dones _ _ _ _));
    [|reflexivity|exact Fd|exact Hfit].
  reflexivity.
Qed.

Lemma fits_slice_to {X} cap actors L idx (d src : ndarray X) :
  fits cap actors L d src -> idx <= cap -> cap < idx + L ->
  fits cap actors (cap - idx) d
       (slice_to (Z.of_nat cap - Z.of_nat idx - Z.of_nat L) src).
Proof.
  intros (H0 & H1 & H2 & H3) Hi Hw. unfold fits, slice_to, slice_bound, shape0 in *.
  cbn [rows shape1]. repeat split; try assumption.
  assert (Hn : (Z.of_nat cap - Z.of_nat idx - Z.of_nat L <? 0)%Z = true)
    by (apply Z.ltb_lt; lia).
  rewrite Hn, length_firstn. lia.
Qed.

Lemma fits_slice_from {X} cap actors L idx (d d1 src : ndarray X) :
  fits cap actors L d src -> idx <= cap -> cap < idx + L ->
  shape0 d1 = cap -> shape1 d1 = actors ->
  fits cap actors (L - (cap - idx)) d1
       (slice_from (Z.of_nat cap - Z.of_nat idx - Z.of_nat L) src).
Proof.
  intros (H0 & H1 & H2 & H3) Hi Hw H4 H5. unfold fits, slice_from, slice_bound, shape0 in *.
  cbn [rows shape1]. repeat split; try assumption.
  assert (Hn : (Z.of_nat cap - Z.of_nat idx - Z.of_nat L <? 0)%Z = true)
    by (apply Z.ltb_lt; lia).
  rewrite Hn, length_skipn. lia.
Qed.

Lemma put_put_wrapped {X} cap actors L idx (d src : ndarray X) :
  fits cap actors L d src -> idx <= cap -> L <= cap -> cap < idx + L ->
  let n := (Z.of_nat cap - Z.of_nat idx - Z.of_nat L)%Z in
  put (put d idx (slice_to n src)) 0 (slice_from n src) = wrapped cap idx d src.
Proof.
  intros (H0 & H1 & H2 & H3) Hi HL Hw n. unfold put, wrapped, overwrite.
  unfold slice_to, slice_from, slice_bound, shape0 in *. cbn [rows shape1].
  assert (Hn : (n <? 0)%Z = true) by (apply Z.ltb_lt; unfold n; lia).
  rewrite Hn.
  replace (Z.to_nat (Z.of_nat (length (rows src)) + n)) with (cap - idx) by (unfold n; lia).
  f_equal. cbn [firstn app Nat.add].
  rewrite length_firstn, length_skipn.
  rewrite (@skipn_all2 _ (idx + Init.Nat.min (cap - idx) (length (rows src))) (rows d)) by lia.
  rewrite app_nil_r.
  f_equal.
  rewrite skipn_app, length_firstn.
  replace (length (rows src) - (cap - idx) - Nat.min idx (length (rows d))) with 0 by lia.
  rewrite H2. reflexivity.
Qed.

(** C4.  A rollout of L rows, 0 < L <= capacity, pushed into an allocated
    buffer whose write index idx leaves less than L rows: the push succeeds;
    the first capacity - idx rows of the rollout end up in the rows idx to
    capacity - 1, the other L - (capacity - idx) rows in the rows from 0 on,
    the rows between keep what they held, the write index is
    L - (capacity - idx), and full_loop is true. *)
Theorem push_wraps_at_capacity cap actors (ds : ndarray St) (da : ndarray Ac)
    (dr : ndarray Rw) (dd : ndarray Dn) idx fl sts acs rws dns :
  fits cap actors (shape0 sts) ds sts ->
  fits cap actors (shape0 sts) da acs ->
  fits cap actors (shape0 sts) dr rws ->
  fits cap actors (shape0 sts) dd dns ->
  0 < shape0 sts <= cap ->
  idx <= cap ->
  cap < idx + shape0 sts ->
  ReplayBuffer.push st0 ac0 rw0 dn0 sts acs rws dns
    (ReplayBuffer.mk cap (Some ds) (Some da) (Some dr) (Some dd) idx fl)
  = (Ok tt,
     ReplayBuffer.mk cap (Some (wrapped cap idx ds sts)) (Some (wrapped cap idx da acs))
                     (Some (wrapped cap idx dr rws)) (Some (wrapped cap idx dd dns))
                     (shape0 sts - (cap - idx)) true).
Proof.
  intros Fs Fa Fr Fd [_ HL] Hi Hw.
  pose proof Fs as (Hs0 & Hs1 & _ & Hs3).
  pose proof Fa as (Ha0 & Ha1 & Ha2 & Ha3).
  pose proof Fr as (Hr0 & Hr1 & Hr2 & Hr3).
  pose proof Fd as (Hd0 & Hd1 & Hd2 & Hd3).
  unfold ReplayBuffer.push, Py.bind, Py.assert, ReplayBuffer.same_shape2.
  rewrite Hr2, Hd2, Ha2, Hr3, Hd3, Hs3, Ha3, !Nat.eqb_refl.
  cbn [andb Py.ret ReplayBuffer.states ReplayBuffer.index ReplayBuffer.capacity].
  assert (Efit : (idx + shape0 sts <=? cap) = false) by (apply Nat.leb_gt; exact Hw).
  rewrite Efit.
  set (n := (Z.of_nat cap - Z.of_nat idx - Z.of_nat (shape0 sts))%Z).
  pose proof (fits_slice_to Fs Hi Hw) as Fs1.
  pose proof (fits_slice_to Fa Hi Hw) as Fa1.
  pose proof (fits_slice_to Fr Hi Hw) as Fr1.
  pose proof (fits_slice_to Fd Hi Hw) as Fd1.
  fold n in Fs1, Fa1, Fr1, Fd1.
  assert (Hc1 : shape0 (slice_to n sts) = cap - idx) by apply Fs1.
  rewrite <- Hc1 in Fs1, Fa1, Fr1, Fd1.
  rewrite (push_unchecked_exact idx fl Fs1 Fa1 Fr1 Fd1) by lia.
  unfold Py.modify, ReplayBuffer.set_index.
  cbn [ReplayBuffer.capacity ReplayBuffer.states
    ReplayBuffer.actions ReplayBuffer.rewards ReplayBuffer.dones ReplayBuffer.full_loop].
  rewrite Hc1 in Fs1, Fa1, Fr1, Fd1.
  assert (Hput : forall X (d src : ndarray X),
             fits cap actors (cap - idx) d (slice_to n src) ->
             shape0 (put d idx (slice_to n src)) = cap
             /\ shape1 (put d idx (slice_to n src)) = actors).
  { intros X d src F. apply (fits_put idx F). lia. }
  pose proof (@fits_slice_from _ cap actors (shape0 sts) idx ds (put ds idx (slice_to n sts)) sts
                Fs Hi Hw (proj1 (Hput _ _ _ Fs1)) (proj2 (Hput _ _ _ Fs1))) as Fs2.
  pose proof (@fits_slice_from _ cap actors (shape0 sts) idx da (put da idx (slice_to n acs)) acs
                Fa Hi Hw (proj1 (Hput _ _ _ Fa1)) (proj2 (Hput _ _ _ Fa1))) as Fa2.
  pose proof (@fits_slice_from _ cap actors (shape0 sts) idx dr (put dr idx (slice_to n rws)) rws
                Fr Hi Hw (proj1 (Hput _ _ _ Fr1)) (proj2 (Hput _ _ _ Fr1))) as Fr2.
  pose proof (@fits_slice_from _ cap actors (shape0 sts) idx dd (put dd idx (slice_to n dns)) dns
                Fd Hi Hw (proj1 (Hput _ _ _ Fd1)) (proj2 (Hput _ _ _ Fd1))) as Fd2.
  fold n in Fs2, Fa2, Fr2, Fd2.
  assert (Hc2 : shape0 (slice_from n sts) = shape0 sts - (cap - idx)) by apply Fs2.
  rewrite <- Hc2 in Fs2, Fa2, Fr2, Fd2.
  rewrite (push_unchecked_exact 0 fl Fs2 Fa2 Fr2 Fd2) by lia.
  unfold ReplayBuffer.set_full_loop.
  cbn [ReplayBuffer.capacity ReplayBuffer.states
    ReplayBuffer.actions ReplayBuffer.rewards ReplayBuffer.dones ReplayBuffer.index
    ReplayBuffer.full_loop].
  unfold n.
  rewrite (put_put_wrapped Fs Hi HL Hw).
  rewrite (put_put_wrapped Fa Hi HL Hw).
  rewrite (put_put_wrapped Fr Hi HL Hw).
  rewrite (put_put_wrapped Fd Hi HL Hw).
  fold n. rewrite Hc2. reflexivity.
Qed.

End PushFacts.

(** ** The replay buffer: sample *)

Section SampleFacts.

Import np.

Variables St Ac Rw Dn : Type.
Variable st0 : St.
Variable ac0 : Ac.
Variable rw0 : Rw.
Variable dn0 : Dn.

Local Abbreviation buffer := (ReplayBuffer.t St Ac Rw Dn).
Local Abbreviation P := (ReplayBuffer.P St Ac Rw Dn).
Local Abbreviation pbind := (@ReplayBuffer.pbind St Ac Rw Dn).

Declare Scope ppo_scope.
Delimit Scope ppo_scope with ppo.
Local Notation "x <~ m ;; k" := (ReplayBuffer.pbind m (fun x => k))
  (at level 61, m at next level, right associativity) : ppo_scope.

(** *** Running the statements of a body *)

Lemma pbind_attr_some {A B} (f : buffer -> option A) (k : A -> P B) self a :
  f self = Some a ->
  pbind (ReplayBuffer.attr f) k self = k a self.
Proof.
  intros H. unfold ReplayBuffer.pbind, ReplayBuffer.attr. rewrite H.
  cbn [flat_map]. apply app_nil_r.
Qed.

Lemma pbind_attr_none {A B} (f : buffer -> option A) (k : A -> P B) self :
  f self = None ->
  pbind (ReplayBuffer.attr f) k self = [(Raise AttributeError, self)].
Proof.
  intros H. unfold ReplayBuffer.pbind, ReplayBuffer.attr. rewrite H. reflexivity.
Qed.

Lemma pbind_read {A B} (f : buffer -> A) (k : A -> P B) self :
  pbind (ReplayBuffer.read f) k self = k (f self) self.
Proof.
  unfold ReplayBuffer.pbind, ReplayBuffer.read. cbn [flat_map]. apply app_nil_r.
Qed.

Lemma pbind_lift_ok {A B} (a : A) (k : A -> P B) self :
  pbind (ReplayBuffer.lift (Ok a)) k self = k a self.
Proof.
  unfold ReplayBuffer.pbind, ReplayBuffer.lift. cbn [flat_map]. apply app_nil_r.
Qed.

Lemma pbind_lift_raise {A B} e (k : A -> P B) self :
  pbind (ReplayBuffer.lift (Raise e)) k self = [(Raise e, self)].
Proof. reflexivity. Qed.

Lemma pbind_draw {B} high (k : Z -> P B) self :
  (0 < high)%Z ->
  pbind (ReplayBuffer.draw high) k self
  = flat_map (fun i => k (Z.of_nat i) self) (seq 0 (Z.to_nat high)).
Proof.
  intros H. unfold ReplayBuffer.pbind, ReplayBuffer.draw, randint.
  assert (E : (high <=? 0)%Z = false) by (apply Z.leb_gt; exact H).
  rewrite E. rewrite map_map, flat_map_concat_map, map_map, <- flat_map_concat_map.
  reflexivity.
Qed.

Lemma pbind_draw_raise {B} high (k : Z -> P B) self :
  (high <= 0)%Z ->
  pbind (ReplayBuffer.draw high) k self = [(Raise ValueError, self)].
Proof.
  intros H. unfold ReplayBuffer.pbind, ReplayBuffer.draw, randint.
  assert (E : (high <=? 0)%Z = true) by (apply Z.leb_le; exact H).
  rewrite E. reflexivity.
Qed.

(** *** Runs that all raise *)

Lemma raises_one {A} (self : buffer) e : raises (A := A) self [(Raise e, self)].
Proof.
  split; [discriminate|]. constructor; [|constructor]. exists e. reflexivity.
Qed.

Lemma raises_flat_map {A X} self (g : X -> list (result A * buffer)) (l : list X) :
  l <> [] -> (forall x, In x l -> raises self (g x)) -> raises self (flat_map g l).
Proof.
  intros Hl Hg. split.
  - destruct l as [|x l]; [contradiction|]. cbn [flat_map].
    destruct (Hg x (or_introl eq_refl)) as [Hne _].
    destruct (g x); [contradiction|discriminate].
  - apply Forall_flat_map. apply Forall_forall. intros x Hx. apply (Hg x Hx).
Qed.

Lemma raises_pbind {A B} self (m : P A) (k : A -> P B) :
  raises self (m self) -> raises self (pbind m k self).
Proof.
  intros [Hne Hall]. unfold ReplayBuffer.pbind.
  apply raises_flat_map; [exact Hne|].
  intros run Hrun. rewrite Forall_forall in Hall.
  destruct (Hall run Hrun) as (e & ->). apply raises_one.
Qed.

Lemma seq_nonempty a n : 0 < n -> seq a n <> [].
Proof. destruct n; [lia|discriminate]. Qed.

Lemma sample_step_raises horizon ri out (self : buffer) :
  (Z.of_nat (valid self) <= horizon)%Z
  \/ (forall sts, ReplayBuffer.states self = Some sts -> shape1 sts = 0) ->
  raises self (ReplayBuffer.sample_step horizon ri out self).
Proof.
  intros Hv. unfold ReplayBuffer.sample_step.
  destruct (ReplayBuffer.states self) as [sts|] eqn:Es.
  2:{ erewrite pbind_attr_none by exact Es. apply raises_one. }
  erewrite pbind_attr_some by exact Es.
  destruct (Z.of_nat (shape1 sts)) as [|p|p] eqn:Ea.
  1,3: rewrite pbind_draw_raise by lia; apply raises_one.
  destruct Hv as [Hv|Hv]; [|specialize (Hv sts eq_refl); lia].
  rewrite pbind_draw by lia.
  apply raises_flat_map; [apply seq_nonempty; lia|].
  intros i _. rewrite !pbind_read.
  rewrite pbind_draw_raise; [apply raises_one|].
  unfold valid in Hv. lia.
Qed.

(** C10.  With at least one rollout asked for and a horizon that is not
    below the number of valid rows (capacity once wrapped, write index
    before), [sample] has runs, and each of them ends with an exception and
    leaves the buffer, its arrays, its write index and its full_loop flag,
    as it was. *)
Theorem sample_raises_without_enough_rows (self : buffer) (rollouts horizon : Z) :
  (1 <= rollouts)%Z ->
  (Z.of_nat (valid self) <= horizon)%Z ->
  let runs := ReplayBuffer.sample st0 ac0 rw0 dn0 rollouts horizon self in
  runs <> []
  /\ forall r self', In (r, self') runs -> (exists e, r = Raise e) /\ self' = self.
Proof.
  intros Hr Hv runs.
  assert (H : raises self runs).
  { subst runs. unfold ReplayBuffer.sample.
    destruct (ReplayBuffer.states self) as [sts|] eqn:Es.
    2:{ erewrite pbind_attr_none by exact Es. apply raises_one. }
    erewrite pbind_attr_some by exact Es.
    destruct (zeros st0 horizon rollouts) as [s|e]; [|apply raises_one].
    rewrite pbind_lift_ok.
    destruct (ReplayBuffer.actions self) as [acs|] eqn:Ea.
    2:{ erewrite pbind_attr_none by exact Ea. apply raises_one. }
    erewrite pbind_attr_some by exact Ea.
    destruct (zeros ac0 horizon rollouts) as [a|e]; [|apply raises_one].
    rewrite pbind_lift_ok.
    destruct (ReplayBuffer.rewards self) as [rws|] eqn:Er.
    2:{ erewrite pbind_attr_none by exact Er. apply raises_one. }
    erewrite pbind_attr_some by exact Er.
    destruct (zeros rw0 horizon rollouts) as [r|e]; [|apply raises_one].
    rewrite pbind_lift_ok.
    destruct (ReplayBuffer.dones self) as [dns|] eqn:Ed.
    2:{ erewrite pbind_attr_none by exact Ed. apply raises_one. }
    erewrite pbind_attr_some by exact Ed.
    destruct (zeros dn0 horizon rollouts) as [d|e]; [|apply raises_one].
    rewrite pbind_lift_ok.
    destruct (Z.to_nat rollouts) as [|n] eqn:En; [lia|].
    cbn [seq ReplayBuffer.sample_loop].
    apply raises_pbind. apply sample_step_raises. left. exact Hv. }
  destruct H as [Hne Hall]. split; [exact Hne|].
  intros r self' Hin. rewrite Forall_forall in Hall.
  destruct (Hall _ Hin) as (e & [= -> ->]). split; [exists e|]; reflexivity.
Qed.

(** *** Windows and columns *)

Lemma column_ok {X} r (l : list (list X)) :
  Forall (fun row => r < length row) l ->
  exists w,
    column r l = Ok w /\ length w = length l
    /\ forall j, nth_error w j
                 = match nth_error l j with
                   | Some row => nth_error row r
                   | None => None
                   end.
Proof.
  induction 1 as [|row l Hrow _ (w & Hw & Hlen & Hnth)].
  - exists []. repeat split. intros [|j]; reflexivity.
  - destruct (nth_error row r) as [x|] eqn:Ex.
    2:{ apply nth_error_None in Ex. lia. }
    exists (x :: w). cbn [column]. rewrite Ex, Hw. repeat split.
    + cbn [length]. lia.
    + intros [|j]; cbn [nth_error]; [symmetry; exact Ex|apply Hnth].
Qed.

Lemma nth_error_window {Y} (l : list Y) h len j :
  j < len -> nth_error (firstn len (skipn h l)) j = nth_error l (h + j).
Proof.
  intros Hj. rewrite nth_error_firstn.
  apply Nat.ltb_lt in Hj. rewrite Hj. apply nth_error_skipn.
Qed.

Lemma get_window_ok {X} (d : ndarray X) h len r V A :
  shape1 d = A -> r < A -> h + len <= V -> V <= shape0 d ->
  (forall i row, i < V -> nth_error (rows d) i = Some row -> length row = A) ->
  exists w,
    get_window d h (h + len) r = Ok w /\ length w = len
    /\ forall j, j < len -> nth_error w j = entry d (h + j) r.
Proof.
  intros HA Hr Hfit HV Hrows. unfold get_window.
  rewrite !Nat.min_l by lia.
  replace (h + len - h) with len by lia.
  assert (E : (r <? shape1 d) = true) by (apply Nat.ltb_lt; lia).
  rewrite E.
  destruct (@column_ok X r (firstn len (skipn h (rows d)))) as (w & Hw & Hlen & Hnth).
  { apply Forall_forall. intros row Hin.
    apply In_nth_error in Hin. destruct Hin as (j & Hj).
    assert (Hjl : j < len).
    { assert (Hb : j < length (firstn len (skipn h (rows d))))
        by (apply nth_error_Some; congruence).
      rewrite length_firstn in Hb. lia. }
    rewrite nth_error_window in Hj by exact Hjl.
    rewrite (Hrows (h + j) row) by (assumption || lia). exact Hr. }
  exists w. split; [exact Hw|]. split.
  - rewrite Hlen, length_firstn, length_skipn. unfold shape0 in HV. lia.
  - intros j Hj. rewrite Hnth, nth_error_window by exact Hj. reflexivity.
Qed.

Lemma set_nth_length {X} i (x : X) row : length (set_nth i x row) = length row.
Proof.
  unfold set_nth. destruct (i <? length row) eqn:E; [|reflexivity].
  apply Nat.ltb_lt in E.
  rewrite length_app, length_firstn. cbn [length]. rewrite length_skipn. lia.
Qed.

Lemma set_nth_nth_error {X} i (x : X) row c :
  i < length row ->
  nth_error (set_nth i x row) c = if c =? i then Some x else nth_error row c.
Proof.
  intros Hi. unfold set_nth.
  assert (E : (i <? length row) = true) by (apply Nat.ltb_lt; exact Hi). rewrite E.
  assert (Hf : length (firstn i row) = i) by (rewrite length_firstn; lia).
  destruct (c =? i) eqn:Ec.
  - apply Nat.eqb_eq in Ec. subst c.
    rewrite nth_error_app2 by lia. rewrite Hf, Nat.sub_diag. reflexivity.
  - apply Nat.eqb_neq in Ec.
    destruct (Nat.lt_ge_cases c i) as [Hlt|Hge].
    + rewrite nth_error_app1 by lia. rewrite nth_error_firstn.
      apply Nat.ltb_lt in Hlt. rewrite Hlt. reflexivity.
    + rewrite nth_error_app2 by lia. rewrite Hf.
      destruct (c - i) as [|k] eqn:Ek; [lia|]. cbn [nth_error].
      rewrite nth_error_skipn. f_equal. lia.
Qed.

Lemma set_column_rows_length {X} i (col : list X) rs :
  length (set_column_rows i col rs) = length rs.
Proof.
  revert col. induction rs as [|row rs IH]; intros [|x col]; cbn; auto.
Qed.

Lemma set_column_rows_nth_error {X} i (col : list X) rs j :
  nth_error (set_column_rows i col rs) j
  = match nth_error rs j with
    | Some row =>
        match nth_error col j with
        | Some x => Some (set_nth i x row)
        | None => Some row
        end
    | None => None
    end.
Proof.
  revert col j. induction rs as [|row rs IH]; intros col j.
  - destruct col; destruct j; reflexivity.
  - destruct col as [|x col].
    + cbn [set_column_rows]. destruct (nth_error (row :: rs) j); destruct j; reflexivity.
    + destruct j as [|j]; cbn [set_column_rows nth_error]; [reflexivity|apply IH].
Qed.

Lemma zeros_out_ok {X} (zero : X) horizon rollouts a :
  zeros zero horizon rollouts = Ok a ->
  (0 <= horizon)%Z /\ (0 <= rollouts)%Z
  /\ out_ok (Z.to_nat rollouts) (Z.to_nat horizon) a.
Proof.
  unfold zeros. destruct ((horizon <? 0)%Z || (rollouts <? 0)%Z) eqn:E; [discriminate|].
  apply orb_false_elim in E. destruct E as [E1 E2].
  apply Z.ltb_ge in E1, E2. intros [= <-].
  split; [exact E1|]. split; [exact E2|].
  unfold out_ok, shape0. cbn [rows shape1]. rewrite repeat_length.
  repeat split. apply Forall_forall. intros row Hrow.
  apply repeat_spec in Hrow. subst row. apply repeat_length.
Qed.

(** What [dst[:, ri] = w] does to an output array. *)
Lemma set_column_ok {X} n len (dst : ndarray X) ri w :
  out_ok n len dst -> ri < n -> length w = len ->
  exists dst',
    set_column dst ri w = Ok dst' /\ out_ok n len dst'
    /\ forall j c, entry dst' j c = if c =? ri then nth_error w j else entry dst j c.
Proof.
  intros (H1 & H0 & Hrows) Hri Hw. unfold set_column.
  assert (E : (ri <? shape1 dst) = true) by (apply Nat.ltb_lt; lia). rewrite E.
  rewrite <- Hw in H0. rewrite H0, broadcast_axis_exact.
  eexists. split; [reflexivity|]. split.
  - unfold out_ok, shape0 in *. cbn [rows shape1].
    rewrite set_column_rows_length. repeat split; try assumption; try lia.
    apply Forall_forall. intros row Hin.
    apply In_nth_error in Hin. destruct Hin as (j & Hj).
    rewrite set_column_rows_nth_error in Hj.
    rewrite Forall_forall in Hrows.
    destruct (nth_error (rows dst) j) as [row0|] eqn:E0; [|discriminate].
    pose proof (Hrows row0 (nth_error_In _ _ E0)) as Hl.
    destruct (nth_error w j); injection Hj as <-; [rewrite set_nth_length|]; exact Hl.
  - intros j c. unfold entry. cbn [rows]. rewrite set_column_rows_nth_error.
    rewrite Forall_forall in Hrows. unfold shape0 in H0.
    destruct (nth_error (rows dst) j) as [row0|] eqn:E0.
    + pose proof (Hrows row0 (nth_error_In _ _ E0)) as Hl.
      destruct (nth_error w j) as [x|] eqn:Ex.
      * rewrite set_nth_nth_error by lia. reflexivity.
      * apply nth_error_None in Ex.
        assert (j < length (rows dst)) by (apply nth_error_Some; congruence). lia.
    + apply nth_error_None in E0.
      destruct (c =? ri); [|reflexivity].
      symmetry. apply nth_error_None. lia.
Qed.

(** *** One copy, one turn of the loop *)

Lemma field_copy_run {X} (Q : X -> Prop) (get : buffer -> option (ndarray X))
    cap A V n (dst : ndarray X) ri r h horizon self :
  field_ok Q cap A V (get self) -> V <= cap ->
  (0 <= horizon)%Z ->
  r < A -> h + Z.to_nat horizon <= V ->
  out_ok n (Z.to_nat horizon) dst -> ri < n ->
  let dst' := field_copy (get self) dst ri r h (Z.to_nat horizon) in
  ReplayBuffer.copy_window get dst ri (Z.of_nat r) (Z.of_nat h) horizon self
  = [(Ok dst', self)]
  /\ out_ok n (Z.to_nat horizon) dst'
  /\ column_copied (get self) dst dst' ri r h (Z.to_nat horizon).
Proof.
  intros (d & Hg & H0 & H1 & Hrows) HV Hh Hr Hfit Hout Hri dst'.
  unfold ReplayBuffer.copy_window.
  erewrite pbind_attr_some by exact Hg.
  rewrite Z2Nat.inj_add, !Nat2Z.id by lia.
  destruct (@get_window_ok X d h (Z.to_nat horizon) r V A H1 Hr Hfit)
    as (w & Hw & Hlen & Hnth).
  { lia. }
  { intros i row Hi Hrow. apply (Hrows i row Hi Hrow). }
  destruct (@set_column_ok X n (Z.to_nat horizon) dst ri w Hout Hri Hlen)
    as (x & Hx & Hok & Hent).
  assert (Hd : dst' = x).
  { unfold dst', field_copy, copy_of. rewrite Hg, Hw, Hx. reflexivity. }
  rewrite Hw, pbind_lift_ok, Hx, Hd. split; [reflexivity|]. split; [exact Hok|].
  intros j c. rewrite Hent. destruct (c =? ri); [|reflexivity].
  unfold stored. rewrite Hg.
  destruct (j <? Z.to_nat horizon) eqn:Ej.
  - apply Nat.ltb_lt in Ej. apply Hnth, Ej.
  - apply Nat.ltb_ge in Ej. apply nth_error_None. lia.
Qed.

Lemma stored_written {X} (Q : X -> Prop) cap A V (f : option (ndarray X)) t c :
  field_ok Q cap A V f -> V <= cap -> t < V -> c < A ->
  exists x, stored f t c = Some x /\ Q x.
Proof.
  intros (d & -> & H0 & H1 & Hrows) HV Ht Hc. unfold stored, entry.
  destruct (nth_error (rows d) t) as [row|] eqn:E.
  2:{ apply nth_error_None in E. unfold shape0 in H0. lia. }
  destruct (Hrows t row Ht E) as [Hl HQ].
  destruct (nth_error row c) as [x|] eqn:Ex.
  2:{ apply nth_error_None in Ex. lia. }
  exists x. split; [reflexivity|].
  rewrite Forall_forall in HQ. apply HQ. eapply nth_error_In. exact Ex.
Qed.

Variable Ps : St -> Prop.
Variable Pa : Ac -> Prop.
Variable Pr : Rw -> Prop.
Variable Pd : Dn -> Prop.

Local Abbreviation batch := (ReplayBuffer.batch St Ac Rw Dn).

Lemma flat_map_singletons {X Y} (g : X -> list Y) (f : X -> Y) (l : list X) :
  (forall x, In x l -> g x = [f x]) -> flat_map g l = map f l.
Proof.
  induction l as [|x l IH]; intros H; [reflexivity|].
  cbn [flat_map map]. rewrite (H x (or_introl eq_refl)), IH; [reflexivity|].
  intros y Hy. apply H. right. exact Hy.
Qed.

Lemma flat_map_ext_in {X Y} (g g' : X -> list Y) (l : list X) :
  (forall x, In x l -> g x = g' x) -> flat_map g l = flat_map g' l.
Proof.
  induction l as [|x l IH]; intros H; [reflexivity|].
  cbn [flat_map]. rewrite (H x (or_introl eq_refl)), IH; [reflexivity|].
  intros y Hy. apply H. right. exact Hy.
Qed.

Lemma pbind_one {A B} (m : P A) (k : A -> P B) self a :
  m self = [(Ok a, self)] -> pbind m k self = k a self.
Proof.
  intros H. unfold ReplayBuffer.pbind. rewrite H. cbn [flat_map]. apply app_nil_r.
Qed.

Section Step.

Variable self : buffer.
Variables A n : nat.
Variable horizon : Z.

Hypothesis Hfields : fields_ok Ps Pa Pr Pd A (valid self) self.
Hypothesis Hvalid : valid self <= ReplayBuffer.capacity self.
Hypothesis Hhorizon : (0 <= horizon)%Z.

Lemma step_of_ok out ri r h :
  batch_ok n (Z.to_nat horizon) out -> ri < n ->
  r < A -> h + Z.to_nat horizon <= valid self ->
  (s <~ ReplayBuffer.copy_window (@ReplayBuffer.states _ _ _ _)
          (ReplayBuffer.b_states out) ri (Z.of_nat r) (Z.of_nat h) horizon ;;
   a <~ ReplayBuffer.copy_window (@ReplayBuffer.actions _ _ _ _)
          (ReplayBuffer.b_actions out) ri (Z.of_nat r) (Z.of_nat h) horizon ;;
   r' <~ ReplayBuffer.copy_window (@ReplayBuffer.rewards _ _ _ _)
          (ReplayBuffer.b_rewards out) ri (Z.of_nat r) (Z.of_nat h) horizon ;;
   d <~ ReplayBuffer.copy_window (@ReplayBuffer.dones _ _ _ _)
          (ReplayBuffer.b_dones out) ri (Z.of_nat r) (Z.of_nat h) horizon ;;
   ReplayBuffer.pret (ReplayBuffer.mk_batch s a r' d))%ppo self
  = [(Ok (step_of self out ri r h (Z.to_nat horizon)), self)]
  /\ batch_ok n (Z.to_nat horizon) (step_of self out ri r h (Z.to_nat horizon))
  /\ window_copied self out (step_of self out ri r h (Z.to_nat horizon))
                   ri r h (Z.to_nat horizon).
Proof.
  intros (Os & Oa & Or & Od) Hri Hr Hfit.
  destruct Hfields as (Fs & Fa & Fr & Fd).
  destruct (@field_copy_run _ Ps (@ReplayBuffer.states _ _ _ _) _ A (valid self) n
              (ReplayBuffer.b_states out) ri r h horizon self Fs Hvalid Hhorizon Hr Hfit Os Hri)
    as (Rs & Ks & Cs).
  destruct (@field_copy_run _ Pa (@ReplayBuffer.actions _ _ _ _) _ A (valid self) n
              (ReplayBuffer.b_actions out) ri r h horizon self Fa Hvalid Hhorizon Hr Hfit Oa Hri)
    as (Ra & Ka & Ca).
  destruct (@field_copy_run _ Pr (@ReplayBuffer.rewards _ _ _ _) _ A (valid self) n
              (ReplayBuffer.b_rewards out) ri r h horizon self Fr Hvalid Hhorizon Hr Hfit Or Hri)
    as (Rr & Kr & Cr).
  destruct (@field_copy_run _ Pd (@ReplayBuffer.dones _ _ _ _) _ A (valid self) n
              (ReplayBuffer.b_dones out) ri r h horizon self Fd Hvalid Hhorizon Hr Hfit Od Hri)
    as (Rd & Kd & Cd).
  split; [|split].
  - erewrite pbind_one by exact Rs. erewrite pbind_one by exact Ra.
    erewrite pbind_one by exact Rr. erewrite pbind_one by exact Rd.
    reflexivity.
  - unfold batch_ok, step_of. cbn [ReplayBuffer.b_states ReplayBuffer.b_actions
      ReplayBuffer.b_rewards ReplayBuffer.b_dones].
    split; [exact Ks|]. split; [exact Ka|]. split; [exact Kr|exact Kd].
  - unfold window_copied, step_of. cbn [ReplayBuffer.b_states ReplayBuffer.b_actions
      ReplayBuffer.b_rewards ReplayBuffer.b_dones].
    split; [exact Cs|]. split; [exact Ca|]. split; [exact Cr|exact Cd].
Qed.

(** With actors to draw from and more valid rows than the horizon, the
    runs of one turn are the copies for the pairs (actor, start), each pair
    of [0, actors) x [0, valid - horizon) once. *)
Lemma sample_step_runs out ri :
  batch_ok n (Z.to_nat horizon) out -> ri < n ->
  0 < A -> Z.to_nat horizon < valid self ->
  ReplayBuffer.sample_step horizon ri out self
  = flat_map (fun r =>
                map (fun h => (Ok (step_of self out ri r h (Z.to_nat horizon)), self))
                    (seq 0 (valid self - Z.to_nat horizon)))
             (seq 0 A).
Proof.
  intros Hout Hri HA HV.
  pose proof Hfields as ((ds & Hs & _ & HsA & _) & _).
  unfold ReplayBuffer.sample_step.
  erewrite pbind_attr_some by exact Hs.
  rewrite pbind_draw by lia. rewrite Nat2Z.id, HsA.
  apply flat_map_ext_in. intros r Hr. apply in_seq in Hr.
  rewrite !pbind_read.
  fold (valid self).
  rewrite pbind_draw by lia.
  replace (Z.to_nat (Z.of_nat (valid self) - horizon))
    with (valid self - Z.to_nat horizon) by lia.
  apply flat_map_singletons. intros h Hh. apply in_seq in Hh.
  apply step_of_ok; (assumption || lia).
Qed.

Lemma window_copied_drawn out out' ri r h len :
  window_copied self out out' ri r h len -> drawn_window self out' ri r h len.
Proof.
  intros (Cs & Ca & Cr & Cd) j Hj. apply Nat.ltb_lt in Hj.
  rewrite (Cs j ri), (Ca j ri), (Cr j ri), (Cd j ri), Nat.eqb_refl, Hj.
  repeat split.
Qed.

Lemma window_copied_same out out' ri r h len c :
  window_copied self out out' ri r h len -> c <> ri -> same_column out out' c.
Proof.
  intros (Cs & Ca & Cr & Cd) Hc j. apply Nat.eqb_neq in Hc.
  rewrite (Cs j c), (Ca j c), (Cr j c), (Cd j c), Hc.
  repeat split.
Qed.

Lemma sample_loop_runs :
  0 < A -> Z.to_nat horizon < valid self ->
  forall ris out,
    batch_ok n (Z.to_nat horizon) out ->
    (forall ri, In ri ris -> ri < n) ->
    forall res s',
      In (res, s') (ReplayBuffer.sample_loop horizon ris out self) ->
      s' = self
      /\ exists out',
           res = Ok out'
           /\ batch_ok n (Z.to_nat horizon) out'
           /\ (forall c, In c ris ->
                 exists r h, r < A /\ h + Z.to_nat horizon < valid self
                             /\ drawn_window self out' c r h (Z.to_nat horizon))
           /\ (forall c, ~ In c ris -> same_column out out' c).
Proof.
  intros HA HV ris. induction ris as [|ri ris IH]; intros out Hout Hris res s' Hin.
  - cbn in Hin. destruct Hin as [[= <- <-]|[]].
    split; [reflexivity|]. exists out. split; [reflexivity|]. split; [exact Hout|].
    split; [intros c []|]. intros c _ j. repeat split.
  - cbn [ReplayBuffer.sample_loop] in Hin. unfold ReplayBuffer.pbind in Hin.
    apply in_flat_map in Hin. destruct Hin as (run & Hrun & Hin).
    assert (Hri : ri < n) by (apply Hris; left; reflexivity).
    rewrite (sample_step_runs Hout Hri HA HV) in Hrun.
    apply in_flat_map in Hrun. destruct Hrun as (r & Hr & Hrun).
    apply in_map_iff in Hrun. destruct Hrun as (h & <- & Hh).
    apply in_seq in Hr, Hh.
    destruct (@step_of_ok out ri r h Hout Hri) as (_ & Hout1 & Hcopy); [lia|lia|].
    destruct (IH _ Hout1 (fun c Hc => Hris c (or_intror Hc)) res s' Hin)
      as (-> & out' & -> & Hout' & Hgood & Hsame).
    split; [reflexivity|]. exists out'. split; [reflexivity|]. split; [exact Hout'|].
    split.
    + intros c Hc.
      destruct (in_dec Nat.eq_dec c ris) as [Hc'|Hc']; [apply Hgood, Hc'|].
      destruct Hc as [<-|Hc]; [|contradiction].
      exists r, h. split; [lia|]. split; [lia|].
      intros j Hj.
      destruct (Hsame ri Hc' j) as (Es & Ea & Er & Ed).
      destruct (window_copied_drawn Hcopy Hj) as (Ws & Wa & Wr & Wd).
      rewrite Es, Ea, Er, Ed. repeat split; assumption.
    + intros c Hc j.
      assert (Hne : c <> ri) by (intros ->; apply Hc; left; reflexivity).
      assert (Hc' : ~ In c ris) by (intros H; apply Hc; right; exact H).
      destruct (Hsame c Hc' j) as (Es & Ea & Er & Ed).
      destruct (window_copied_same Hcopy Hne j) as (Ws & Wa & Wr & Wd).
      rewrite Es, Ea, Er, Ed. repeat split; assumption.
Qed.

End Step.

Lemma not_raises_ok {A} self (runs : list (result A * buffer)) a s' :
  raises self runs -> ~ In (Ok a, s') runs.
Proof.
  intros [_ Hall] Hin. rewrite Forall_forall in Hall.
  destruct (Hall _ Hin) as (e & [=]).
Qed.

(** C5.  Take a buffer built by pushes of rollouts whose entries satisfy
    the predicates Ps, Pa, Pr, Pd (the zeros of a new array need not), and
    let V be capacity once the buffer has wrapped and the write index
    before.  (1) Every run of [sample(rollouts, horizon)] that returns
    leaves the buffer as it was, and every column ri of its four output
    arrays is one window: there are an actor r below the actor count and a
    start h below V - horizon, so that h + horizon <= write index as long as
    full_loop is false, such that row j of the column is row h + j of actor r
    of the stored array, an entry that was pushed.  (2) In each turn of the
    loop the runs are one per pair (r, h) of [0, actors) x [0, V - horizon),
    in order, and the run of (r, h) copies the window of actor r from row
    h: the actor and the start are drawn uniformly over these ranges. *)
Theorem sample_copies_written_windows (self : buffer) (rollouts horizon : Z) :
  reachable st0 ac0 rw0 dn0 Ps Pa Pr Pd self ->
  let V := valid self in
  (forall out self',
      In (Ok out, self') (ReplayBuffer.sample st0 ac0 rw0 dn0 rollouts horizon self) ->
      self' = self
      /\ forall ri, (Z.of_nat ri < rollouts)%Z ->
           exists r h,
             (exists sts, ReplayBuffer.states self = Some sts /\ r < shape1 sts)
             /\ (Z.of_nat h < Z.of_nat V - horizon)%Z
             /\ (ReplayBuffer.full_loop self = false ->
                 (Z.of_nat h + horizon <= Z.of_nat (ReplayBuffer.index self))%Z)
             /\ drawn_window self out ri r h (Z.to_nat horizon)
             /\ forall j, (Z.of_nat j < horizon)%Z ->
                  (exists x, stored (ReplayBuffer.states self) (h + j) r = Some x /\ Ps x)
                  /\ (exists x, stored (ReplayBuffer.actions self) (h + j) r = Some x /\ Pa x)
                  /\ (exists x, stored (ReplayBuffer.rewards self) (h + j) r = Some x /\ Pr x)
                  /\ (exists x, stored (ReplayBuffer.dones self) (h + j) r = Some x /\ Pd x))
  /\ (forall sts n out0 ri,
        ReplayBuffer.states self = Some sts ->
        batch_ok n (Z.to_nat horizon) out0 -> ri < n ->
        0 < shape1 sts -> (0 <= horizon < Z.of_nat V)%Z ->
        exists f : nat -> nat -> batch,
          ReplayBuffer.sample_step horizon ri out0 self
          = flat_map (fun r => map (fun h => (Ok (f r h), self))
                                   (seq 0 (Z.to_nat (Z.of_nat V - horizon))))
                     (seq 0 (shape1 sts))
          /\ forall r h, r < shape1 sts -> (Z.of_nat h < Z.of_nat V - horizon)%Z ->
               drawn_window self (f r h) ri r h (Z.to_nat horizon)).
Proof.
  intros Hreach V. apply reachable_inv in Hreach.
  destruct Hreach as [(Hnone & _)|(A & Hf & Hidx)].
  { split.
    - intros out self' Hin. unfold ReplayBuffer.sample in Hin.
      erewrite pbind_attr_none in Hin by exact Hnone.
      destruct Hin as [[=]|[]].
    - intros sts n out0 ri Hs. congruence. }
  assert (HV : V <= ReplayBuffer.capacity self).
  { unfold V, valid. destruct (ReplayBuffer.full_loop self); [lia|]. apply Hidx. reflexivity. }
  pose proof Hf as ((ds & Hs & _ & HsA & _) & (da & Ha & _) & (dr & Hr & _) & (dd & Hd & _)).
  split.
  - intros out self' Hin. unfold ReplayBuffer.sample in Hin.
    erewrite pbind_attr_some in Hin by exact Hs.
    destruct (zeros st0 horizon rollouts) as [zs|e] eqn:Zs; [|destruct Hin as [[=]|[]]].
    rewrite pbind_lift_ok in Hin. erewrite pbind_attr_some in Hin by exact Ha.
    destruct (zeros ac0 horizon rollouts) as [za|e] eqn:Za; [|destruct Hin as [[=]|[]]].
    rewrite pbind_lift_ok in Hin. erewrite pbind_attr_some in Hin by exact Hr.
    destruct (zeros rw0 horizon rollouts) as [zr|e] eqn:Zr; [|destruct Hin as [[=]|[]]].
    rewrite pbind_lift_ok in Hin. erewrite pbind_attr_some in Hin by exact Hd.
    destruct (zeros dn0 horizon rollouts) as [zd|e] eqn:Zd; [|destruct Hin as [[=]|[]]].
    rewrite pbind_lift_ok in Hin.
    destruct (zeros_out_ok _ _ _ Zs) as (Hh & Hro & Os).
    destruct (zeros_out_ok _ _ _ Za) as (_ & _ & Oa).
    destruct (zeros_out_ok _ _ _ Zr) as (_ & _ & Or).
    destruct (zeros_out_ok _ _ _ Zd) as (_ & _ & Od).
    assert (Hout : batch_ok (Z.to_nat rollouts) (Z.to_nat horizon)
                     (ReplayBuffer.mk_batch zs za zr zd)).
    { repeat split; (apply Os || apply Oa || apply Or || apply Od). }
    destruct (Z.to_nat rollouts) as [|m] eqn:Em.
    { cbn in Hin. destruct Hin as [[= <- <-]|[]]. split; [reflexivity|]. intros ri Hri. lia. }
    destruct (Nat.eq_dec A 0) as [HA0|HA0].
    { exfalso. cbn [seq ReplayBuffer.sample_loop] in Hin.
      eapply not_raises_ok; [|exact Hin].
      apply raises_pbind. apply sample_step_raises.
      right. intros sts Hsts. congruence. }
    destruct (Z_le_gt_dec (Z.of_nat V) horizon) as [Hle|Hgt].
    { exfalso. cbn [seq ReplayBuffer.sample_loop] in Hin.
      eapply not_raises_ok; [|exact Hin].
      apply raises_pbind. apply sample_step_raises.
      left. exact Hle. }
    rewrite <- Em in Hin, Hout.
    destruct (@sample_loop_runs self A (Z.to_nat rollouts) horizon Hf HV Hh
                ltac:(lia) ltac:(unfold V in *; lia)
                (seq 0 (Z.to_nat rollouts)) _ Hout
                (fun ri Hri => proj2 (proj1 (in_seq _ _ _) Hri)) _ _ Hin)
      as (-> & out' & [= <-] & _ & Hgood & _).
    split; [reflexivity|]. intros ri Hri.
    destruct (Hgood ri) as (r & h & HrA & Hfit & Hwin).
    { apply in_seq. lia. }
    exists r, h. split; [exists ds; split; [exact Hs|lia]|].
    split; [unfold V; lia|]. split.
    { intros Hfl. unfold V, valid in Hfit. rewrite Hfl in Hfit. lia. }
    split; [exact Hwin|].
    intros j Hj.
    assert (Hjn : j < Z.to_nat horizon) by lia.
    destruct Hf as (Fs & Fa & Fr & Fd).
    split; [|split; [|split]];
      eapply stored_written; try eassumption; (fold V; lia) || lia.
  - intros sts n out0 ri Hsts Hout Hri HA [Hh HhV].
    assert (Hsts' : sts = ds) by congruence. subst sts.
    exists (fun r h => step_of self out0 ri r h (Z.to_nat horizon)).
    split.
    + rewrite (@sample_step_runs self A n horizon Hf HV Hh out0 ri Hout Hri)
        by (unfold V in *; lia).
      rewrite HsA.
      replace (Z.to_nat (Z.of_nat V - horizon)) with (valid self - Z.to_nat horizon)
        by (unfold V; lia).
      reflexivity.
    + intros r h Hr' Hh'.
      destruct (@step_of_ok self A n horizon Hf HV Hh out0 ri r h Hout Hri)
        as (_ & _ & Hcopy); [lia|unfold V in *; lia|].
      apply (window_copied_drawn Hcopy).
Qed.

End SampleFacts.

(** ** The replay buffer on small inputs *)

(** C1.  Capacity 4, two pushes of three steps each: both pushes succeed,
    six steps were pushed, full_loop is true, the arrays hold the last four
    steps, and [__len__] returns the write index 2, not the capacity 4. *)
Theorem len_after_wrap_is_write_index :
  fst (push_numbers [1; 2; 3] (ReplayBuffer.__init__ nat nat nat nat 4)) = Ok tt
  /\ fst (push_numbers [4; 5; 6] three_of_four) = Ok tt
  /\ ReplayBuffer.full_loop six_of_four = true
  /\ ReplayBuffer.capacity six_of_four = 4
  /\ ReplayBuffer.states six_of_four = Some (np.mk_ndarray 1 [[5]; [6]; [3]; [4]])
  /\ ReplayBuffer.index six_of_four = 2
  /\ ReplayBuffer.__len__ six_of_four = 2.
Proof. repeat split. Qed.

Lemma push_wraps_at_capacity_witness :
  let ds := np.mk_ndarray 1 [[1]; [2]; [3]; [0]] in
  ReplayBuffer.push 0 0 0 0 (rollout [4; 5; 6]) (rollout [4; 5; 6])
                    (rollout [4; 5; 6]) (rollout [4; 5; 6])
    (ReplayBuffer.mk 4 (Some ds) (Some ds) (Some ds) (Some ds) 3 false)
  = (Ok tt,
     ReplayBuffer.mk 4
       (Some (wrapped 4 3 ds (rollout [4; 5; 6]))) (Some (wrapped 4 3 ds (rollout [4; 5; 6])))
       (Some (wrapped 4 3 ds (rollout [4; 5; 6]))) (Some (wrapped 4 3 ds (rollout [4; 5; 6])))
       (np.shape0 (rollout [4; 5; 6]) - (4 - 3)) true).
Proof.
  intros ds.
  apply (@push_wraps_at_capacity nat nat nat nat 0 0 0 0 4 1 ds ds ds ds 3 false
           (rollout [4; 5; 6]) (rollout [4; 5; 6]) (rollout [4; 5; 6]) (rollout [4; 5; 6]));
    try (repeat split; reflexivity); cbn; lia.
Defined.

Lemma rollout_clean (l : list nat) : Forall pushed l -> clean pushed (rollout l).
Proof.
  intros H. unfold clean, rollout. cbn [np.rows np.shape1].
  apply Forall_map. eapply Forall_impl; [|exact H].
  intros x Hx. split; [reflexivity|]. constructor; [exact Hx|constructor].
Qed.

Lemma three_of_four_reachable :
  reachable 0 0 0 0 pushed pushed pushed pushed three_of_four.
Proof.
  assert (C : clean pushed (rollout [1; 2; 3])).
  { apply rollout_clean. repeat constructor; discriminate. }
  exact (reach_push (reach_init 0 0 0 0 pushed pushed pushed pushed 4) C C C C eq_refl).
Qed.

Lemma sample_raises_without_enough_rows_witness :
  let runs := ReplayBuffer.sample 0 0 0 0 1 3 three_of_four in
  (1 <= 1)%Z
  /\ (Z.of_nat (valid three_of_four) <= 3)%Z
  /\ runs <> []
  /\ forall r self', In (r, self') runs -> (exists e, r = Raise e) /\ self' = three_of_four.
Proof.
  intros runs.
  assert (H1 : (1 <= 1)%Z) by lia.
  assert (H2 : (Z.of_nat (valid three_of_four) <= 3)%Z) by (cbn; lia).
  split; [exact H1|]. split; [exact H2|].
  exact (@sample_raises_without_enough_rows nat nat nat nat 0 0 0 0 three_of_four 1 3 H1 H2).
Defined.

Lemma sample_copies_written_windows_witness :
  reachable 0 0 0 0 pushed pushed pushed pushed three_of_four
  /\ forall out self',
       In (Ok out, self') (ReplayBuffer.sample 0 0 0 0 2 1 three_of_four) ->
       self' = three_of_four
       /\ forall ri, (Z.of_nat ri < 2)%Z ->
            exists r h,
              (exists sts, ReplayBuffer.states three_of_four = Some sts /\ r < np.shape1 sts)
              /\ (Z.of_nat h < Z.of_nat (valid three_of_four) - 1)%Z
              /\ (ReplayBuffer.full_loop three_of_four = false ->
                  (Z.of_nat h + 1 <= Z.of_nat (ReplayBuffer.index three_of_four))%Z)
              /\ drawn_window three_of_four out ri r h (Z.to_nat 1)
              /\ forall j, (Z.of_nat j < 1)%Z ->
                   (exists x, stored (ReplayBuffer.states three_of_four) (h + j) r = Some x
                              /\ pushed x)
                   /\ (exists x, stored (ReplayBuffer.actions three_of_four) (h + j) r = Some x
                                 /\ pushed x)
                   /\ (exists x, stored (ReplayBuffer.rewards three_of_four) (h + j) r = Some x
                                 /\ pushed x)
                   /\ (exists x, stored (ReplayBuffer.dones three_of_four) (h + j) r = Some x
                                 /\ pushed x).
Proof.
  split; [exact three_of_four_reachable|].
  exact (proj1 (@sample_copies_written_windows nat nat nat nat 0 0 0 0
                  pushed pushed pushed pushed three_of_four 2 1 three_of_four_reachable)).
Defined.

(** The four runs of [sample(2, 1)] on that buffer: the starts 0 and 1 for
    each of the two columns. *)
Example sample_two_of_three :
  map (fun run => option_map (@np.rows nat)
                    (match fst run with
                     | Ok out => Some (ReplayBuffer.b_states out)
                     | Raise _ => None
                     end))
      (ReplayBuffer.sample 0 0 0 0 2 1 three_of_four)
  = [Some [[1; 1]]; Some [[1; 2]]; Some [[2; 1]]; Some [[2; 2]]].
Proof. reflexivity. Qed.

(** * More properties of the code *)

(** ** More on the replay buffer: push *)

Section PushSequenceFacts.

Import np.

Variables St Ac Rw Dn : Type.
Variable st0 : St.
Variable ac0 : Ac.
Variable rw0 : Rw.
Variable dn0 : Dn.

Local Abbreviation buffer := (ReplayBuffer.t St Ac Rw Dn).

Lemma push_fits_exact cap actors (ds : ndarray St) (da : ndarray Ac)
    (dr : ndarray Rw) (dd : ndarray Dn) idx fl sts acs rws dns :
  fits cap actors (shape0 sts) ds sts ->
  fits cap actors (shape0 sts) da acs ->
  fits cap actors (shape0 sts) dr rws ->
  fits cap actors (shape0 sts) dd dns ->
  idx + shape0 sts <= cap ->
  ReplayBuffer.push st0 ac0 rw0 dn0 sts acs rws dns
    (ReplayBuffer.mk cap (Some ds) (Some da) (Some dr) (Some dd) idx fl)
  = (Ok tt,
     ReplayBuffer.mk cap (Some (put ds idx sts)) (Some (put da idx acs))
                     (Some (put dr idx rws)) (Some (put dd idx dns))
                     (idx + shape0 sts) fl).
Proof.
  intros Fs Fa Fr Fd Hfit.
  pose proof Fs as (_ & _ & _ & Hs3).
  pose proof Fa as (_ & _ & Ha2 & Ha3).
  pose proof Fr as (_ & _ & Hr2 & Hr3).
  pose proof Fd as (_ & _ & Hd2 & Hd3).
  unfold ReplayBuffer.push, Py.bind, Py.assert, ReplayBuffer.same_shape2.
  rewrite Hr2, Hd2, Ha2, Hr3, Hd3, Hs3, Ha3, !Nat.eqb_refl.
  cbn [andb Py.ret ReplayBuffer.states ReplayBuffer.index ReplayBuffer.capacity].
  assert (E : (idx + shape0 sts <=? cap) = true) by (apply Nat.leb_le; exact Hfit).
  rewrite E. apply (push_unchecked_exact idx fl Fs Fa Fr Fd Hfit).
Qed.

(** X1.  A rollout that fits below the capacity is written from the write
    index on: the push succeeds, each array gets the rows of the rollout in
    the rows idx to idx + L - 1 and keeps its other rows, the write index
    moves by L and full_loop stays as it was. *)
Theorem push_below_capacity_appends cap actors (ds : ndarray St) (da : ndarray Ac)
    (dr : ndarray Rw) (dd : ndarray Dn) idx fl sts acs rws dns :
  fits cap actors (shape0 sts) ds sts ->
  fits cap actors (shape0 sts) da acs ->
  fits cap actors (shape0 sts) dr rws ->
  fits cap actors (shape0 sts) dd dns ->
  idx + shape0 sts <= cap ->
  let self' := snd (ReplayBuffer.push st0 ac0 rw0 dn0 sts acs rws dns
                      (ReplayBuffer.mk cap (Some ds) (Some da) (Some dr) (Some dd) idx fl)) in
  fst (ReplayBuffer.push st0 ac0 rw0 dn0 sts acs rws dns
         (ReplayBuffer.mk cap (Some ds) (Some da) (Some dr) (Some dd) idx fl)) = Ok tt
  /\ ReplayBuffer.index self' = idx + shape0 sts
  /\ ReplayBuffer.full_loop self' = fl
  /\ ReplayBuffer.capacity self' = cap
  /\ (forall i c, stored (ReplayBuffer.states self') i c
                  = if (idx <=? i) && (i <? idx + shape0 sts)
                    then entry sts (i - idx) c else entry ds i c)
  /\ (forall i c, stored (ReplayBuffer.actions self') i c
                  = if (idx <=? i) && (i <? idx + shape0 sts)
                    then entry acs (i - idx) c else entry da i c)
  /\ (forall i c, stored (ReplayBuffer.rewards self') i c
                  = if (idx <=? i) && (i <? idx + shape0 sts)
                    then entry rws (i - idx) c else entry dr i c)
  /\ (forall i c, stored (ReplayBuffer.dones self') i c
                  = if (idx <=? i) && (i <? idx + shape0 sts)
                    then entry dns (i - idx) c else entry dd i c).
Proof.
  intros Fs Fa Fr Fd Hfit self'.
  subst self'. rewrite (push_fits_exact idx fl Fs Fa Fr Fd Hfit). cbn [fst snd].
  cbn [ReplayBuffer.index ReplayBuffer.full_loop ReplayBuffer.capacity
       ReplayBuffer.states ReplayBuffer.actions ReplayBuffer.rewards ReplayBuffer.dones].
  assert (Hrow : forall X (d src : ndarray X) i c,
             fits cap actors (shape0 sts) d src ->
             stored (Some (put d idx src)) i c
             = if (idx <=? i) && (i <? idx + shape0 sts)
               then entry src (i - idx) c else entry d i c).
  { intros X d src i c (H0 & _ & H2 & _). unfold stored, entry, put. cbn [rows].
    unfold shape0 in *.
    rewrite overwrite_nth_error by lia. rewrite H2.
    destruct (i <? idx) eqn:E1.
    - apply Nat.ltb_lt in E1.
      assert (E : (idx <=? i) = false) by (apply Nat.leb_gt; lia). rewrite E. reflexivity.
    - apply Nat.ltb_ge in E1.
      assert (E : (idx <=? i) = true) by (apply Nat.leb_le; lia). rewrite E.
      cbn [andb]. destruct (i <? idx + length (rows sts)); reflexivity. }
  repeat split; intros i c; apply Hrow; assumption.
Qed.

(** X2.  When the shapes of the four arrays of a rollout do not agree,
    [push] ends with AssertionError before it touches the buffer: nothing is
    allocated and nothing is written. *)
Theorem push_refuses_mismatched_shapes (self : buffer) sts acs rws dns :
  ReplayBuffer.same_shape2 rws dns = false
  \/ ReplayBuffer.same_shape2 rws sts = false
  \/ ReplayBuffer.same_shape2 rws acs = false ->
  ReplayBuffer.push st0 ac0 rw0 dn0 sts acs rws dns self = (Raise AssertionError, self).
Proof.
  intros H. unfold ReplayBuffer.push, Py.bind, Py.assert.
  destruct (ReplayBuffer.same_shape2 rws dns); [|reflexivity].
  destruct H as [H|[H|H]]; [discriminate| |]; rewrite H;
    [|rewrite andb_false_r]; reflexivity.
Qed.

Lemma skipn_repeat {X} (x : X) n m : skipn n (repeat x m) = repeat x (m - n).
Proof.
  revert m. induction n as [|n IH]; intros m.
  - rewrite Nat.sub_0_r. reflexivity.
  - destruct m as [|m]; [reflexivity|]. cbn [repeat skipn Nat.sub]. apply IH.
Qed.

Lemma filled_shape {X} (zero : X) cap actors (pre : list (list X)) :
  length pre <= cap ->
  shape0 (filled zero cap actors pre) = cap /\ shape1 (filled zero cap actors pre) = actors.
Proof.
  intros H. unfold filled, shape0. cbn [rows shape1].
  rewrite length_app, repeat_length. split; [lia|reflexivity].
Qed.

Lemma put_filled {X} (zero : X) cap actors (pre : list (list X)) (src : ndarray X) :
  length pre + shape0 src <= cap ->
  put (filled zero cap actors pre) (length pre) src
  = filled zero cap actors (pre ++ rows src).
Proof.
  intros H. unfold put, filled, overwrite, shape0 in *. cbn [rows shape1]. f_equal.
  rewrite firstn_app, Nat.sub_diag, firstn_all. cbn [firstn]. rewrite app_nil_r.
  rewrite skipn_app, skipn_all2 by lia. cbn [app].
  rewrite skipn_repeat, <- app_assoc, length_app. do 3 f_equal. lia.
Qed.

Lemma filled_nil {X} (zero : X) cap actors :
  filled zero cap actors [] = mk_ndarray actors (repeat (repeat zero actors) cap).
Proof. unfold filled. cbn [app length]. rewrite Nat.sub_0_r. reflexivity. Qed.

Lemma first_push_exact cap actors (r : rollout4 St Ac Rw Dn) :
  well_shaped actors r ->
  shape0 (r_states r) <= cap ->
  push_rollout st0 ac0 rw0 dn0 r (ReplayBuffer.__init__ St Ac Rw Dn cap)
  = (Ok tt,
     ReplayBuffer.mk cap
       (Some (filled st0 cap actors (rows (r_states r))))
       (Some (filled ac0 cap actors (rows (r_actions r))))
       (Some (filled rw0 cap actors (rows (r_rewards r))))
       (Some (filled dn0 cap actors (rows (r_dones r))))
       (shape0 (r_states r)) false).
Proof.
  intros ((_ & Hs1) & (Ha0 & Ha1) & (Hr0 & Hr1) & (Hd0 & Hd1)) HL.
  unfold push_rollout, ReplayBuffer.push, Py.bind, Py.assert, ReplayBuffer.same_shape2.
  rewrite Hr0, Hd0, Ha0, Hr1, Hd1, Hs1, Ha1, !Nat.eqb_refl.
  cbn [andb Py.ret ReplayBuffer.__init__ ReplayBuffer.states ReplayBuffer.index
       ReplayBuffer.capacity ReplayBuffer.full_loop Nat.add].
  assert (E : (shape0 (r_states r) <=? cap) = true) by (apply Nat.leb_le; exact HL).
  rewrite E.
  rewrite <- (filled_nil st0 cap actors), <- (filled_nil ac0 cap actors),
    <- (filled_nil rw0 cap actors), <- (filled_nil dn0 cap actors).
  assert (F : forall X (zero : X) (src : ndarray X),
             shape0 src = shape0 (r_states r) -> shape1 src = actors ->
             fits cap actors (shape0 (r_states r)) (filled zero cap actors []) src).
  { intros X zero src H0 H1.
    destruct (@filled_shape X zero cap actors [] (Nat.le_0_l cap)) as [F0 F1].
    repeat split; assumption. }
  rewrite (push_unchecked_exact 0 false
             (F _ st0 _ eq_refl Hs1) (F _ ac0 _ Ha0 Ha1)
             (F _ rw0 _ Hr0 Hr1) (F _ dn0 _ Hd0 Hd1)) by lia.
  cbn [Nat.add].
  pose proof (@put_filled _ st0 cap actors [] (r_states r)) as Pst0.
  cbn [length app Nat.add] in Pst0. rewrite Pst0 by lia.
  pose proof (@put_filled _ ac0 cap actors [] (r_actions r)) as Pac0.
  cbn [length app Nat.add] in Pac0. rewrite Pac0 by lia.
  pose proof (@put_filled _ rw0 cap actors [] (r_rewards r)) as Prw0.
  cbn [length app Nat.add] in Prw0. rewrite Prw0 by lia.
  pose proof (@put_filled _ dn0 cap actors [] (r_dones r)) as Pdn0.
  cbn [length app Nat.add] in Pdn0. rewrite Pdn0 by lia.
  reflexivity.
Qed.

Lemma total_steps_cons (r : rollout4 St Ac Rw Dn) rs :
  total_steps (r :: rs) = shape0 (r_states r) + total_steps rs.
Proof. reflexivity. Qed.

Lemma all_rows_cons {X} (field : rollout4 St Ac Rw Dn -> ndarray X) r rs :
  all_rows field (r :: rs) = rows (field r) ++ all_rows field rs.
Proof. reflexivity. Qed.

Lemma push_each_from cap actors (rs : list (rollout4 St Ac Rw Dn)) :
  Forall (well_shaped actors) rs ->
  forall pre_s pre_a pre_r pre_d len,
    length pre_s = len -> length pre_a = len -> length pre_r = len -> length pre_d = len ->
    len + total_steps rs <= cap ->
    push_each st0 ac0 rw0 dn0 rs
      (ReplayBuffer.mk cap
         (Some (filled st0 cap actors pre_s)) (Some (filled ac0 cap actors pre_a))
         (Some (filled rw0 cap actors pre_r)) (Some (filled dn0 cap actors pre_d))
         len false)
    = (Ok tt,
       ReplayBuffer.mk cap
         (Some (filled st0 cap actors (pre_s ++ all_rows (@r_states _ _ _ _) rs)))
         (Some (filled ac0 cap actors (pre_a ++ all_rows (@r_actions _ _ _ _) rs)))
         (Some (filled rw0 cap actors (pre_r ++ all_rows (@r_rewards _ _ _ _) rs)))
         (Some (filled dn0 cap actors (pre_d ++ all_rows (@r_dones _ _ _ _) rs)))
         (len + total_steps rs) false).
Proof.
  induction 1 as [|r rs Hr _ IH]; intros pre_s pre_a pre_r pre_d len Ls La Lr Ld Hfit.
  - unfold all_rows, total_steps. cbn. rewrite !app_nil_r, Nat.add_0_r. reflexivity.
  - rewrite total_steps_cons in Hfit.
    unfold push_each. cbn [Py.for_each]. unfold Py.bind, push_rollout at 1.
    destruct Hr as ((_ & Hs1) & (Ha0 & Ha1) & (Hr0 & Hr1) & (Hd0 & Hd1)).
    assert (F : forall X (zero : X) pre (src : ndarray X),
               length pre = len ->
               shape0 src = shape0 (r_states r) -> shape1 src = actors ->
               fits cap actors (shape0 (r_states r)) (filled zero cap actors pre) src).
    { intros X zero pre src Hp H0 H1.
      destruct (@filled_shape X zero cap actors pre ltac:(lia)) as [F0 F1].
      repeat split; assumption. }
    rewrite (push_fits_exact len false
               (F _ st0 _ _ Ls eq_refl Hs1) (F _ ac0 _ _ La Ha0 Ha1)
               (F _ rw0 _ _ Lr Hr0 Hr1) (F _ dn0 _ _ Ld Hd0 Hd1)) by lia.
    rewrite <- Ls at 1. rewrite put_filled by (unfold shape0 in *; lia).
    rewrite <- La at 1. rewrite put_filled by (unfold shape0 in *; lia).
    rewrite <- Lr at 1. rewrite put_filled by (unfold shape0 in *; lia).
    rewrite <- Ld at 1. rewrite put_filled by (unfold shape0 in *; lia).
    fold (push_each st0 ac0 rw0 dn0 rs).
    rewrite (IH _ _ _ _ (len + shape0 (r_states r)));
      try (rewrite ?length_app; unfold shape0 in *; lia).
    rewrite !all_rows_cons, total_steps_cons.
    rewrite <- !app_assoc, Nat.add_assoc. reflexivity.
Qed.

(** X4.  Rollouts of one actor count whose steps add up to at most the
    capacity, pushed one after the other into a new buffer: every push
    succeeds, the arrays hold the rows of the rollouts in the order of the
    pushes, followed by zeros, full_loop is false, and the write index and
    [__len__] are the number of steps pushed. *)
Theorem pushes_below_capacity_concatenate cap actors
    (r : rollout4 St Ac Rw Dn) (rs : list (rollout4 St Ac Rw Dn)) :
  Forall (well_shaped actors) (r :: rs) ->
  total_steps (r :: rs) <= cap ->
  let res := push_each st0 ac0 rw0 dn0 (r :: rs) (ReplayBuffer.__init__ St Ac Rw Dn cap) in
  fst res = Ok tt
  /\ ReplayBuffer.states (snd res)
     = Some (filled st0 cap actors (all_rows (@r_states _ _ _ _) (r :: rs)))
  /\ ReplayBuffer.actions (snd res)
     = Some (filled ac0 cap actors (all_rows (@r_actions _ _ _ _) (r :: rs)))
  /\ ReplayBuffer.rewards (snd res)
     = Some (filled rw0 cap actors (all_rows (@r_rewards _ _ _ _) (r :: rs)))
  /\ ReplayBuffer.dones (snd res)
     = Some (filled dn0 cap actors (all_rows (@r_dones _ _ _ _) (r :: rs)))
  /\ ReplayBuffer.index (snd res) = total_steps (r :: rs)
  /\ ReplayBuffer.__len__ (snd res) = total_steps (r :: rs)
  /\ ReplayBuffer.full_loop (snd res) = false.
Proof.
  intros Hall Hfit res. subst res.
  inversion Hall as [|r' rs' Hr Hrs]; subst.
  rewrite total_steps_cons in Hfit.
  unfold push_each. cbn [Py.for_each]. unfold Py.bind.
  rewrite (first_push_exact Hr) by lia.
  fold (push_each st0 ac0 rw0 dn0 rs).
  pose proof Hr as ((_ & _) & (Ha0 & _) & (Hr0 & _) & (Hd0 & _)).
  rewrite (push_each_from (cap := cap) Hrs) by (unfold shape0 in *; lia).
  cbn [fst snd ReplayBuffer.states ReplayBuffer.actions ReplayBuffer.rewards
       ReplayBuffer.dones ReplayBuffer.index ReplayBuffer.full_loop ReplayBuffer.__len__
       ReplayBuffer.capacity].
  unfold ReplayBuffer.__len__. cbn [ReplayBuffer.index ReplayBuffer.capacity].
  rewrite !all_rows_cons, total_steps_cons.
  repeat split. apply Nat.min_l. exact Hfit.
Qed.

(** X3.  On a buffer whose four arrays are allocated, with capacity rows
    over the actors of the rollout, and whose write index is at most the
    capacity: a rollout so long that what is left of it after the end of
    the arrays has more rows than the capacity, and more than one row (which
    says something only for capacity 0), is not taken.  [push] writes the
    head of the rollout into the rows from the write index to the end, sets
    the write index to 0, and then ends with ValueError on the slice
    assignment of the rest; full_loop is not set. *)
Theorem push_longer_than_capacity_raises cap actors (ds : ndarray St) (da : ndarray Ac)
    (dr : ndarray Rw) (dd : ndarray Dn) idx fl sts acs rws dns :
  fits cap actors (shape0 sts) ds sts ->
  fits cap actors (shape0 sts) da acs ->
  fits cap actors (shape0 sts) dr rws ->
  fits cap actors (shape0 sts) dd dns ->
  idx <= cap ->
  2 * cap < idx + shape0 sts ->
  1 < shape0 sts - (cap - idx) ->
  let n := (Z.of_nat cap - Z.of_nat idx - Z.of_nat (shape0 sts))%Z in
  ReplayBuffer.push st0 ac0 rw0 dn0 sts acs rws dns
    (ReplayBuffer.mk cap (Some ds) (Some da) (Some dr) (Some dd) idx fl)
  = (Raise ValueError,
     ReplayBuffer.mk cap
       (Some (put ds idx (slice_to n sts))) (Some (put da idx (slice_to n acs)))
       (Some (put dr idx (slice_to n rws))) (Some (put dd idx (slice_to n dns)))
       0 fl).
Proof.
  intros Fs Fa Fr Fd Hi Hw Hrest n.
  pose proof Fs as (Hs0 & Hs1 & _ & Hs3).
  pose proof Fa as (_ & _ & Ha2 & Ha3).
  pose proof Fr as (_ & _ & Hr2 & Hr3).
  pose proof Fd as (_ & _ & Hd2 & Hd3).
  unfold ReplayBuffer.push, Py.bind, Py.assert, ReplayBuffer.same_shape2.
  rewrite Hr2, Hd2, Ha2, Hr3, Hd3, Hs3, Ha3, !Nat.eqb_refl.
  cbn [andb Py.ret ReplayBuffer.states ReplayBuffer.index ReplayBuffer.capacity].
  assert (Efit : (idx + shape0 sts <=? cap) = false) by (apply Nat.leb_gt; lia).
  rewrite Efit. fold n.
  assert (Hw' : cap < idx + shape0 sts) by lia.
  pose proof (fits_slice_to Fs Hi Hw') as Fs1.
  pose proof (fits_slice_to Fa Hi Hw') as Fa1.
  pose proof (fits_slice_to Fr Hi Hw') as Fr1.
  pose proof (fits_slice_to Fd Hi Hw') as Fd1.
  fold n in Fs1, Fa1, Fr1, Fd1.
  assert (Hc1 : shape0 (slice_to n sts) = cap - idx) by apply Fs1.
  rewrite <- Hc1 in Fs1, Fa1, Fr1, Fd1.
  rewrite (push_unchecked_exact idx fl Fs1 Fa1 Fr1 Fd1) by lia.
  unfold Py.modify, ReplayBuffer.set_index.
  cbn [ReplayBuffer.capacity ReplayBuffer.states
    ReplayBuffer.actions ReplayBuffer.rewards ReplayBuffer.dones ReplayBuffer.full_loop].
  unfold ReplayBuffer._push_unchecked, Py.bind, ReplayBuffer.assign_slice.
  cbn [ReplayBuffer.states ReplayBuffer.index Nat.add].
  assert (Hraise : set_slice (put ds idx (slice_to n sts)) 0 (shape0 (slice_from n sts))
                     (slice_from n sts) = Raise ValueError).
  { unfold set_slice, broadcast_to, broadcast_axis.
    assert (Hlen : shape0 (slice_from n sts) = shape0 sts - (cap - idx)).
    { unfold slice_from, slice_bound, shape0. cbn [rows].
      assert (Hn : (n <? 0)%Z = true) by (apply Z.ltb_lt; unfold n; lia).
      rewrite Hn, length_skipn. unfold n, shape0. lia. }
    assert (Hdst : shape0 (put ds idx (slice_to n sts)) = cap).
    { unfold put, shape0. cbn [rows]. unfold shape0 in Hc1, Hs0.
      rewrite overwrite_length; lia. }
    rewrite Hdst, Hlen. rewrite Nat.min_0_l, Nat.sub_0_r, Nat.min_r by lia.
    unfold shape0 in Hlen. rewrite Hlen.
    assert (E : (length (rows sts) - (cap - idx) =? cap) = false)
      by (apply Nat.eqb_neq; unfold shape0 in *; lia).
    rewrite E.
    destruct (rows (slice_from n sts)) as [|y [|y' l]] eqn:El; cbn [length] in Hlen;
      unfold shape0 in *; [lia|lia|reflexivity]. }
  rewrite Hraise. reflexivity.
Qed.

(** X5.  In every buffer built by successful pushes: the number that
    [__len__] returns is at most the number of valid rows, which is at most
    the capacity; when the states are allocated so are the other three
    arrays, all with capacity rows and the same actor count; and a buffer
    whose states are not allocated is still at write index 0 with
    full_loop false. *)
Theorem reachable_buffer_bounds (Ps : St -> Prop) (Pa : Ac -> Prop)
    (Pr : Rw -> Prop) (Pd : Dn -> Prop) (self : buffer) :
  reachable st0 ac0 rw0 dn0 Ps Pa Pr Pd self ->
  ReplayBuffer.__len__ self <= valid self
  /\ valid self <= ReplayBuffer.capacity self
  /\ (forall ds, ReplayBuffer.states self = Some ds ->
        shape0 ds = ReplayBuffer.capacity self
        /\ exists da dr dd,
             ReplayBuffer.actions self = Some da
             /\ ReplayBuffer.rewards self = Some dr
             /\ ReplayBuffer.dones self = Some dd
             /\ shape0 da = ReplayBuffer.capacity self /\ shape1 da = shape1 ds
             /\ shape0 dr = ReplayBuffer.capacity self /\ shape1 dr = shape1 ds
             /\ shape0 dd = ReplayBuffer.capacity self /\ shape1 dd = shape1 ds)
  /\ (ReplayBuffer.states self = None ->
      ReplayBuffer.index self = 0 /\ ReplayBuffer.full_loop self = false).
Proof.
  intros Hreach. apply reachable_inv in Hreach.
  unfold ReplayBuffer.__len__, valid.
  destruct Hreach as [(Hn & Hi & Hl)|(A & (Fs & Fa & Fr & Fd) & Hidx)].
  - rewrite Hi, Hl. split; [lia|]. split; [lia|]. split; [congruence|].
    intros _. split; reflexivity.
  - destruct Fs as (ds & Hs & Hs0 & Hs1 & _). destruct Fa as (da & Ha & Ha0 & Ha1 & _).
    destruct Fr as (dr & Hr & Hr0 & Hr1 & _). destruct Fd as (dd & Hd & Hd0 & Hd1 & _).
    split; [|split; [|split]].
    + destruct (ReplayBuffer.full_loop self); [lia|]. specialize (Hidx eq_refl). lia.
    + destruct (ReplayBuffer.full_loop self); [lia|]. apply Hidx. reflexivity.
    + intros ds' Hs'. assert (ds' = ds) by congruence. subst ds'.
      split; [exact Hs0|]. exists da, dr, dd.
      repeat split; congruence.
    + congruence.
Qed.

End PushSequenceFacts.

Section SampleReturnFacts.

Import np.

Variables St Ac Rw Dn : Type.
Variable st0 : St.
Variable ac0 : Ac.
Variable rw0 : Rw.
Variable dn0 : Dn.
Variable Ps : St -> Prop.
Variable Pa : Ac -> Prop.
Variable Pr : Rw -> Prop.
Variable Pd : Dn -> Prop.

Local Abbreviation buffer := (ReplayBuffer.t St Ac Rw Dn).
Local Abbreviation batch := (ReplayBuffer.batch St Ac Rw Dn).

Lemma length_flat_map_const {A B} (f : A -> list B) (l : list A) k :
  (forall x, In x l -> length (f x) = k) -> length (flat_map f l) = length l * k.
Proof.
  induction l as [|x l IH]; intros H; [reflexivity|].
  cbn [flat_map length]. rewrite length_app.
  rewrite IH by (intros y Hy; apply H; right; exact Hy).
  rewrite (H x) by (left; reflexivity). lia.
Qed.

Lemma sample_loop_count (self : buffer) (A n : nat) (horizon : Z) :
  fields_ok Ps Pa Pr Pd A (valid self) self ->
  valid self <= ReplayBuffer.capacity self ->
  (0 <= horizon)%Z ->
  0 < A -> Z.to_nat horizon < valid self ->
  forall ris out,
    batch_ok n (Z.to_nat horizon) out ->
    (forall ri, In ri ris -> ri < n) ->
    length (ReplayBuffer.sample_loop horizon ris out self)
    = (A * (valid self - Z.to_nat horizon)) ^ length ris.
Proof.
  intros Hf HV Hh HA Hlt ris. induction ris as [|ri ris IH]; intros out Hout Hris.
  - reflexivity.
  - cbn [ReplayBuffer.sample_loop length Nat.pow]. unfold ReplayBuffer.pbind.
    assert (Hri : ri < n) by (apply Hris; left; reflexivity).
    rewrite (@sample_step_runs _ _ _ _ Ps Pa Pr Pd self A n horizon Hf HV Hh out ri Hout Hri HA Hlt).
    rewrite (@length_flat_map_const _ _ _ _ ((A * (valid self - Z.to_nat horizon)) ^ length ris)).
    + rewrite (@length_flat_map_const _ _ _ _ (valid self - Z.to_nat horizon)).
      * rewrite length_seq. lia.
      * intros r _. rewrite length_map, length_seq. reflexivity.
    + intros run Hrun. apply in_flat_map in Hrun. destruct Hrun as (r & Hr & Hrun).
      apply in_map_iff in Hrun. destruct Hrun as (h & <- & Hh').
      apply in_seq in Hr, Hh'.
      destruct (@step_of_ok _ _ _ _ Ps Pa Pr Pd self A n horizon Hf HV Hh out ri r h Hout Hri)
        as (_ & Hout1 & _); [lia|lia|].
      apply IH; [exact Hout1|].
      intros c Hc. apply Hris. right. exact Hc.
Qed.

Lemma sample_all_return (self : buffer) (sts : ndarray St)
    (rollouts horizon : Z) :
  reachable st0 ac0 rw0 dn0 Ps Pa Pr Pd self ->
  ReplayBuffer.states self = Some sts ->
  0 < shape1 sts ->
  (0 <= rollouts)%Z ->
  (0 <= horizon < Z.of_nat (valid self))%Z ->
  let runs := ReplayBuffer.sample st0 ac0 rw0 dn0 rollouts horizon self in
  length runs
  = (shape1 sts * (valid self - Z.to_nat horizon)) ^ Z.to_nat rollouts
  /\ forall res self', In (res, self') runs ->
       self' = self
       /\ exists out, res = Ok out
            /\ batch_ok (Z.to_nat rollouts) (Z.to_nat horizon) out.
Proof.
  intros Hreach Hsts HA Hro [Hh HhV] runs. apply reachable_inv in Hreach.
  destruct Hreach as [(Hnone & _)|(A & Hf & Hidx)]; [congruence|].
  assert (HV : valid self <= ReplayBuffer.capacity self).
  { unfold valid. destruct (ReplayBuffer.full_loop self); [lia|]. apply Hidx. reflexivity. }
  pose proof Hf as ((ds & Hs & _ & HsA & _) & (da & Ha & _) & (dr & Hr & _) & (dd & Hd & _)).
  assert (ds = sts) by congruence. subst ds.
  assert (Ez : forall X (z : X), zeros z horizon rollouts
            = Ok (mk_ndarray (Z.to_nat rollouts)
                    (repeat (repeat z (Z.to_nat rollouts)) (Z.to_nat horizon)))).
  { intros X z. unfold zeros.
    assert (E1 : (horizon <? 0)%Z = false) by (apply Z.ltb_ge; lia).
    assert (E2 : (rollouts <? 0)%Z = false) by (apply Z.ltb_ge; lia).
    rewrite E1, E2. reflexivity. }
  assert (Hruns : runs = ReplayBuffer.sample_loop horizon (seq 0 (Z.to_nat rollouts))
            (ReplayBuffer.mk_batch
               (mk_ndarray (Z.to_nat rollouts) (repeat (repeat st0 (Z.to_nat rollouts)) (Z.to_nat horizon)))
               (mk_ndarray (Z.to_nat rollouts) (repeat (repeat ac0 (Z.to_nat rollouts)) (Z.to_nat horizon)))
               (mk_ndarray (Z.to_nat rollouts) (repeat (repeat rw0 (Z.to_nat rollouts)) (Z.to_nat horizon)))
               (mk_ndarray (Z.to_nat rollouts) (repeat (repeat dn0 (Z.to_nat rollouts)) (Z.to_nat horizon))))
            self).
  { subst runs. unfold ReplayBuffer.sample.
    erewrite pbind_attr_some by exact Hs. rewrite Ez, pbind_lift_ok.
    erewrite pbind_attr_some by exact Ha. rewrite Ez, pbind_lift_ok.
    erewrite pbind_attr_some by exact Hr. rewrite Ez, pbind_lift_ok.
    erewrite pbind_attr_some by exact Hd. rewrite Ez, pbind_lift_ok.
    reflexivity. }
  assert (Hout : batch_ok (Z.to_nat rollouts) (Z.to_nat horizon)
            (ReplayBuffer.mk_batch
               (mk_ndarray (Z.to_nat rollouts) (repeat (repeat st0 (Z.to_nat rollouts)) (Z.to_nat horizon)))
               (mk_ndarray (Z.to_nat rollouts) (repeat (repeat ac0 (Z.to_nat rollouts)) (Z.to_nat horizon)))
               (mk_ndarray (Z.to_nat rollouts) (repeat (repeat rw0 (Z.to_nat rollouts)) (Z.to_nat horizon)))
               (mk_ndarray (Z.to_nat rollouts) (repeat (repeat dn0 (Z.to_nat rollouts)) (Z.to_nat horizon))))).
  { repeat apply conj; cbn [ReplayBuffer.b_states ReplayBuffer.b_actions
      ReplayBuffer.b_rewards ReplayBuffer.b_dones shape1 rows]; try reflexivity;
      try (unfold shape0; cbn [rows]; apply repeat_length);
      apply Forall_forall; intros row Hrow; apply repeat_spec in Hrow; subst row;
      apply repeat_length. }
  assert (Hlt : Z.to_nat horizon < valid self) by lia.
  assert (HA' : 0 < A) by lia.
  assert (Hris : forall ri, In ri (seq 0 (Z.to_nat rollouts)) -> ri < Z.to_nat rollouts).
  { intros ri Hri. apply in_seq in Hri. lia. }
  rewrite Hruns. split.
  - rewrite (@sample_loop_count self A (Z.to_nat rollouts) horizon Hf HV Hh HA' Hlt _ _ Hout Hris).
    rewrite length_seq, HsA. reflexivity.
  - intros res self' Hin.
    destruct (@sample_loop_runs _ _ _ _ Ps Pa Pr Pd self A (Z.to_nat rollouts) horizon Hf HV Hh
                HA' Hlt _ _ Hout Hris _ _ Hin) as (-> & out' & -> & Hok & _).
    split; [reflexivity|]. exists out'. split; [reflexivity|exact Hok].
Qed.

(** X6.  On a buffer built by successful pushes that holds more valid rows
    than the horizon and has at least one actor, [sample(rollouts, horizon)]
    with rollouts >= 0 and horizon >= 0 never raises: each of its runs
    returns a batch and leaves the buffer as it was, and the runs are one
    per sequence of rollouts draws of a pair (actor, start) from
    [0, actors) x [0, valid - horizon). *)
Theorem sample_returns_with_enough_rows (self : buffer) (sts : ndarray St)
    (rollouts horizon : Z) :
  reachable st0 ac0 rw0 dn0 Ps Pa Pr Pd self ->
  ReplayBuffer.states self = Some sts ->
  0 < shape1 sts ->
  (0 <= rollouts)%Z ->
  (0 <= horizon < Z.of_nat (valid self))%Z ->
  let runs := ReplayBuffer.sample st0 ac0 rw0 dn0 rollouts horizon self in
  length runs
  = (shape1 sts * (valid self - Z.to_nat horizon)) ^ Z.to_nat rollouts
  /\ forall res self', In (res, self') runs ->
       self' = self
       /\ exists out, res = Ok out
            /\ batch_ok (Z.to_nat rollouts) (Z.to_nat horizon) out.
Proof.
  intros Hreach Hsts HA Hro Hh.
  exact (sample_all_return Hreach Hsts HA Hro Hh).
Qed.

(** X7.  With no rollout asked for, [sample(0, horizon)] on a buffer whose
    four arrays are allocated draws nothing: for every horizon >= 0, also
    one that is not below the number of valid rows, its only run returns
    four arrays of horizon rows without a column and leaves the buffer as it
    was. *)
Theorem sample_of_no_rollout_is_empty (self : buffer) ds da dr dd (horizon : Z) :
  ReplayBuffer.states self = Some ds ->
  ReplayBuffer.actions self = Some da ->
  ReplayBuffer.rewards self = Some dr ->
  ReplayBuffer.dones self = Some dd ->
  (0 <= horizon)%Z ->
  ReplayBuffer.sample st0 ac0 rw0 dn0 0 horizon self
  = [(Ok (ReplayBuffer.mk_batch
            (mk_ndarray 0 (repeat [] (Z.to_nat horizon)))
            (mk_ndarray 0 (repeat [] (Z.to_nat horizon)))
            (mk_ndarray 0 (repeat [] (Z.to_nat horizon)))
            (mk_ndarray 0 (repeat [] (Z.to_nat horizon)))), self)].
Proof.
  intros Hs Ha Hr Hd Hh. unfold ReplayBuffer.sample.
  assert (Ez : forall X (z : X), zeros z horizon 0
            = Ok (mk_ndarray 0 (repeat [] (Z.to_nat horizon)))).
  { intros X z. unfold zeros.
    assert (E1 : (horizon <? 0)%Z = false) by (apply Z.ltb_ge; lia).
    rewrite E1. reflexivity. }
  erewrite pbind_attr_some by exact Hs. rewrite Ez, pbind_lift_ok.
  erewrite pbind_attr_some by exact Ha. rewrite Ez, pbind_lift_ok.
  erewrite pbind_attr_some by exact Hr. rewrite Ez, pbind_lift_ok.
  erewrite pbind_attr_some by exact Hd. rewrite Ez, pbind_lift_ok.
  reflexivity.
Qed.

End SampleReturnFacts.

Section LossBounds.

Local Open Scope R_scope.

Variables Pr Ac : Type.
Variable self : PPO.t.
Variable pd : PPO.ProbabilityDistribution Pr Ac.

Lemma loss_clip_at probs probs_old actions advantages i a p p_old adv :
  PPO.constraint self <> None ->
  nth_error actions i = Some a ->
  nth_error probs i = Some p ->
  nth_error probs_old i = Some p_old ->
  nth_error advantages i = Some adv ->
  nth_error (PPO.loss_clip self pd probs probs_old actions advantages) i
  = Some (- Rmin ((PPO.logp pd a p - PPO.logp pd a p_old) * adv)
                 (torch.clamp1 (- PPO.policy_clip' self) (PPO.policy_clip' self)
                               (PPO.logp pd a p - PPO.logp pd a p_old) * adv)).
Proof.
  intros Hc Ha Hp Ho Hadv.
  pose proof (ratio_at pd probs probs_old actions i Ha Hp Ho) as Hr.
  unfold PPO.loss_clip.
  destruct (PPO.constraint self) as [k|]; [|contradiction].
  unfold torch.neg, torch.min, PPO.unclipped_policy_loss, torch.mul, torch.clamp.
  apply (nth_error_map_some Ropp).
  apply nth_error_zip_with.
  - apply nth_error_zip_with; assumption.
  - apply nth_error_zip_with; [|assumption].
    apply (nth_error_map_some (torch.clamp1 (- PPO.policy_clip' self) (PPO.policy_clip' self))).
    exact Hr.
Qed.

Lemma clamp1_inside lo hi x : lo <= x <= hi -> torch.clamp1 lo hi x = x.
Proof.
  intros [H1 H2]. unfold torch.clamp1.
  rewrite Rmax_left by exact H1. apply Rmin_left. exact H2.
Qed.

Lemma clamp1_above lo hi x : lo <= hi -> hi <= x -> torch.clamp1 lo hi x = hi.
Proof.
  intros H1 H2. unfold torch.clamp1.
  rewrite Rmax_left by lra. apply Rmin_right. exact H2.
Qed.

Lemma clamp1_below lo hi x : lo <= hi -> x <= lo -> torch.clamp1 lo hi x = lo.
Proof.
  intros H1 H2. unfold torch.clamp1.
  rewrite Rmax_right by exact H2. apply Rmin_left. exact H1.
Qed.

(** X13.  Under the clip constraint with a clip range c = policy_clip *
    clip_mult >= 0, the policy loss of a sample with ratio r (the difference
    of the log probabilities) and advantage adv is never below the unclipped
    loss -r * adv; it is the unclipped loss when -c <= r <= c; and it is
    capped where the step would pay off: -c * adv when r >= c and adv >= 0,
    c * adv when r <= -c and adv <= 0. *)
Theorem clipped_policy_loss_is_pessimistic
    probs probs_old actions advantages i a p p_old adv :
  PPO.constraint self <> None ->
  nth_error actions i = Some a ->
  nth_error probs i = Some p ->
  nth_error probs_old i = Some p_old ->
  nth_error advantages i = Some adv ->
  let r := PPO.logp pd a p - PPO.logp pd a p_old in
  let c := PPO.policy_clip self * PPO.clip_mult self in
  0 <= c ->
  exists loss,
    nth_error (PPO.loss_clip self pd probs probs_old actions advantages) i = Some loss
    /\ - (r * adv) <= loss
    /\ (- c <= r <= c -> loss = - (r * adv))
    /\ (c <= r -> 0 <= adv -> loss = - (c * adv))
    /\ (r <= - c -> adv <= 0 -> loss = c * adv).
Proof.
  intros Hc Ha Hp Ho Hadv r c Hc0.
  eexists. split; [apply (loss_clip_at probs probs_old actions advantages i Hc Ha Hp Ho Hadv)|].
  fold r. change (PPO.policy_clip' self) with c.
  split; [|split; [|split]].
  - pose proof (Rmin_l (r * adv) (torch.clamp1 (- c) c r * adv)). lra.
  - intros Hin. rewrite clamp1_inside by exact Hin. rewrite Rmin_left; lra.
  - intros Hr Hadv0. rewrite clamp1_above by lra.
    rewrite Rmin_right; [reflexivity|]. apply Rmult_le_compat_r; assumption.
  - intros Hr Hadv0. rewrite clamp1_below by lra.
    rewrite Rmin_right; [lra|].
    replace (- c * adv) with (c * (- adv)) by lra.
    replace (r * adv) with ((- r) * (- adv)) by lra.
    apply Rmult_le_compat_r; lra.
Qed.

Lemma smooth_l1_nonneg x y : 0 <= torch.smooth_l1 x y.
Proof.
  unfold torch.smooth_l1. pose proof (Rabs_pos (x - y)) as H.
  destruct (Rlt_dec (Rabs (x - y)) 1) as [Hl|Hl].
  - assert (0 <= Rabs (x - y) * Rabs (x - y)) by (apply Rmult_le_pos; exact H). lra.
  - lra.
Qed.

(** X14.  With value_loss_scale >= 0 the value loss of a sample is never
    negative and never below value_loss_scale * 0.5 * L(value), where L is
    the smooth L1 loss against the return.  When the new value is within
    c = value_clip * clip_mult of the old value, the clamp changes nothing:
    the loss is value_loss_scale * 0.5 * max(L(value), L(old + (value -
    old))); in exact arithmetic, where old + (value - old) is value, that is
    value_loss_scale * 0.5 * L(value) (rounding can make the two differ). *)
Theorem value_loss_is_pessimistic values values_old returns i v v_old ret :
  nth_error values i = Some v ->
  nth_error values_old i = Some v_old ->
  nth_error returns i = Some ret ->
  0 <= PPO.value_loss_scale self ->
  let c := PPO.value_clip self * PPO.clip_mult self in
  exists loss,
    nth_error (PPO.loss_value self values values_old returns) i = Some loss
    /\ 0 <= loss
    /\ PPO.value_loss_scale self * 0.5 * torch.smooth_l1 v ret <= loss
    /\ (- c <= v - v_old <= c ->
        loss = PPO.value_loss_scale self * 0.5
               * Rmax (torch.smooth_l1 v ret) (torch.smooth_l1 (v_old + (v - v_old)) ret))
    /\ (- c <= v - v_old <= c ->
        loss = PPO.value_loss_scale self * 0.5 * torch.smooth_l1 v ret).
Proof.
  intros Hv Ho Hr Hs c.
  eexists. split; [apply (loss_value_at self values values_old returns i Hv Ho Hr)|].
  change (PPO.value_clip' self) with c.
  set (l1 := torch.smooth_l1 v ret).
  set (l2 := torch.smooth_l1 (v_old + torch.clamp1 (- c) c (v - v_old)) ret).
  pose proof (smooth_l1_nonneg v ret) as H1. fold l1 in H1.
  pose proof (Rmax_l l1 l2) as Hm.
  assert (Hs' : 0 <= PPO.value_loss_scale self * 0.5) by lra.
  split; [|split; [|split]].
  - apply Rmult_le_pos; [exact Hs'|lra].
  - apply Rmult_le_compat_l; [exact Hs'|exact Hm].
  - intros Hin. subst l2. rewrite clamp1_inside by exact Hin. reflexivity.
  - intros Hin. subst l2. rewrite clamp1_inside by exact Hin.
    replace (v_old + (v - v_old)) with v by lra. fold l1.
    rewrite Rmax_left by lra. reflexivity.
Qed.

End LossBounds.

Section Standardisation.

Local Open Scope R_scope.

Lemma sum_shift_scale (m s : R) (l : list R) :
  torch.sum (map (fun v => (v - m) / s) l) = (torch.sum l - INR (length l) * m) / s.
Proof.
  induction l as [|x l IH].
  - cbn. lra.
  - cbn [map torch.sum fold_right length]. fold (torch.sum (map (fun v => (v - m) / s) l)).
    fold (torch.sum l). rewrite IH, S_INR. unfold Rdiv. lra.
Qed.

Lemma flatten_map2 (f : R -> R) (x : gae.array2 R) :
  PPO.flatten (map (map f) x) = map f (PPO.flatten x).
Proof.
  unfold PPO.flatten. rewrite concat_map. reflexivity.
Qed.

Lemma standardised_mean (x : gae.array2 R) (s : R) :
  PPO.flatten x <> [] ->
  PPO.np_mean (map (map (fun v => (v - PPO.np_mean x) / s)) x) = 0.
Proof.
  intros Hne. unfold PPO.np_mean at 1, torch.mean.
  rewrite flatten_map2, sum_shift_scale, length_map.
  unfold PPO.np_mean, torch.mean.
  assert (Hn : INR (length (PPO.flatten x)) <> 0).
  { apply not_0_INR. destruct (PPO.flatten x); [contradiction|discriminate]. }
  replace (torch.sum (PPO.flatten x)
           - INR (length (PPO.flatten x)) * (torch.sum (PPO.flatten x) / INR (length (PPO.flatten x))))
    with 0 by (field; exact Hn).
  unfold Rdiv. rewrite !Rmult_0_l. reflexivity.
Qed.

(** X15.  The advantages that [_process_rewards] returns have mean zero
    over all steps and actors, whatever the rewards, values, done flags,
    discounts and reward scale (in exact arithmetic, on a rollout that has at
    least one advantage); in particular a rollout with a single advantage
    gets the advantage 0. *)
Theorem processed_advantages_have_zero_mean rewards values dones
    reward_discount advantage_discount reward_scale :
  let adv := advantages_of (PPO._process_rewards rewards values dones
                              reward_discount advantage_discount reward_scale) in
  PPO.flatten adv <> [] ->
  PPO.np_mean adv = 0
  /\ (forall a, PPO.flatten adv = [a] -> a = 0).
Proof.
  intros adv Hne.
  assert (Hm : PPO.np_mean adv = 0).
  { subst adv. unfold advantages_of, PPO._process_rewards in *. cbn [snd] in *.
    apply standardised_mean. intros E. apply Hne.
    rewrite flatten_map2, E. reflexivity. }
  split; [exact Hm|].
  intros a Ha. unfold PPO.np_mean, torch.mean in Hm. rewrite Ha in Hm.
  cbn in Hm. lra.
Qed.

End Standardisation.

Section UpdateCounts.

Variables Params Data : Type.
Variable data_len : Data -> nat.
Variable forward_loss : Params -> Data -> list nat -> PPO.float.
Variable optimizer_step : Params -> Data -> list nat -> Params.
Variable randperm : nat -> nat -> list nat.

Local Abbreviation trainer := (PPO.trainer Params).

Lemma for_each_went_through {X} (body : X -> Py.M trainer unit) k :
  (forall x s, went_through k s (body x s)) ->
  forall xs s, went_through (length xs * k) s (Py.for_each xs body s).
Proof.
  intros Hbody xs. induction xs as [|x xs IH]; intros s; cbn [Py.for_each length].
  - split; [reflexivity|]. exists []. cbn. rewrite app_nil_r. split; reflexivity.
  - unfold Py.bind. destruct (Hbody x s) as (Hr & ls1 & Hl1 & Hlog1).
    destruct (body x s) as [[u|e] s'] eqn:E; cbn [fst snd] in *; [|discriminate].
    destruct (IH s') as (Hr2 & ls2 & Hl2 & Hlog2).
    split; [exact Hr2|]. exists (ls1 ++ ls2). split.
    + rewrite length_app. lia.
    + rewrite Hlog2, Hlog1, flat_map_app, <- app_assoc. reflexivity.
Qed.

(** X16.  When every total loss is finite and batch_size is not 0,
    [_ppo_update] returns, and it has run exactly
    ppo_iters * max(1, num_actors * horizon // batch_size) minibatches, each
    one the sequence loss, backward, clip_grad_norm, optimizer step,
    zero_grad; with batch_size = 0 it ends with ZeroDivisionError before it
    has done anything. *)
Theorem ppo_update_runs_all_minibatches
    num_actors horizon batch_size ppo_iters data (s : trainer) :
  (forall theta idx, finite (forward_loss theta data idx) = true) ->
  let r := PPO._ppo_update data_len forward_loss optimizer_step randperm
             num_actors horizon batch_size ppo_iters data s in
  (batch_size <> 0%nat ->
   fst r = Ok tt
   /\ exists ls,
        length ls = (ppo_iters * Nat.max 1 (num_actors * horizon / batch_size))%nat
        /\ PPO.log (snd r) = PPO.log s ++ flat_map block ls)
  /\ (batch_size = 0%nat -> r = (Raise ZeroDivisionError, s)).
Proof.
  intros Hfin r. subst r. unfold PPO._ppo_update, Py.bind. split.
  - intros Hb. apply Nat.eqb_neq in Hb. rewrite Hb. cbn [Py.ret].
    set (batches := Nat.max 1 (num_actors * horizon / batch_size)).
    match goal with
    | |- fst (Py.for_each ?xs ?body s) = _ /\ _ =>
        assert (H : went_through (length xs * batches) s (Py.for_each xs body s))
    end.
    { apply for_each_went_through. intros ppo_iter s1.
      match goal with
      | |- went_through _ _ (Py.for_each ?xs ?body s1) =>
          assert (H1 : went_through (length xs * 1) s1 (Py.for_each xs body s1))
      end.
      { apply for_each_went_through. intros loader_iter s2.
        rewrite minibatch_finite by apply Hfin.
        split; [reflexivity|]. eexists [_]. split; [reflexivity|].
        cbn [snd PPO.log flat_map]. rewrite app_nil_r. reflexivity. }
      rewrite length_seq, Nat.mul_1_r in H1. exact H1. }
    rewrite length_seq in H. exact H.
  - intros ->. reflexivity.
Qed.

End UpdateCounts.

Section EpochBatches.

Lemma slice_chunk {X} (l : list X) (a b : nat) :
  firstn a l ++ PPO.slice l a (a + b) = firstn (a + b) l.
Proof.
  unfold PPO.slice. replace (a + b - a) with b by lia.
  revert l. induction a as [|a IH]; intros l.
  - reflexivity.
  - destruct l as [|x l]; [cbn; rewrite !firstn_nil; reflexivity|].
    cbn [firstn skipn Nat.add app]. rewrite IH. reflexivity.
Qed.

Lemma epoch_batches_concat (rand_idx : list nat) (batch_size : nat) :
  forall batches,
    concat (epoch_batches rand_idx batches batch_size)
    = firstn (batches * batch_size) rand_idx.
Proof.
  unfold epoch_batches. induction batches as [|k IH].
  - reflexivity.
  - rewrite seq_S, map_app, concat_app, IH. cbn [map concat Nat.add].
    rewrite app_nil_r.
    replace ((k + 1) * batch_size) with (k * batch_size + batch_size) by lia.
    rewrite slice_chunk. f_equal. lia.
Qed.

(** X17.  In an epoch of [_ppo_update] over a permutation of the
    N = num_actors * horizon indices of the data, with batch_size > 0 and
    batches = max(1, N // batch_size), the minibatches, one after the other,
    are the first batches * batch_size indices of the permutation: no index
    is used twice, and the last N mod batch_size indices are left out when
    N >= batch_size; with N < batch_size the one minibatch is the whole
    permutation. *)
Theorem epoch_minibatches_are_a_prefix
    (rand_idx : list nat) (num_actors horizon batch_size : nat) :
  batch_size <> 0 ->
  length rand_idx = num_actors * horizon ->
  let N := num_actors * horizon in
  let batches := Nat.max 1 (N / batch_size) in
  concat (epoch_batches rand_idx batches batch_size)
  = firstn (batches * batch_size) rand_idx
  /\ (batch_size <= N ->
      length (concat (epoch_batches rand_idx batches batch_size)) = N - N mod batch_size)
  /\ (N < batch_size ->
      epoch_batches rand_idx batches batch_size = [rand_idx]).
Proof.
  intros Hb Hlen N batches. fold N in Hlen.
  assert (H1 : concat (epoch_batches rand_idx batches batch_size)
               = firstn (batches * batch_size) rand_idx) by apply epoch_batches_concat.
  split; [exact H1|]. split.
  - intros Hle. rewrite H1, length_firstn, Hlen.
    assert (Hq : 1 <= N / batch_size).
    { apply Nat.div_le_lower_bound; lia. }
    unfold batches. rewrite Nat.max_r by exact Hq.
    pose proof (Nat.div_mod_eq N batch_size) as Hdm. nia.
  - intros Hlt. unfold batches. rewrite Nat.div_small by exact Hlt.
    cbn [Nat.max epoch_batches]. unfold epoch_batches. cbn [seq map].
    unfold PPO.slice. cbn [Nat.mul Nat.add skipn]. rewrite Nat.add_0_r, Nat.sub_0_r.
    rewrite firstn_all2 by lia. reflexivity.
Qed.

End EpochBatches.

Section UnrollFacts.

Variable Tensor : Type.
Variable model : Tensor -> bool -> MPPO.HeadOutput Tensor.
Variable pd_sample : nat -> Tensor -> Tensor.
Variable world_gen : Tensor -> Tensor -> Tensor * Tensor * Tensor.
Variable world_disc : Tensor -> Tensor -> Tensor -> Tensor -> Tensor -> Tensor.

Local Abbreviation unroll := (MPPO.disc_fake_unroll model pd_sample world_gen world_disc).
Local Abbreviation step := (MPPO.fake_step model pd_sample world_gen world_disc).

(** The next code that the generator returns on a call. *)
Local Abbreviation gen_next := (fun call : Tensor * Tensor => fst (fst (world_gen (fst call) (snd call)))).

Lemma unroll_chain n states0 actions :
  let s := unroll (S n) states0 actions in
  MPPO.all_gen_hidden_codes s
  = MPPO.hidden_code (model states0 false) :: map gen_next (MPPO.gen_calls s)
  /\ map fst (MPPO.gen_calls s) = removelast (MPPO.all_gen_hidden_codes s)
  /\ length (MPPO.disc_fake s) = S n
  /\ length (MPPO.all_gen_actions s) = S n
  /\ length (MPPO.all_gen_rewards s) = S n
  /\ length (MPPO.all_gen_dones s) = S n.
Proof.
  induction n as [|n IH].
  - unfold MPPO.disc_fake_unroll. cbn [seq fold_left]. unfold MPPO.fake_step.
    cbn [Nat.eqb negb MPPO.all_gen_hidden_codes MPPO.fake_init app last].
    destruct (world_gen (MPPO.hidden_code (model states0 false)) actions) as [[c r] d] eqn:E.
    cbn. rewrite E. repeat split.
  - cbv zeta in IH |- *. rewrite unroll_succ.
    destruct IH as (Hcodes & Hcalls & H1 & H2 & H3 & H4).
    set (s := unroll (S n) states0 actions) in *.
    unfold MPPO.fake_step. cbn [Nat.eqb negb].
    destruct (world_gen (last (MPPO.all_gen_hidden_codes s) states0) actions)
      as [[c r] d] eqn:E.
    cbn [MPPO.all_gen_hidden_codes MPPO.gen_calls MPPO.disc_fake MPPO.all_gen_actions
         MPPO.all_gen_rewards MPPO.all_gen_dones].
    rewrite !length_app, H1, H2, H3, H4. cbn [length].
    split; [|split; [|repeat split; lia]].
    + rewrite map_app. cbn [map fst snd]. rewrite E. cbn [fst].
      rewrite Hcodes at 1. reflexivity.
    + rewrite map_app, removelast_last, Hcalls. cbn [map fst].
      symmetry. apply app_removelast_last.
      rewrite Hcodes. discriminate.
Qed.

(** X10.  After a fake unroll of horizon >= 1 steps the generated codes are
    a chain: the first is the hidden code of the model at states[0], and
    each later one is what the generator returned on the code before it,
    which is also the code of its next call; there are horizon + 1 codes
    and horizon entries in each of the lists of discriminator outputs,
    actions, rewards and done flags. *)
Theorem fake_unroll_chains_the_generated_codes horizon states0 actions :
  0 < horizon ->
  let s := MPPO.disc_fake_unroll model pd_sample world_gen world_disc
             horizon states0 actions in
  MPPO.all_gen_hidden_codes s
  = MPPO.hidden_code (model states0 false) :: map gen_next (MPPO.gen_calls s)
  /\ map fst (MPPO.gen_calls s) = removelast (MPPO.all_gen_hidden_codes s)
  /\ length (MPPO.all_gen_hidden_codes s) = S horizon
  /\ length (MPPO.disc_fake s) = horizon
  /\ length (MPPO.all_gen_actions s) = horizon
  /\ length (MPPO.all_gen_rewards s) = horizon
  /\ length (MPPO.all_gen_dones s) = horizon.
Proof.
  intros Hh. destruct horizon as [|n]; [lia|].
  destruct (unroll_chain n states0 actions) as (Hcodes & Hcalls & H1 & H2 & H3 & H4).
  cbv zeta. split; [exact Hcodes|]. split; [exact Hcalls|].
  split; [|repeat split; assumption].
  rewrite Hcodes. cbn [length]. rewrite length_map.
  destruct (generator_receives_replayed_actions model pd_sample world_gen world_disc
              (S n) states0 actions) as (Hlen & _).
  rewrite Hlen. reflexivity.
Qed.

End UnrollFacts.

Section RunFacts.

Variables Obs St Rw Dn Pr Vl Ac Noise Folder : Type.
Variable _from_numpy : Obs -> St.
Variable _take_step : St -> Dn -> Pr * Vl.
Variable pd_sample : Noise -> Pr -> Ac.
Variable update : PPO.Sample St Rw Dn Pr Vl Ac -> result unit.

Local Abbreviation agent := (PPORun.t St Rw Dn Pr Vl Ac Folder).
Local Abbreviation input := (step_input Obs Rw Dn Noise).
Local Abbreviation sample_of' := (sample_of _from_numpy _take_step pd_sample).
Local Abbreviation steps' := (steps (Folder := Folder) _from_numpy _take_step pd_sample update).
Local Abbreviation step_at' := (step_at (Folder := Folder) _from_numpy _take_step pd_sample update).

Lemma check_save_model_runs (a : agent) :
  can_save a ->
  exists a',
    PPORun.check_save_model a = (Ok tt, a')
    /\ same_settings a a'
    /\ PPORun.sample a' = PPORun.sample a
    /\ PPORun.trained a' = PPORun.trained a
    /\ PPORun.frame a' = PPORun.frame a.
Proof.
  intros Hc. unfold PPORun.check_save_model.
  destruct (PPORun.model_save_interval a) as [interval|] eqn:Ei.
  2:{ exists a. repeat split. }
  destruct (PPORun.last_model_save_frame a + interval >? PPORun.frame a)%Z.
  { exists a. repeat split. }
  destruct Hc as [Hc|Hc]; [congruence|].
  unfold Py.bind, Py.modify. cbn [PPORun.model_save_folder PPORun.set_last_model_save_frame].
  destruct (PPORun.model_save_folder a) as [folder|] eqn:Ef; [|contradiction].
  eexists. split; [reflexivity|].
  unfold same_settings. cbn. repeat split; assumption.
Qed.

Lemma sample_of_lagged (l : list input) :
  l <> [] -> lagged (sample_of' l).
Proof.
  destruct l as [|i l]; [contradiction|]. intros _.
  unfold sample_of. cbn [map fold_left].
  apply fold_keeps_lagged. rewrite append_first. unfold lagged. cbn. repeat split.
Qed.

Lemma sample_of_states_length (l : list input) :
  length (PPO.states (sample_of' l)) = length l.
Proof.
  unfold sample_of.
  assert (H : forall (cs : list (PPO.step_args St Rw Dn Pr Vl Ac)) s,
             length (PPO.states (fold_left (@PPO.append_step _ _ _ _ _ _) cs s))
             = length (PPO.states s) + length cs).
  { induction cs as [|c cs IH]; intros s; cbn [fold_left length]; [lia|].
    rewrite IH. unfold PPO.append_step, PPO.append_to_sample.
    destruct (negb (length (PPO.states s) =? 0)); cbn [PPO.states];
      rewrite length_app; cbn [length]; lia. }
  rewrite H, length_map. reflexivity.
Qed.

Lemma sample_of_rewards_length (l : list input) :
  length (PPO.rewards (sample_of' l)) = pred (length l).
Proof.
  destruct l as [|i l]; [reflexivity|].
  assert (Hne : i :: l <> []) by discriminate.
  destruct (sample_of_lagged Hne) as (Hs & _).
  rewrite sample_of_states_length in Hs. lia.
Qed.

Lemma sample_of_snoc (l : list input) (i : input) :
  sample_of' (l ++ [i])
  = PPO.append_step (sample_of' l) (args_of _from_numpy _take_step pd_sample i).
Proof.
  unfold sample_of. rewrite map_app, fold_left_app. reflexivity.
Qed.

(** One call of [_step] on the sample collected from [pre]. *)
Lemma step_collects (a : agent) (pre : list input) (i : input) :
  PPORun.sample a = sample_of' pre ->
  (Z.of_nat (length pre) < PPORun.horizon a)%Z ->
  PPORun._step _from_numpy _take_step pd_sample update
    (i_prev_states i) (i_rewards i) (i_dones i) (i_cur_states i) (i_noise i) a
  = (Ok (PPO.a_actions (args_of _from_numpy _take_step pd_sample i)),
     PPORun.set_sample (sample_of' (pre ++ [i])) a).
Proof.
  intros Hs Hlt. unfold PPORun._step.
  destruct (_take_step (_from_numpy (i_cur_states i)) (i_dones i)) as [probs values] eqn:E.
  unfold Py.bind, Py.modify, Py.get.
  cbn [PPORun.sample PPORun.set_sample PPORun.horizon].
  assert (Hap : PPO.append_to_sample (PPORun.sample a) (_from_numpy (i_cur_states i))
                  (i_rewards i) (i_dones i) (pd_sample (i_noise i) (fst (probs, values)))
                  probs values
                = sample_of' (pre ++ [i])).
  { rewrite sample_of_snoc, Hs. unfold PPO.append_step, args_of. rewrite E. reflexivity. }
  rewrite Hap, sample_of_rewards_length, length_app. cbn [length].
  assert (Eh : (Z.of_nat (pred (length pre + 1)) >=? PPORun.horizon a)%Z = false).
  { rewrite Z.geb_leb. apply Z.leb_gt. lia. }
  rewrite Eh. cbn [Py.ret]. unfold args_of. rewrite E. reflexivity.
Qed.

Lemma step_trains (a : agent) (pre : list input) (i : input) :
  (forall s, update s = Ok tt) ->
  can_save a ->
  PPORun.sample a = sample_of' pre ->
  (PPORun.horizon a <= Z.of_nat (length pre))%Z ->
  exists a',
    PPORun._step _from_numpy _take_step pd_sample update
      (i_prev_states i) (i_rewards i) (i_dones i) (i_cur_states i) (i_noise i) a
    = (Ok (PPO.a_actions (args_of _from_numpy _take_step pd_sample i)), a')
    /\ same_settings a a'
    /\ PPORun.sample a' = PPO.create_new_sample St Rw Dn Pr Vl Ac
    /\ PPORun.trained a' = PPORun.trained a ++ [sample_of' (pre ++ [i])].
Proof.
  intros Hup Hc Hs Hge. unfold PPORun._step.
  destruct (_take_step (_from_numpy (i_cur_states i)) (i_dones i)) as [probs values] eqn:E.
  unfold Py.bind at 1 2 3, Py.modify at 1, Py.get.
  cbn [PPORun.sample PPORun.set_sample PPORun.horizon].
  assert (Hap : PPO.append_to_sample (PPORun.sample a) (_from_numpy (i_cur_states i))
                  (i_rewards i) (i_dones i) (pd_sample (i_noise i) (fst (probs, values)))
                  probs values
                = sample_of' (pre ++ [i])).
  { rewrite sample_of_snoc, Hs. unfold PPO.append_step, args_of. rewrite E. reflexivity. }
  rewrite Hap, sample_of_rewards_length, length_app. cbn [length].
  assert (Eh : (Z.of_nat (pred (length pre + 1)) >=? PPORun.horizon a)%Z = true).
  { rewrite Z.geb_leb. apply Z.leb_le. lia. }
  rewrite Eh.
  unfold PPORun._train, Py.bind, Py.get, Py.modify.
  cbn [PPORun.sample PPORun.set_sample PPORun.trained PPORun.set_trained].
  rewrite Hup.
  match goal with
  | |- context [PPORun.check_save_model ?b] =>
      destruct (@check_save_model_runs b) as (a1 & Hrun & Hset & Hsam & Htr & _);
        [exact Hc|rewrite Hrun]
  end.
  cbn [Py.ret]. eexists. split.
  - unfold args_of. rewrite E. reflexivity.
  - destruct Hset as (H1 & H2 & H3 & H4). cbn in H1, H2, H3, H4, Htr.
    unfold same_settings. cbn. repeat split; assumption.
Qed.

Lemma step_at_collects (a : agent) (pre : list input) (i : input) :
  PPORun.sample a = sample_of' pre ->
  (Z.of_nat (length pre) < PPORun.horizon a)%Z ->
  step_at' i a
  = (Ok tt, PPORun.set_sample (sample_of' (pre ++ [i])) (PPORun.set_frame (i_frame i) a)).
Proof.
  intros Hs Hlt. unfold step_at, Py.bind, Py.modify.
  rewrite (@step_collects (PPORun.set_frame (i_frame i) a) pre i Hs Hlt).
  reflexivity.
Qed.

Lemma step_at_trains (a : agent) (pre : list input) (i : input) :
  (forall s, update s = Ok tt) ->
  can_save a ->
  PPORun.sample a = sample_of' pre ->
  (PPORun.horizon a <= Z.of_nat (length pre))%Z ->
  exists a',
    step_at' i a = (Ok tt, a')
    /\ same_settings a a'
    /\ PPORun.sample a' = PPO.create_new_sample St Rw Dn Pr Vl Ac
    /\ PPORun.trained a' = PPORun.trained a ++ [sample_of' (pre ++ [i])].
Proof.
  intros Hup Hc Hs Hge. unfold step_at, Py.bind, Py.modify.
  destruct (@step_trains (PPORun.set_frame (i_frame i) a) pre i Hup)
    as (a' & Hrun & Hset & Hsam & Htr); [exact Hc|exact Hs|exact Hge|].
  rewrite Hrun. exists a'. split; [reflexivity|]. split; [|split; assumption].
  destruct Hset as (H1 & H2 & H3 & H4). unfold same_settings. cbn in H1, H2, H3, H4.
  repeat split; assumption.
Qed.

Lemma same_settings_trans (a b c : agent) :
  same_settings a b -> same_settings b c -> same_settings a c.
Proof.
  unfold same_settings. intros (H1 & H2 & H3 & H4) (K1 & K2 & K3 & K4).
  repeat split; congruence.
Qed.

Lemma same_settings_can_save (a b : agent) :
  same_settings a b -> can_save a -> can_save b.
Proof.
  unfold same_settings, can_save. intros (_ & H2 & H3 & _) Hc.
  rewrite H2, H3. exact Hc.
Qed.

Lemma steps_collect (l : list input) :
  forall (pre : list input) (a : agent),
    PPORun.sample a = sample_of' pre ->
    (l = [] \/ Z.of_nat (length pre + length l) <= PPORun.horizon a)%Z ->
    exists a',
      steps' l a = (Ok tt, a')
      /\ same_settings a a'
      /\ PPORun.sample a' = sample_of' (pre ++ l)
      /\ PPORun.trained a' = PPORun.trained a.
Proof.
  induction l as [|i l IH]; intros pre a Hs Hlen.
  - exists a. rewrite app_nil_r. unfold same_settings. repeat split. exact Hs.
  - destruct Hlen as [Hlen|Hlen]; [discriminate|]. cbn [length] in Hlen.
    unfold steps. cbn [Py.for_each]. unfold Py.bind.
    rewrite (@step_at_collects a pre i Hs) by lia.
    destruct (IH (pre ++ [i])
                (PPORun.set_sample (sample_of' (pre ++ [i]))
                                   (PPORun.set_frame (i_frame i) a)))
      as (a' & Hrun & Hset & Hsam & Htr).
    { reflexivity. }
    { right. rewrite length_app. cbn [length PPORun.horizon PPORun.set_sample PPORun.set_frame].
      lia. }
    exists a'. split; [exact Hrun|]. rewrite <- app_assoc in Hsam.
    split; [|split; [exact Hsam|exact Htr]].
    destruct Hset as (H1 & H2 & H3 & H4). unfold same_settings. cbn in H1, H2, H3, H4.
    repeat split; assumption.
Qed.

Lemma steps_chunk (ch : list input) (a : agent) :
  (forall s, update s = Ok tt) ->
  can_save a ->
  PPORun.sample a = PPO.create_new_sample St Rw Dn Pr Vl Ac ->
  length ch = period a ->
  exists a',
    steps' ch a = (Ok tt, a')
    /\ same_settings a a'
    /\ PPORun.sample a' = PPO.create_new_sample St Rw Dn Pr Vl Ac
    /\ PPORun.trained a' = PPORun.trained a ++ [sample_of' ch].
Proof.
  intros Hup Hc Hs Hlen. unfold period in Hlen.
  destruct (exists_last (l := ch)) as (init & i & ->).
  { intros ->. cbn in Hlen. lia. }
  rewrite length_app in Hlen. cbn [length] in Hlen.
  destruct (@steps_collect init [] a Hs) as (a1 & Hrun1 & Hset1 & Hsam1 & Htr1).
  { destruct init as [|x init]; [left; reflexivity|right].
    cbn [length Nat.add] in *. lia. }
  cbn [app] in Hsam1.
  unfold steps. rewrite for_each_app. fold (steps' init). unfold Py.bind at 1.
  rewrite Hrun1. cbn [Py.for_each]. unfold Py.bind.
  destruct (@step_at_trains a1 init i Hup) as (a2 & Hrun2 & Hset2 & Hsam2 & Htr2).
  { apply (same_settings_can_save Hset1 Hc). }
  { exact Hsam1. }
  { destruct Hset1 as (H1 & _). rewrite H1. lia. }
  rewrite Hrun2. cbn [Py.ret].
  exists a2. split; [reflexivity|]. split; [exact (same_settings_trans Hset1 Hset2)|].
  split; [exact Hsam2|]. rewrite Htr2, Htr1. reflexivity.
Qed.

Lemma steps_chunks (chunks : list (list input)) :
  (forall s, update s = Ok tt) ->
  forall a : agent,
    can_save a ->
    PPORun.sample a = PPO.create_new_sample St Rw Dn Pr Vl Ac ->
    Forall (fun ch => length ch = period a) chunks ->
    exists a',
      steps' (concat chunks) a = (Ok tt, a')
      /\ same_settings a a'
      /\ PPORun.sample a' = PPO.create_new_sample St Rw Dn Pr Vl Ac
      /\ PPORun.trained a' = PPORun.trained a ++ map sample_of' chunks.
Proof.
  intros Hup. induction chunks as [|ch chunks IH]; intros a Hc Hs Hall.
  - exists a. cbn. rewrite app_nil_r. unfold same_settings. repeat split. exact Hs.
  - inversion Hall as [|? ? Hch Hrest]; subst.
    destruct (@steps_chunk ch a Hup Hc Hs Hch) as (a1 & Hrun1 & Hset1 & Hsam1 & Htr1).
    destruct (IH a1) as (a2 & Hrun2 & Hset2 & Hsam2 & Htr2).
    { apply (same_settings_can_save Hset1 Hc). }
    { exact Hsam1. }
    { eapply Forall_impl; [|exact Hrest]. intros ch' Hl. cbn beta in Hl. rewrite Hl.
      unfold period. destruct Hset1 as (H1 & _). rewrite H1. reflexivity. }
    exists a2. cbn [concat map]. unfold steps. rewrite for_each_app.
    fold (steps' ch). fold (steps' (concat chunks)). unfold Py.bind. rewrite Hrun1.
    split; [exact Hrun2|]. split; [exact (same_settings_trans Hset1 Hset2)|].
    split; [exact Hsam2|]. rewrite Htr2, Htr1, <- app_assoc. reflexivity.
Qed.

Lemma fold_append_rewards (cs : list (PPO.step_args St Rw Dn Pr Vl Ac)) :
  forall s, PPO.states s <> [] ->
    PPO.rewards (fold_left (@PPO.append_step _ _ _ _ _ _) cs s)
    = PPO.rewards s ++ map (@PPO.a_rewards _ _ _ _ _ _) cs.
Proof.
  induction cs as [|c cs IH]; intros s Hne; cbn [fold_left map].
  - rewrite app_nil_r. reflexivity.
  - rewrite IH.
    + unfold PPO.append_step, PPO.append_to_sample.
      destruct (PPO.states s) as [|x xs]; [contradiction|].
      cbn [length Nat.eqb negb PPO.rewards]. rewrite <- app_assoc. reflexivity.
    + unfold PPO.append_step, PPO.append_to_sample.
      destruct (negb (length (PPO.states s) =? 0)); cbn [PPO.states];
        intros E; apply app_eq_nil in E; destruct E as [_ E]; discriminate.
Qed.

Lemma sample_of_rewards (i : input) (l : list input) :
  PPO.rewards (sample_of' (i :: l)) = map (@i_rewards _ _ _ _) l.
Proof.
  unfold sample_of. cbn [map fold_left]. rewrite append_first.
  rewrite fold_append_rewards by (cbn; discriminate).
  cbn [PPO.rewards app]. rewrite map_map. reflexivity.
Qed.

(** X11.  Let the update and the saving never fail, and start from a new
    sample.  Then [_train] runs at every p-th call of [_step], where
    p = max(horizon, 0) + 1: after the calls of the chunks c_1 .. c_k of p
    steps each and of less than p further steps, the samples trained on are
    those collected from c_1, .., c_k, each from a new sample, with p states
    and p - 1 rewards; the rewards of such a sample are those handed to the
    second and later steps of its chunk, so that the reward handed to the
    first step after a training enters no sample; and the sample that is
    being collected holds the further steps. *)
Theorem training_runs_every_horizon_plus_one_steps
    (chunks : list (list input)) (rest : list input) (a : agent) :
  (forall s, update s = Ok tt) ->
  can_save a ->
  PPORun.sample a = PPO.create_new_sample St Rw Dn Pr Vl Ac ->
  Forall (fun ch => length ch = period a) chunks ->
  length rest < period a ->
  exists a',
    steps' (concat chunks ++ rest) a = (Ok tt, a')
    /\ PPORun.trained a' = PPORun.trained a ++ map sample_of' chunks
    /\ PPORun.sample a' = sample_of' rest
    /\ (forall ch, In ch chunks ->
          length (PPO.states (sample_of' ch)) = period a
          /\ length (PPO.rewards (sample_of' ch)) = period a - 1
          /\ PPO.rewards (sample_of' ch) = map (@i_rewards _ _ _ _) (tl ch)).
Proof.
  intros Hup Hc Hs Hall Hrest.
  destruct (@steps_chunks chunks Hup a Hc Hs Hall) as (a1 & Hrun1 & Hset1 & Hsam1 & Htr1).
  destruct (@steps_collect rest [] a1 Hsam1) as (a2 & Hrun2 & Hset2 & Hsam2 & Htr2).
  { destruct rest as [|x rest]; [left; reflexivity|right].
    unfold period in Hrest. destruct Hset1 as (H1 & _). rewrite H1.
    cbn [length Nat.add] in *. lia. }
  exists a2. unfold steps. rewrite for_each_app.
  fold (steps' (concat chunks)). fold (steps' rest). unfold Py.bind. rewrite Hrun1.
  split; [exact Hrun2|]. split; [rewrite Htr2; exact Htr1|]. split; [exact Hsam2|].
  rewrite Forall_forall in Hall. intros ch Hch.
  rewrite sample_of_states_length, sample_of_rewards_length, (Hall ch Hch).
  split; [reflexivity|]. split; [lia|].
  destruct ch as [|i l]; [reflexivity|]. apply sample_of_rewards.
Qed.

(** X12.  Call [check_save_model] at the frames fs, one after the other, on
    an agent whose saving cannot fail (there is a save folder, or no save
    interval).  No call raises.  Without a save interval nothing is ever
    written.  With the interval d the frames at which a file is written are
    among fs, the first at least d after last_model_save_frame and each at
    least d after the one before; the file is tag_frame for each of them with
    save_intermediate_models, and the one file tag otherwise. *)
Theorem model_saves_are_an_interval_apart (fs : list Z) (a : agent) :
  can_save a ->
  exists a' new,
    save_at fs a = (Ok tt, a')
    /\ PPORun.saved a' = PPORun.saved a ++ map (name_at a) new
    /\ incl new fs
    /\ match PPORun.model_save_interval a with
       | None => new = []
       | Some d => spaced d (PPORun.last_model_save_frame a) new
       end.
Proof.
  revert a. induction fs as [|f fs IH]; intros a Hc.
  - exists a, []. cbn. rewrite app_nil_r.
    repeat split; [apply incl_refl|]. destruct (PPORun.model_save_interval a); exact I || reflexivity.
  - unfold save_at. cbn [Py.for_each]. unfold Py.bind at 1 2, Py.modify at 1.
    unfold PPORun.check_save_model at 1.
    cbn [PPORun.model_save_interval PPORun.set_frame PPORun.last_model_save_frame PPORun.frame].
    destruct (PPORun.model_save_interval a) as [d|] eqn:Ei.
    + destruct (PPORun.last_model_save_frame a + d >? f)%Z eqn:Edue.
      * destruct (IH (PPORun.set_frame f a)) as (a' & new & Hrun & Hsaved & Hincl & Hsp).
        { exact Hc. }
        exists a', new. split; [exact Hrun|]. split; [exact Hsaved|].
        split; [apply incl_tl; exact Hincl|].
        cbn [PPORun.model_save_interval PPORun.set_frame] in Hsp. rewrite Ei in Hsp.
        exact Hsp.
      * destruct Hc as [Hc|Hc]; [congruence|].
        unfold Py.bind at 1, Py.modify at 1.
        cbn [PPORun.model_save_folder PPORun.set_last_model_save_frame
             PPORun.set_frame PPORun.save_intermediate_models PPORun.frame PPORun.saved].
        destruct (PPORun.model_save_folder a) as [folder|] eqn:Ef; [|contradiction].
        match goal with
        | |- context [Py.for_each fs _ ?b] =>
            destruct (IH b) as (a' & new & Hrun & Hsaved & Hincl & Hsp)
        end.
        { right. cbn. rewrite Ef. discriminate. }
        exists a', (f :: new). split; [exact Hrun|].
        split.
        { rewrite Hsaved. cbn [PPORun.saved PPORun.set_saved map].
          rewrite <- app_assoc. reflexivity. }
        split.
        { intros x [<-|Hx]; [left; reflexivity|right; apply Hincl, Hx]. }
        cbn in Hsp. rewrite Ei in Hsp. cbn [spaced]. split; [|exact Hsp].
        rewrite Z.gtb_ltb in Edue. apply Z.ltb_ge in Edue. exact Edue.
    + destruct (IH (PPORun.set_frame f a)) as (a' & new & Hrun & Hsaved & Hincl & Hsp).
      { exact Hc. }
      cbn [PPORun.model_save_interval PPORun.set_frame] in Hsp. rewrite Ei in Hsp. subst new.
      exists a', []. split; [exact Hrun|]. split; [exact Hsaved|].
      split; [intros x []|reflexivity].
Qed.

End RunFacts.

Section WorldFacts.

Import np.

Variables St Ac Rw Dn : Type.
Variable st0 : St.
Variable ac0 : Ac.
Variable rw0 : Rw.
Variable dn0 : Dn.

Local Abbreviation agent := (MPPOUpdate.t St Ac Rw Dn).
Local Abbreviation buffer := (ReplayBuffer.t St Ac Rw Dn).

Lemma assign_slice_capacity {X} (get : buffer -> option (ndarray X)) set a b src
    (self self' : buffer) r :
  (forall v s, ReplayBuffer.capacity (set v s) = ReplayBuffer.capacity s) ->
  ReplayBuffer.assign_slice get set a b src self = (r, self') ->
  ReplayBuffer.capacity self' = ReplayBuffer.capacity self.
Proof.
  intros Hset. unfold ReplayBuffer.assign_slice.
  destruct (get self) as [dst|]; [|intros [= _ <-]; reflexivity].
  destruct (set_slice dst a b src); intros [= _ <-]; [apply Hset|reflexivity].
Qed.

Lemma bind_capacity {A B} (m : Py.M buffer A) (k : A -> Py.M buffer B) :
  (forall s r s', m s = (r, s') -> ReplayBuffer.capacity s' = ReplayBuffer.capacity s) ->
  (forall a s r s', k a s = (r, s') -> ReplayBuffer.capacity s' = ReplayBuffer.capacity s) ->
  forall s r s', Py.bind m k s = (r, s') ->
    ReplayBuffer.capacity s' = ReplayBuffer.capacity s.
Proof.
  intros Hm Hk s r s'. unfold Py.bind.
  destruct (m s) as [[a|e] s1] eqn:E.
  - intros H. rewrite (Hk _ _ _ _ H). apply (Hm _ _ _ E).
  - intros [= _ <-]. apply (Hm _ _ _ E).
Qed.

Lemma push_unchecked_capacity sts acs rws dns :
  forall (s : buffer) r s',
    ReplayBuffer._push_unchecked sts acs rws dns s = (r, s') ->
    ReplayBuffer.capacity s' = ReplayBuffer.capacity s.
Proof.
  intros s r s'. unfold ReplayBuffer._push_unchecked. cbv zeta.
  do 4 (apply bind_capacity;
        [intros ? ? ? ?; eapply assign_slice_capacity; [|eassumption]; reflexivity
        |intros _]).
  intros s1 r1 s1' [= _ <-]. reflexivity.
Qed.

Lemma push_capacity sts acs rws dns :
  forall (s : buffer) r s',
    ReplayBuffer.push st0 ac0 rw0 dn0 sts acs rws dns s = (r, s') ->
    ReplayBuffer.capacity s' = ReplayBuffer.capacity s.
Proof.
  intros s r s'. unfold ReplayBuffer.push.
  apply bind_capacity.
  { unfold Py.assert. intros s1 r1 s1'.
    destruct (ReplayBuffer.same_shape2 rws dns); intros [= _ <-]; reflexivity. }
  intros _. apply bind_capacity.
  { unfold Py.assert. intros s1 r1 s1'.
    destruct (ReplayBuffer.same_shape2 rws sts && ReplayBuffer.same_shape2 rws acs);
      intros [= _ <-]; reflexivity. }
  intros _. apply bind_capacity.
  { intros s1 r1 s1'. destruct (ReplayBuffer.states s1); intros [= _ <-]; reflexivity. }
  intros _ s1 r1 s1'.
  destruct (ReplayBuffer.index s1 + shape0 sts <=? ReplayBuffer.capacity s1).
  { apply push_unchecked_capacity. }
  cbv zeta.
  apply bind_capacity; [apply push_unchecked_capacity|intros _].
  apply bind_capacity; [intros ? ? ? [= _ <-]; reflexivity|intros _].
  apply bind_capacity; [apply push_unchecked_capacity|intros _].
  intros ? ? ? [= _ <-]; reflexivity.
Qed.

Lemma len_le_capacity (s : buffer) : ReplayBuffer.__len__ s <= ReplayBuffer.capacity s.
Proof. unfold ReplayBuffer.__len__. lia. Qed.

Lemma len_le_valid (s : buffer) : ReplayBuffer.__len__ s <= valid s.
Proof.
  unfold ReplayBuffer.__len__, valid. destruct (ReplayBuffer.full_loop s); lia.
Qed.

(** X8.  The constructor of MPPO accepts a replay buffer whose size is
    exactly world_train_iters * world_train_rollouts * world_train_horizon,
    but [_ppo_update] asks for more rows than that before it trains the
    world model: with an agent whose buffer capacity is not above the
    product, no run of [_ppo_update] gets to world training, whatever has
    been pushed and whatever the data is, and the capacity and the settings
    are the same after the call, so that this stays so for the life of the
    agent. *)
Theorem world_training_needs_spare_capacity
    (replay_buffer_size : nat) (iters rollouts horizon : Z) :
  Z.of_nat replay_buffer_size = (iters * rollouts * horizon)%Z ->
  (exists a : agent,
      MPPOUpdate.__init__ St Ac Rw Dn replay_buffer_size iters rollouts horizon = Ok a
      /\ (Z.of_nat (ReplayBuffer.capacity (MPPOUpdate.replay_buffer a)) <= world_batch a)%Z)
  /\ forall (a : agent) data res a',
       (Z.of_nat (ReplayBuffer.capacity (MPPOUpdate.replay_buffer a)) <= world_batch a)%Z ->
       In (res, a') (MPPOUpdate._ppo_update st0 ac0 rw0 dn0 data a) ->
       (forall b, res <> Ok (Some b))
       /\ world_batch a' = world_batch a
       /\ ReplayBuffer.capacity (MPPOUpdate.replay_buffer a')
          = ReplayBuffer.capacity (MPPOUpdate.replay_buffer a).
Proof.
  intros Hsize. split.
  - unfold MPPOUpdate.__init__.
    assert (E : (Z.of_nat replay_buffer_size >=? iters * rollouts * horizon)%Z = true).
    { rewrite Z.geb_leb. apply Z.leb_le. lia. }
    rewrite E. eexists. split; [reflexivity|].
    unfold world_batch. cbn. lia.
  - intros a data res a' Hcap Hin.
    unfold MPPOUpdate._ppo_update, MPPOUpdate._update_replay_buffer in Hin.
    destruct (ReplayBuffer.push st0 ac0 rw0 dn0 (MPPOUpdate.states data)
                (MPPOUpdate.actions data) (MPPOUpdate.rewards data)
                (MPPOUpdate.dones data) (MPPOUpdate.replay_buffer a))
      as [r buf] eqn:Epush.
    pose proof (push_capacity _ _ _ _ _ Epush) as Hc.
    destruct r as [u|e].
    + cbn [MPPOUpdate.replay_buffer MPPOUpdate.set_replay_buffer
           MPPOUpdate.world_train_iters MPPOUpdate.world_train_rollouts
           MPPOUpdate.world_train_horizon] in Hin.
      assert (E : (Z.of_nat (ReplayBuffer.__len__ buf)
                   >? MPPOUpdate.world_train_iters a * MPPOUpdate.world_train_rollouts a
                      * MPPOUpdate.world_train_horizon a)%Z = false).
      { rewrite Z.gtb_ltb. apply Z.ltb_ge.
        pose proof (len_le_capacity buf). unfold world_batch in Hcap. lia. }
      rewrite E in Hin. destruct Hin as [[= <- <-]|[]].
      split; [discriminate|]. split; [reflexivity|exact Hc].
    + destruct Hin as [[= <- <-]|[]].
      split; [discriminate|]. split; [reflexivity|exact Hc].
Qed.

(** X9.  When the push of [_ppo_update] has gone through on a buffer built
    by successful pushes, with at least one actor and settings that are not
    negative, the update never fails on the draw of the world batch: either
    the buffer reports no more than iters * rollouts * horizon rows and
    world training is skipped, or each run of the draw returns a batch of
    rollouts * iters windows of horizon rows and leaves the buffer as the
    push left it. *)
Theorem world_batch_draw_never_raises
    (Ps : St -> Prop) (Pa : Ac -> Prop) (Pr : Rw -> Prop) (Pd : Dn -> Prop)
    (a a1 : agent) data sts :
  MPPOUpdate._update_replay_buffer st0 ac0 rw0 dn0 data a = (Ok tt, a1) ->
  reachable st0 ac0 rw0 dn0 Ps Pa Pr Pd (MPPOUpdate.replay_buffer a1) ->
  ReplayBuffer.states (MPPOUpdate.replay_buffer a1) = Some sts ->
  0 < shape1 sts ->
  (0 <= MPPOUpdate.world_train_iters a)%Z ->
  (0 <= MPPOUpdate.world_train_rollouts a)%Z ->
  (0 <= MPPOUpdate.world_train_horizon a)%Z ->
  let runs := MPPOUpdate._ppo_update st0 ac0 rw0 dn0 data a in
  runs <> []
  /\ forall res a', In (res, a') runs ->
       a' = a1
       /\ ((res = Ok None
            /\ (Z.of_nat (ReplayBuffer.__len__ (MPPOUpdate.replay_buffer a1))
                <= world_batch a)%Z)
           \/ (exists b,
                 res = Ok (Some b)
                 /\ (world_batch a
                     < Z.of_nat (ReplayBuffer.__len__ (MPPOUpdate.replay_buffer a1)))%Z
                 /\ batch_ok (Z.to_nat (MPPOUpdate.world_train_rollouts a
                                        * MPPOUpdate.world_train_iters a))
                             (Z.to_nat (MPPOUpdate.world_train_horizon a)) b)).
Proof.
  intros Hpush Hreach Hsts HA Hi Hr Hh runs. subst runs.
  unfold MPPOUpdate._ppo_update. rewrite Hpush.
  assert (Hset : MPPOUpdate.world_train_iters a1 = MPPOUpdate.world_train_iters a
                 /\ MPPOUpdate.world_train_rollouts a1 = MPPOUpdate.world_train_rollouts a
                 /\ MPPOUpdate.world_train_horizon a1 = MPPOUpdate.world_train_horizon a).
  { unfold MPPOUpdate._update_replay_buffer in Hpush.
    destruct (ReplayBuffer.push st0 ac0 rw0 dn0 (MPPOUpdate.states data)
                (MPPOUpdate.actions data) (MPPOUpdate.rewards data)
                (MPPOUpdate.dones data) (MPPOUpdate.replay_buffer a)) as [r buf].
    injection Hpush as _ <-. repeat split. }
  destruct Hset as (Ei & Er & Eh). rewrite Ei, Er, Eh.
  fold (world_batch a).
  destruct (Z.of_nat (ReplayBuffer.__len__ (MPPOUpdate.replay_buffer a1)) >? world_batch a)%Z
    eqn:Egate.
  - rewrite Z.gtb_ltb in Egate. apply Z.ltb_lt in Egate.
    unfold MPPOUpdate._train_world. rewrite Ei, Er, Eh, map_map.
    set (rollouts := (MPPOUpdate.world_train_rollouts a * MPPOUpdate.world_train_iters a)%Z).
    set (horizon := MPPOUpdate.world_train_horizon a).
    set (buf := MPPOUpdate.replay_buffer a1) in *.
    assert (Hro : (0 <= rollouts)%Z) by (unfold rollouts; nia).
    assert (Hruns : ReplayBuffer.sample st0 ac0 rw0 dn0 rollouts horizon buf <> []
             /\ forall res s',
               In (res, s') (ReplayBuffer.sample st0 ac0 rw0 dn0 rollouts horizon buf) ->
               s' = buf /\ exists out, res = Ok out
                 /\ batch_ok (Z.to_nat rollouts) (Z.to_nat horizon) out).
    { destruct (Z.eq_dec rollouts 0) as [E0|E0].
      - rewrite E0. apply reachable_inv in Hreach.
        destruct Hreach as [(Hnone & _)|(A & Hf & _)]; [congruence|].
        destruct Hf as ((ds & Hs & _) & (da & Ha & _) & (dr & Hr' & _) & (dd & Hd & _)).
        assert (Ez : forall X (z : X), zeros z horizon 0
                  = Ok (mk_ndarray 0 (repeat [] (Z.to_nat horizon)))).
        { intros X z. unfold zeros.
          assert (E1 : (horizon <? 0)%Z = false) by (apply Z.ltb_ge; unfold horizon; lia).
          rewrite E1. reflexivity. }
        unfold ReplayBuffer.sample.
        erewrite pbind_attr_some by exact Hs. rewrite Ez, pbind_lift_ok.
        erewrite pbind_attr_some by exact Ha. rewrite Ez, pbind_lift_ok.
        erewrite pbind_attr_some by exact Hr'. rewrite Ez, pbind_lift_ok.
        erewrite pbind_attr_some by exact Hd. rewrite Ez, pbind_lift_ok.
        cbn [Z.to_nat seq ReplayBuffer.sample_loop ReplayBuffer.pret].
        split; [discriminate|].
        intros res s' [[= <- <-]|[]].
        split; [reflexivity|]. eexists. split; [reflexivity|].
        repeat apply conj; cbn [ReplayBuffer.b_states ReplayBuffer.b_actions
          ReplayBuffer.b_rewards ReplayBuffer.b_dones shape1 rows]; try reflexivity;
          try (unfold shape0; cbn [rows]; apply repeat_length);
          apply Forall_forall; intros row Hrow; apply repeat_spec in Hrow; subst row;
          reflexivity.
      - assert (Hv : (horizon < Z.of_nat (valid buf))%Z).
        { pose proof (len_le_valid buf) as Hlv. unfold world_batch in Egate.
          fold horizon in Egate.
          assert (1 <= MPPOUpdate.world_train_iters a * MPPOUpdate.world_train_rollouts a)%Z.
          { unfold rollouts in *. nia. }
          assert (horizon <= MPPOUpdate.world_train_iters a
                             * MPPOUpdate.world_train_rollouts a * horizon)%Z.
          { unfold horizon in *. nia. }
          lia. }
        destruct (@sample_all_return _ _ _ _ st0 ac0 rw0 dn0 Ps Pa Pr Pd buf sts rollouts horizon
                    Hreach Hsts HA Hro (conj Hh Hv)) as (Hlen & Hall).
        split; [|exact Hall].
        intros E. rewrite E in Hlen. cbn [length] in Hlen.
        assert (Hpos : 0 < shape1 sts * (valid buf - Z.to_nat horizon)) by nia.
        pose proof (Nat.pow_nonzero (shape1 sts * (valid buf - Z.to_nat horizon))
                      (Z.to_nat rollouts)) as Hnz.
        lia. }
    destruct Hruns as (Hne & Hruns).
    split.
    + intros E. apply map_eq_nil in E. exact (Hne E).
    + intros res a' Hin. apply in_map_iff in Hin.
      destruct Hin as ([r s'] & E & Hin). cbn [fst snd] in E.
      destruct (Hruns _ _ Hin) as (-> & out & -> & Hok).
      injection E as <- <-.
      split.
      { unfold buf. destruct a1; reflexivity. }
      right. exists out. split; [reflexivity|]. split; [exact Egate|exact Hok].
  - rewrite Z.gtb_ltb in Egate. apply Z.ltb_ge in Egate.
    split; [discriminate|].
    intros res a' [[= <- <-]|[]]. split; [reflexivity|].
    left. split; [reflexivity|exact Egate].
Qed.

End WorldFacts.

Section TrainerFacts.

Variable choice : Z -> nat -> nat -> list nat.

Local Abbreviation trainer := MultiplayerEnvTrainer.t.
Local Abbreviation step' := (MultiplayerEnvTrainer.step choice).
Local Abbreviation train' := (MultiplayerEnvTrainer.train choice).


Lemma try_update_selection_cases (a : trainer) :
  selection_ready a ->
  (exists sel c,
      MultiplayerEnvTrainer.selected_algs a = Some sel /\ MultiplayerEnvTrainer.selection_change_frame a = Some c
      /\ (MultiplayerEnvTrainer.frame a < c + MultiplayerEnvTrainer.selection_train_frames a)%Z
      /\ MultiplayerEnvTrainer._try_update_selection choice a = (Ok tt, a))
  \/ ((MultiplayerEnvTrainer.selected_algs a = None
       \/ exists c, MultiplayerEnvTrainer.selection_change_frame a = Some c
                    /\ (c + MultiplayerEnvTrainer.selection_train_frames a <= MultiplayerEnvTrainer.frame a)%Z)
      /\ MultiplayerEnvTrainer._try_update_selection choice a
         = (Ok tt,
            MultiplayerEnvTrainer.mk (MultiplayerEnvTrainer.population_size a) (MultiplayerEnvTrainer.selection_train_frames a) (MultiplayerEnvTrainer.num_envs a)
                 (MultiplayerEnvTrainer.num_players a) (MultiplayerEnvTrainer.frame a)
                 (Some (choice (MultiplayerEnvTrainer.frame a) (MultiplayerEnvTrainer.population_size a) (MultiplayerEnvTrainer.num_players a)))
                 (Some (MultiplayerEnvTrainer.frame a))
                 (MultiplayerEnvTrainer.printed a ++ [MultiplayerEnvTrainer.frame a])
                 (MultiplayerEnvTrainer.dropped a ++ match MultiplayerEnvTrainer.selected_algs a with
                                 | Some algs => [algs]
                                 | None => []
                                 end)
                 (MultiplayerEnvTrainer.stepped a))).
Proof.
  intros (Hpop & Hsel). apply Nat.leb_le in Hpop.
  destruct a as [pop d envs players f sel c pr dr st].
  unfold MultiplayerEnvTrainer._try_update_selection, Py.bind, Py.modify.
  cbn -[Nat.leb Z.gtb Z.add] in *.
  destruct sel as [sel|].
  - destruct Hsel as [Hsel|Hsel]; [discriminate|].
    destruct c as [c|]; [|contradiction].
    destruct (c + d >? f)%Z eqn:Ek.
    + left. exists sel, c. rewrite Z.gtb_ltb in Ek. apply Z.ltb_lt in Ek.
      repeat split; try reflexivity; assumption.
    + right. rewrite Z.gtb_ltb in Ek. apply Z.ltb_ge in Ek.
      split; [right; exists c; split; [reflexivity|exact Ek]|].
      cbn -[Nat.leb Z.gtb Z.add]. rewrite Hpop. reflexivity.
  - right. split; [left; reflexivity|].
    cbn -[Nat.leb Z.gtb Z.add]. rewrite Hpop, app_nil_r. reflexivity.
Qed.

Lemma step_runs (a : trainer) (flag : bool) :
  selection_ready a ->
  exists a',
    step' flag a = (Ok tt, a')
    /\ selection_ready a'
    /\ same_trainer a a'
    /\ MultiplayerEnvTrainer.frame a' = (MultiplayerEnvTrainer.frame a + MultiplayerEnvTrainer.num_envs a)%Z
    /\ MultiplayerEnvTrainer.stepped a' = MultiplayerEnvTrainer.stepped a ++ [(MultiplayerEnvTrainer.frame a, flag)].
Proof.
  intros Hready. unfold MultiplayerEnvTrainer.step, Py.bind.
  destruct (try_update_selection_cases Hready) as [(sel & c & Es & Ec & _ & ->)|(_ & ->)].
  - unfold Py.modify. eexists. split; [reflexivity|]. cbn.
    unfold selection_ready, same_trainer in *. cbn. rewrite Ec.
    repeat split; try apply Hready. right. discriminate.
  - unfold Py.modify. eexists. split; [reflexivity|]. cbn.
    unfold selection_ready, same_trainer in *. cbn.
    repeat split; try apply Hready. right. discriminate.
Qed.

Lemma steps_of_train_one f e : steps_of_train f e 1 = [(f, true)].
Proof. unfold steps_of_train. cbn. rewrite Z.add_0_r. reflexivity. Qed.

Lemma steps_of_train_succ f e n :
  0 < n -> steps_of_train f e (S n) = (f, false) :: steps_of_train (f + e)%Z e n.
Proof.
  intros Hn. unfold steps_of_train. cbn [seq map].
  rewrite <- seq_shift, map_map. f_equal.
  - rewrite Z.add_0_r. f_equal. destruct n; [lia|reflexivity].
  - apply map_ext. intros k. f_equal; [lia|].
    destruct n; [lia|]. cbn. rewrite Nat.sub_0_r. reflexivity.
Qed.

Lemma steps_needed_stop (a : trainer) max_frames :
  (0 < MultiplayerEnvTrainer.num_envs a)%Z ->
  (max_frames <= MultiplayerEnvTrainer.frame a + MultiplayerEnvTrainer.num_envs a)%Z ->
  steps_needed a max_frames = 1.
Proof.
  intros He Hstop. unfold steps_needed.
  assert ((max_frames - MultiplayerEnvTrainer.frame a + MultiplayerEnvTrainer.num_envs a - 1) / MultiplayerEnvTrainer.num_envs a <= 1)%Z.
  { apply Z.lt_succ_r. apply Z.div_lt_upper_bound; lia. }
  rewrite Z.max_l by lia. reflexivity.
Qed.

Lemma steps_needed_go (a a' : trainer) max_frames :
  (0 < MultiplayerEnvTrainer.num_envs a)%Z ->
  (MultiplayerEnvTrainer.frame a + MultiplayerEnvTrainer.num_envs a < max_frames)%Z ->
  MultiplayerEnvTrainer.num_envs a' = MultiplayerEnvTrainer.num_envs a ->
  MultiplayerEnvTrainer.frame a' = (MultiplayerEnvTrainer.frame a + MultiplayerEnvTrainer.num_envs a)%Z ->
  steps_needed a max_frames = S (steps_needed a' max_frames)
  /\ 0 < steps_needed a' max_frames.
Proof.
  intros He Hgo Hn Hf. unfold steps_needed. rewrite Hn, Hf.
  set (e := MultiplayerEnvTrainer.num_envs a) in *. set (X := (max_frames - MultiplayerEnvTrainer.frame a - 1)%Z).
  replace (max_frames - MultiplayerEnvTrainer.frame a + e - 1)%Z with (X + 1 * e)%Z by (unfold X; lia).
  replace (max_frames - (MultiplayerEnvTrainer.frame a + e) + e - 1)%Z with X by (unfold X; lia).
  rewrite Z.div_add by lia.
  assert (1 <= X / e)%Z by (apply Z.div_le_lower_bound; unfold X; lia).
  rewrite !Z.max_r by lia. split; lia.
Qed.

Lemma train_runs (fuel : nat) :
  forall (a : trainer) max_frames,
    selection_ready a ->
    (0 < MultiplayerEnvTrainer.num_envs a)%Z ->
    steps_needed a max_frames <= fuel ->
    exists a',
      train' fuel max_frames a = (Ok (Some tt), a')
      /\ MultiplayerEnvTrainer.frame a' = (MultiplayerEnvTrainer.frame a + Z.of_nat (steps_needed a max_frames) * MultiplayerEnvTrainer.num_envs a)%Z
      /\ MultiplayerEnvTrainer.stepped a'
         = MultiplayerEnvTrainer.stepped a ++ steps_of_train (MultiplayerEnvTrainer.frame a) (MultiplayerEnvTrainer.num_envs a) (steps_needed a max_frames).
Proof.
  induction fuel as [|fuel IH]; intros a max_frames Hready He Hfuel.
  - unfold steps_needed in Hfuel. lia.
  - cbn [MultiplayerEnvTrainer.train]. unfold Py.bind at 1, Py.get at 1.
    destruct (MultiplayerEnvTrainer.frame a + MultiplayerEnvTrainer.num_envs a >=? max_frames)%Z eqn:Estop.
    + rewrite Z.geb_leb in Estop. apply Z.leb_le in Estop.
      destruct (@step_runs a true Hready) as (a1 & Hrun & _ & _ & Hf & Hs).
      unfold Py.bind. rewrite Hrun. cbn [Py.ret].
      exists a1. rewrite (steps_needed_stop a He Estop), steps_of_train_one.
      split; [reflexivity|]. split; [lia|exact Hs].
    + rewrite Z.geb_leb in Estop. apply Z.leb_gt in Estop.
      destruct (@step_runs a false Hready) as (a1 & Hrun & Hready1 & Hsame & Hf & Hs).
      unfold Py.bind. rewrite Hrun.
      destruct Hsame as (_ & _ & Hn & _).
      destruct (@steps_needed_go a a1 max_frames He Estop Hn Hf) as (En & Hpos).
      destruct (IH a1 max_frames Hready1) as (a2 & Hrun2 & Hf2 & Hs2); [lia|lia|].
      exists a2. split; [exact Hrun2|]. rewrite En, steps_of_train_succ by exact Hpos.
      split.
      * rewrite Hf2, Hf, Hn. lia.
      * rewrite Hs2, Hs, Hn, Hf, <- app_assoc. reflexivity.
Qed.

(** X18.  With num_envs > 0, on a trainer between two steps, and as long
    as the environment and the algorithms return, [train] returns, after
    max(1, ceil((max_frames - frame) / num_envs)) steps: at
    least one, also when the frame counter has reached max_frames before
    the call.  The steps are made at the frames frame, frame + num_envs,
    ..., always_log is set at the last of them and at no other, and the
    frame counter ends at or above max_frames. *)
Theorem train_stops_when_the_frames_are_reached (a : trainer) (max_frames : Z) (fuel : nat) :
  selection_ready a ->
  (0 < MultiplayerEnvTrainer.num_envs a)%Z ->
  steps_needed a max_frames <= fuel ->
  let n := steps_needed a max_frames in
  exists a',
    train' fuel max_frames a = (Ok (Some tt), a')
    /\ 1 <= n
    /\ MultiplayerEnvTrainer.frame a' = (MultiplayerEnvTrainer.frame a + Z.of_nat n * MultiplayerEnvTrainer.num_envs a)%Z
    /\ (max_frames <= MultiplayerEnvTrainer.frame a')%Z
    /\ MultiplayerEnvTrainer.stepped a' = MultiplayerEnvTrainer.stepped a ++ steps_of_train (MultiplayerEnvTrainer.frame a) (MultiplayerEnvTrainer.num_envs a) n.
Proof.
  intros Hready He Hfuel n.
  destruct (@train_runs fuel a max_frames Hready He Hfuel) as (a' & Hrun & Hf & Hs).
  exists a'. split; [exact Hrun|]. fold n in Hf, Hs.
  assert (Hn : 1 <= n) by (unfold n, steps_needed; lia).
  split; [exact Hn|]. split; [exact Hf|]. split; [|exact Hs].
  rewrite Hf. unfold n, steps_needed.
  set (e := MultiplayerEnvTrainer.num_envs a) in *. set (Y := (max_frames - MultiplayerEnvTrainer.frame a + e - 1)%Z).
  pose proof (Z.div_mod Y e ltac:(lia)) as Hdm.
  pose proof (Z.mod_pos_bound Y e He) as Hmod.
  destruct (Z.max_spec 1 (Y / e)) as [[Hlt ->]|[Hge ->]]; rewrite Z2Nat.id by lia; unfold Y in *; nia.
Qed.

(** X19.  With num_envs <= 0 and a frame counter that num_envs does not
    bring to max_frames, [train] never returns: on a trainer between two
    steps the loop is still running after any number of turns, and it has
    made a step, without always_log, in each of them. *)
Theorem train_never_returns_without_environments (a : trainer) (max_frames : Z) :
  selection_ready a ->
  (MultiplayerEnvTrainer.num_envs a <= 0)%Z ->
  (MultiplayerEnvTrainer.frame a + MultiplayerEnvTrainer.num_envs a < max_frames)%Z ->
  forall fuel,
    exists a',
      train' fuel max_frames a = (Ok None, a')
      /\ MultiplayerEnvTrainer.stepped a'
         = MultiplayerEnvTrainer.stepped a
           ++ map (fun k => ((MultiplayerEnvTrainer.frame a + Z.of_nat k * MultiplayerEnvTrainer.num_envs a)%Z, false)) (seq 0 fuel).
Proof.
  intros Hready He Hlt fuel. revert a Hready He Hlt.
  induction fuel as [|fuel IH]; intros a Hready He Hlt.
  - exists a. cbn. rewrite app_nil_r. split; reflexivity.
  - cbn [MultiplayerEnvTrainer.train]. unfold Py.bind at 1, Py.get at 1.
    assert (Estop : (MultiplayerEnvTrainer.frame a + MultiplayerEnvTrainer.num_envs a >=? max_frames)%Z = false).
    { rewrite Z.geb_leb. apply Z.leb_gt. exact Hlt. }
    rewrite Estop.
    destruct (@step_runs a false Hready) as (a1 & Hrun & Hready1 & Hsame & Hf & Hs).
    unfold Py.bind. rewrite Hrun.
    destruct Hsame as (_ & _ & Hn & _).
    destruct (IH a1 Hready1) as (a2 & Hrun2 & Hs2); [lia|lia|].
    exists a2. split; [exact Hrun2|].
    rewrite Hs2, Hs, Hn, Hf, <- app_assoc. cbn [seq map app]. f_equal.
    rewrite Z.add_0_r. f_equal.
    rewrite <- seq_shift, map_map. apply map_ext. intros k. f_equal. lia.
Qed.

Lemma spaced_snoc d x l f :
  spaced d x l -> (last l x + d <= f)%Z -> spaced d x (l ++ [f]).
Proof.
  revert x. induction l as [|y l IH]; intros x Hsp Hf.
  - cbn in *. split; [exact Hf|exact I].
  - destruct Hsp as [Hxy Hsp]. cbn [app spaced]. split; [exact Hxy|].
    apply IH; [exact Hsp|].
    replace (last l y) with (last (y :: l) x); [exact Hf|].
    clear. revert y. induction l as [|z l IH]; intros y; [reflexivity|].
    cbn [last] in *. destruct l; [reflexivity|]. apply IH.
Qed.

Lemma last_cons {X} (x d : X) (l : list X) : last (x :: l) d = last l x.
Proof.
  revert x. induction l as [|z l IH]; intros x; [reflexivity|].
  cbn [last] in *. destruct l; [reflexivity|]. apply IH.
Qed.

Lemma step_keeps_selection_log (a : trainer) (flag : bool) :
  selection_ready a ->
  selection_log_ok choice a ->
  exists a',
    step' flag a = (Ok tt, a')
    /\ selection_ready a'
    /\ selection_log_ok choice a'
    /\ same_trainer a a'
    /\ MultiplayerEnvTrainer.frame a'
       = (MultiplayerEnvTrainer.frame a + MultiplayerEnvTrainer.num_envs a)%Z
    /\ (MultiplayerEnvTrainer.printed a = []
        -> MultiplayerEnvTrainer.printed a' = [MultiplayerEnvTrainer.frame a])
    /\ (forall f0 rest, MultiplayerEnvTrainer.printed a = f0 :: rest ->
          exists rest', MultiplayerEnvTrainer.printed a' = f0 :: rest').
Proof.
  intros Hready Hlog. unfold MultiplayerEnvTrainer.step, Py.bind.
  destruct (try_update_selection_cases Hready) as [(sel & c & Es & Ec & _ & ->)|(Hdue & ->)].
  - unfold Py.modify. eexists. split; [reflexivity|].
    destruct a as [pop d envs players f sel' c' pr dr st].
    unfold selection_ready, selection_log_ok, same_trainer, earlier_selections in *.
    cbn -[Nat.leb Z.gtb Z.add last removelast] in *. subst sel' c'.
    split; [split; [apply Hready|right; discriminate]|].
    split; [exact Hlog|]. split; [repeat split|]. split; [reflexivity|].
    split.
    + intros ->. destruct Hlog as (Hn & _). discriminate.
    + intros f0 rest ->. exists rest. reflexivity.
  - unfold Py.modify. eexists. split; [reflexivity|].
    destruct a as [pop d envs players f sel c pr dr st].
    unfold selection_ready, selection_log_ok, same_trainer, earlier_selections in *.
    cbn -[Nat.leb Z.gtb Z.add last removelast] in *.
    split; [split; [apply Hready|right; discriminate]|].
    split; [|split; [repeat split|split; [reflexivity|split]]].
    + destruct pr as [|f0 rest].
      * destruct Hlog as (-> & -> & ->). cbn. repeat split.
      * destruct Hlog as (Hsp & -> & -> & ->). cbn [app].
        destruct Hdue as [Hdue|(c & [= <-] & Hdue)]; [discriminate|].
        rewrite last_last.
        split; [apply spaced_snoc; assumption|]. split; [reflexivity|].
        split; [reflexivity|].
        change (f0 :: rest ++ [f]) with ((f0 :: rest) ++ [f]).
        rewrite removelast_last.
        rewrite (app_removelast_last f0 (l := f0 :: rest)) at 2 by discriminate.
        rewrite map_app, last_cons. reflexivity.
    + intros ->. reflexivity.
    + intros f0 rest ->. exists (rest ++ [f]). reflexivity.
Qed.

Lemma run_steps_keep_selection_log (flags : list bool) :
  forall a : trainer,
    selection_ready a ->
    selection_log_ok choice a ->
    exists a',
      run_steps choice flags a = (Ok tt, a')
      /\ selection_ready a'
      /\ selection_log_ok choice a'
      /\ same_trainer a a'
      /\ MultiplayerEnvTrainer.frame a'
         = (MultiplayerEnvTrainer.frame a
            + Z.of_nat (length flags) * MultiplayerEnvTrainer.num_envs a)%Z
      /\ (MultiplayerEnvTrainer.printed a = [] -> flags <> [] ->
          exists rest, MultiplayerEnvTrainer.printed a' = MultiplayerEnvTrainer.frame a :: rest)
      /\ (forall f0 rest, MultiplayerEnvTrainer.printed a = f0 :: rest ->
            exists rest', MultiplayerEnvTrainer.printed a' = f0 :: rest').
Proof.
  induction flags as [|flag flags IH]; intros a Hready Hlog.
  - exists a. split; [reflexivity|]. split; [exact Hready|]. split; [exact Hlog|].
    split; [repeat split|]. split; [cbn; lia|]. split; [intros _ H; contradiction|].
    intros f0 rest ->. exists rest. reflexivity.
  - destruct (@step_keeps_selection_log a flag Hready Hlog)
      as (a1 & Hrun1 & Hready1 & Hlog1 & Hsame1 & Hf1 & Hfirst1 & Hkeep1).
    destruct (IH a1 Hready1 Hlog1)
      as (a2 & Hrun2 & Hready2 & Hlog2 & Hsame2 & Hf2 & _ & Hkeep2).
    exists a2. unfold run_steps. cbn [Py.for_each]. unfold Py.bind. rewrite Hrun1.
    split; [exact Hrun2|]. split; [exact Hready2|]. split; [exact Hlog2|].
    destruct Hsame1 as (S1 & S2 & S3 & S4). destruct Hsame2 as (S1' & S2' & S3' & S4').
    split; [unfold same_trainer; repeat split; congruence|].
    split; [rewrite Hf2, Hf1, S3; cbn [length]; lia|].
    split.
    + intros Hnil _. apply (Hkeep2 _ []). apply Hfirst1, Hnil.
    + intros f0 rest Hpr. destruct (Hkeep1 _ _ Hpr) as (rest1 & Hpr1).
      apply (Hkeep2 _ _ Hpr1).
Qed.

(** X20.  In a trainer made by [__init__] the selection of the players
    never raises, over any number of steps.  The first step selects players,
    at frame 0;
    after that the selection is changed only at frames that are at least
    selection_train_frames after the change before; the selection in use
    is the one drawn at the last change; and drop_collected_steps has been
    called for the selections made before, once each and in their order,
    and for no other. *)
Theorem selection_changes_are_spaced
    (population_size : nat) (selection_train_frames num_envs : Z) (num_players : nat)
    (flags : list bool) :
  num_players <= population_size ->
  exists a0 a',
    MultiplayerEnvTrainer.__init__ population_size selection_train_frames num_envs num_players
    = Ok a0
    /\ run_steps choice flags a0 = (Ok tt, a')
    /\ MultiplayerEnvTrainer.frame a' = (Z.of_nat (length flags) * num_envs)%Z
    /\ selection_log_ok choice a'
    /\ MultiplayerEnvTrainer.selection_train_frames a' = selection_train_frames
    /\ (flags <> [] -> exists rest, MultiplayerEnvTrainer.printed a' = 0%Z :: rest).
Proof.
  intros Hpop. unfold MultiplayerEnvTrainer.__init__.
  apply Nat.leb_le in Hpop. rewrite Hpop. apply Nat.leb_le in Hpop.
  eexists. 
  match goal with
  | |- exists a', Ok ?a0 = _ /\ _ =>
      destruct (@run_steps_keep_selection_log flags a0)
        as (a' & Hrun & _ & Hlog & Hsame & Hf & Hfirst & _)
  end.
  { split; [exact Hpop|left; reflexivity]. }
  { unfold selection_log_ok. cbn. repeat split. }
  exists a'. split; [reflexivity|]. split; [exact Hrun|].
  cbn in Hf, Hfirst. split; [rewrite Hf; lia|]. split; [exact Hlog|].
  split; [apply Hsame|]. intros Hne. apply Hfirst; [reflexivity|exact Hne].
Qed.

End TrainerFacts.

(** ** The properties above on small inputs *)

Lemma push_below_capacity_appends_witness :
  let self := ReplayBuffer.mk 4 (Some stored_123) (Some stored_123) (Some stored_123)
                              (Some stored_123) 3 false in
  let res := ReplayBuffer.push 0 0 0 0 (rollout [4]) (rollout [4]) (rollout [4]) (rollout [4])
                               self in
  3 + np.shape0 (rollout [4]) <= 4
  /\ fst res = Ok tt
  /\ ReplayBuffer.index (snd res) = 3 + np.shape0 (rollout [4])
  /\ ReplayBuffer.full_loop (snd res) = false.
Proof.
  intros self res.
  assert (F : fits 4 1 (np.shape0 (rollout [4])) stored_123 (rollout [4]))
    by (repeat split; reflexivity).
  assert (H : 3 + np.shape0 (rollout [4]) <= 4) by (cbn; lia).
  split; [exact H|].
  destruct (@push_below_capacity_appends nat nat nat nat 0 0 0 0 4 1
              stored_123 stored_123 stored_123 stored_123 3 false
              (rollout [4]) (rollout [4]) (rollout [4]) (rollout [4]) F F F F H)
    as (H1 & H2 & H3 & _).
  split; [exact H1|]. split; [exact H2|exact H3].
Defined.

Lemma push_refuses_mismatched_shapes_witness :
  ReplayBuffer.same_shape2 (rollout [1]) (rollout [1; 2]) = false
  /\ ReplayBuffer.push 0 0 0 0 (rollout [1; 2]) (rollout [1]) (rollout [1]) (rollout [1])
       (ReplayBuffer.__init__ nat nat nat nat 4)
     = (Raise AssertionError, ReplayBuffer.__init__ nat nat nat nat 4).
Proof.
  assert (H : ReplayBuffer.same_shape2 (rollout [1]) (rollout [1; 2]) = false) by reflexivity.
  split; [exact H|].
  apply (@push_refuses_mismatched_shapes nat nat nat nat 0 0 0 0
           (ReplayBuffer.__init__ nat nat nat nat 4)
           (rollout [1; 2]) (rollout [1]) (rollout [1]) (rollout [1])).
  right. left. exact H.
Defined.

Lemma push_longer_than_capacity_raises_witness :
  let ds := np.mk_ndarray 1 [[0]; [0]] in
  let sts := rollout [1; 2; 3; 4; 5] in
  2 * 2 < 0 + np.shape0 sts
  /\ 1 < np.shape0 sts - (2 - 0)
  /\ ReplayBuffer.push 0 0 0 0 sts sts sts sts
       (ReplayBuffer.mk 2 (Some ds) (Some ds) (Some ds) (Some ds) 0 false)
     = (Raise ValueError,
        ReplayBuffer.mk 2
          (Some (put ds 0 (np.slice_to (-3) sts))) (Some (put ds 0 (np.slice_to (-3) sts)))
          (Some (put ds 0 (np.slice_to (-3) sts))) (Some (put ds 0 (np.slice_to (-3) sts)))
          0 false).
Proof.
  intros ds sts.
  assert (F : fits 2 1 (np.shape0 sts) ds sts) by (repeat split; reflexivity).
  assert (H : 2 * 2 < 0 + np.shape0 sts) by (cbn; lia).
  assert (H' : 1 < np.shape0 sts - (2 - 0)) by (cbn; lia).
  split; [exact H|]. split; [exact H'|].
  apply (@push_longer_than_capacity_raises nat nat nat nat 0 0 0 0 2 1 ds ds ds ds 0 false
           sts sts sts sts F F F F); [lia|exact H|exact H'].
Defined.

Lemma pushes_below_capacity_concatenate_witness :
  let res := push_each 0 0 0 0 [rollout_of [1; 2]; rollout_of [3]]
                       (ReplayBuffer.__init__ nat nat nat nat 4) in
  total_steps [rollout_of [1; 2]; rollout_of [3]] <= 4
  /\ fst res = Ok tt
  /\ ReplayBuffer.states (snd res)
     = Some (filled 0 4 1 (all_rows (@r_states _ _ _ _) [rollout_of [1; 2]; rollout_of [3]]))
  /\ ReplayBuffer.__len__ (snd res) = total_steps [rollout_of [1; 2]; rollout_of [3]].
Proof.
  intros res.
  assert (W : Forall (well_shaped 1) [rollout_of [1; 2]; rollout_of [3]]).
  { repeat constructor. }
  assert (H : total_steps [rollout_of [1; 2]; rollout_of [3]] <= 4) by (cbn; lia).
  split; [exact H|].
  destruct (@pushes_below_capacity_concatenate nat nat nat nat 0 0 0 0 4 1
              (rollout_of [1; 2]) [rollout_of [3]] W H)
    as (H1 & H2 & _ & _ & _ & _ & H7 & _).
  split; [exact H1|]. split; [exact H2|exact H7].
Defined.

Lemma reachable_buffer_bounds_witness :
  ReplayBuffer.__len__ three_of_four <= valid three_of_four
  /\ valid three_of_four <= ReplayBuffer.capacity three_of_four.
Proof.
  destruct (@reachable_buffer_bounds nat nat nat nat 0 0 0 0 pushed pushed pushed pushed
              three_of_four three_of_four_reachable) as (H1 & H2 & _).
  split; [exact H1|exact H2].
Defined.

Lemma sample_returns_with_enough_rows_witness :
  let runs := ReplayBuffer.sample 0 0 0 0 2 1 three_of_four in
  (0 <= 1 < Z.of_nat (valid three_of_four))%Z
  /\ length runs = (1 * (valid three_of_four - Z.to_nat 1)) ^ Z.to_nat 2
  /\ forall res self', In (res, self') runs ->
       self' = three_of_four
       /\ exists out, res = Ok out /\ batch_ok (Z.to_nat 2) (Z.to_nat 1) out.
Proof.
  intros runs.
  assert (H : (0 <= 1 < Z.of_nat (valid three_of_four))%Z) by (cbn; lia).
  split; [exact H|].
  apply (@sample_returns_with_enough_rows nat nat nat nat 0 0 0 0 pushed pushed pushed pushed
           three_of_four stored_123 2 1 three_of_four_reachable eq_refl);
    [cbn; lia|lia|exact H].
Defined.

Lemma sample_of_no_rollout_is_empty_witness :
  (Z.of_nat (valid three_of_four) <= 5)%Z
  /\ ReplayBuffer.sample 0 0 0 0 0 5 three_of_four
     = [(Ok (ReplayBuffer.mk_batch
               (np.mk_ndarray 0 (repeat [] (Z.to_nat 5)))
               (np.mk_ndarray 0 (repeat [] (Z.to_nat 5)))
               (np.mk_ndarray 0 (repeat [] (Z.to_nat 5)))
               (np.mk_ndarray 0 (repeat [] (Z.to_nat 5)))), three_of_four)].
Proof.
  split; [cbn; lia|].
  apply (@sample_of_no_rollout_is_empty nat nat nat nat 0 0 0 0 three_of_four
           stored_123 stored_123 stored_123 stored_123 5);
    try reflexivity. lia.
Defined.

Lemma world_training_needs_spare_capacity_witness :
  Z.of_nat 8 = (2 * 2 * 2)%Z
  /\ exists a : MPPOUpdate.t nat nat nat nat,
       MPPOUpdate.__init__ nat nat nat nat 8 2 2 2 = Ok a
       /\ (Z.of_nat (ReplayBuffer.capacity (MPPOUpdate.replay_buffer a)) <= world_batch a)%Z.
Proof.
  assert (H : Z.of_nat 8 = (2 * 2 * 2)%Z) by reflexivity.
  split; [exact H|].
  exact (proj1 (@world_training_needs_spare_capacity nat nat nat nat 0 0 0 0 8 2 2 2 H)).
Defined.

Lemma world_batch_draw_never_raises_witness :
  let a1 := snd (MPPOUpdate._update_replay_buffer 0 0 0 0 small_data small_mppo) in
  let runs := MPPOUpdate._ppo_update 0 0 0 0 small_data small_mppo in
  MPPOUpdate._update_replay_buffer 0 0 0 0 small_data small_mppo = (Ok tt, a1)
  /\ runs <> []
  /\ forall res a', In (res, a') runs ->
       a' = a1
       /\ ((res = Ok None
            /\ (Z.of_nat (ReplayBuffer.__len__ (MPPOUpdate.replay_buffer a1))
                <= world_batch small_mppo)%Z)
           \/ (exists b,
                 res = Ok (Some b)
                 /\ (world_batch small_mppo
                     < Z.of_nat (ReplayBuffer.__len__ (MPPOUpdate.replay_buffer a1)))%Z
                 /\ batch_ok (Z.to_nat (1 * 1)) (Z.to_nat 1) b)).
Proof.
  intros a1 runs.
  assert (H : MPPOUpdate._update_replay_buffer 0 0 0 0 small_data small_mppo = (Ok tt, a1))
    by reflexivity.
  split; [exact H|].
  apply (@world_batch_draw_never_raises nat nat nat nat 0 0 0 0 pushed pushed pushed pushed
           small_mppo a1 small_data stored_123 H three_of_four_reachable eq_refl);
    cbn; lia.
Defined.

Lemma fake_unroll_chains_the_generated_codes_witness :
  0 < 2
  /\ MPPO.all_gen_hidden_codes (toy_unroll 2 1 7)
     = 2 :: map (fun call => fst (fst (fst call + snd call, snd call, snd call)))
                (MPPO.gen_calls (toy_unroll 2 1 7))
  /\ length (MPPO.all_gen_hidden_codes (toy_unroll 2 1 7)) = 3.
Proof.
  assert (H : 0 < 2) by lia.
  split; [exact H|].
  destruct (@fake_unroll_chains_the_generated_codes nat
              (fun x _ => MPPO.mk_out (x + 1) (x + 2))
              (fun i _ => 50 + i)
              (fun code action => (code + action, action, action))
              (fun _ _ action _ _ => action)
              2 1 7 H) as (H1 & _ & H3 & _).
  split; [exact H1|exact H3].
Defined.

Lemma training_runs_every_horizon_plus_one_steps_witness :
  let chunks := [[toy_input 1; toy_input 2]; [toy_input 3; toy_input 4]] in
  let rest := [toy_input 5] in
  period toy_agent = 2
  /\ exists a',
       steps toy_from_numpy toy_take_step toy_pd_sample toy_update (concat chunks ++ rest)
             toy_agent = (Ok tt, a')
       /\ PPORun.trained a'
          = PPORun.trained toy_agent
            ++ map (sample_of toy_from_numpy toy_take_step toy_pd_sample) chunks
       /\ PPORun.sample a' = sample_of toy_from_numpy toy_take_step toy_pd_sample rest.
Proof.
  intros chunks rest.
  split; [reflexivity|].
  destruct (@training_runs_every_horizon_plus_one_steps _ _ _ _ _ _ _ _ _
              toy_from_numpy toy_take_step toy_pd_sample toy_update chunks rest toy_agent)
    as (a' & H1 & H2 & H3 & _).
  - intros s. reflexivity.
  - right. discriminate.
  - reflexivity.
  - repeat constructor.
  - cbn. lia.
  - exists a'. split; [exact H1|]. split; [exact H2|exact H3].
Defined.

Lemma model_saves_are_an_interval_apart_witness :
  can_save toy_agent
  /\ exists a' new,
       save_at [5; 10; 15; 20]%Z toy_agent = (Ok tt, a')
       /\ PPORun.saved a' = PPORun.saved toy_agent ++ map (name_at toy_agent) new
       /\ incl new [5; 10; 15; 20]%Z
       /\ spaced 10 (PPORun.last_model_save_frame toy_agent) new.
Proof.
  assert (H : can_save toy_agent) by (right; discriminate).
  split; [exact H|].
  exact (@model_saves_are_an_interval_apart _ _ _ _ _ _ _ [5; 10; 15; 20]%Z toy_agent H).
Defined.

Lemma clipped_policy_loss_is_pessimistic_witness :
  (0 <= PPO.policy_clip ppo_unit_scale * PPO.clip_mult ppo_unit_scale)%R
  /\ exists loss,
       nth_error (PPO.loss_clip ppo_unit_scale pd_const [3%R] [1%R] [0%R] [2%R]) 0 = Some loss
       /\ (- ((3 - 1) * 2) <= loss)%R.
Proof.
  assert (H : (0 <= PPO.policy_clip ppo_unit_scale * PPO.clip_mult ppo_unit_scale)%R).
  { cbn. lra. }
  split; [exact H|].
  destruct (@clipped_policy_loss_is_pessimistic R R ppo_unit_scale pd_const
              [3%R] [1%R] [0%R] [2%R] 0%nat 0%R 3%R 1%R 2%R)
    as (loss & H1 & H2 & _);
    [discriminate | reflexivity | reflexivity | reflexivity | reflexivity | exact H |].
  exists loss. split; [exact H1|exact H2].
Defined.

Lemma value_loss_is_pessimistic_witness :
  let c := (PPO.value_clip ppo_unit_scale * PPO.clip_mult ppo_unit_scale)%R in
  (0 <= PPO.value_loss_scale ppo_unit_scale)%R
  /\ (- c <= 2 - 2 <= c)%R
  /\ exists loss,
       nth_error (PPO.loss_value ppo_unit_scale [2%R] [2%R] [0%R]) 0 = Some loss
       /\ (0 <= loss)%R
       /\ (PPO.value_loss_scale ppo_unit_scale * 0.5 * torch.smooth_l1 2 0 <= loss)%R
       /\ loss = (PPO.value_loss_scale ppo_unit_scale * 0.5
                  * Rmax (torch.smooth_l1 2 0) (torch.smooth_l1 (2 + (2 - 2)) 0))%R.
Proof.
  intros c.
  assert (H : (0 <= PPO.value_loss_scale ppo_unit_scale)%R) by (cbn; lra).
  assert (Hc : (- c <= 2 - 2 <= c)%R) by (unfold c, PPO.clip_mult; cbn; lra).
  split; [exact H|]. split; [exact Hc|].
  destruct (@value_loss_is_pessimistic ppo_unit_scale [2%R] [2%R] [0%R] 0%nat 2%R 2%R 0%R)
    as (loss & H1 & H2 & H3 & H4 & _); [reflexivity | reflexivity | reflexivity | exact H |].
  exists loss. split; [exact H1|]. split; [exact H2|]. split; [exact H3|].
  apply H4. exact Hc.
Defined.

Lemma processed_advantages_have_zero_mean_witness :
  let adv := advantages_of (PPO._process_rewards iso_rewards iso_values iso_dones
                              0.99 0.95 1) in
  PPO.flatten adv <> [] /\ PPO.np_mean adv = 0%R.
Proof.
  intros adv.
  assert (H : PPO.flatten adv <> []).
  { intros E. apply (f_equal (@length R)) in E. revert E.
    unfold adv, advantages_of, PPO._process_rewards, PPO.flatten, iso_rewards, iso_values,
      iso_dones.
    cbn [snd map gae.calc_advantages seq length concat app]. discriminate. }
  split; [exact H|].
  exact (proj1 (@processed_advantages_have_zero_mean iso_rewards iso_values iso_dones
                  0.99 0.95 1 H)).
Defined.

Lemma ppo_update_runs_all_minibatches_witness :
  let r := PPO._ppo_update (fun data : nat => data) zero_loss count_step identity_perm
             2 3 2 2 6 (PPO.mk_trainer 0 []) in
  (forall theta idx, finite (zero_loss theta 6 idx) = true)
  /\ (2 <> 0 ->
      fst r = Ok tt
      /\ exists ls,
           length ls = 2 * Nat.max 1 (2 * 3 / 2)
           /\ PPO.log (snd r) = PPO.log (PPO.mk_trainer 0 []) ++ flat_map block ls).
Proof.
  intros r.
  assert (H : forall theta idx, finite (zero_loss theta 6 idx) = true)
    by (intros theta idx; reflexivity).
  split; [exact H|].
  exact (proj1 (@ppo_update_runs_all_minibatches nat nat (fun data : nat => data)
                  zero_loss count_step identity_perm 2 3 2 2 6 (PPO.mk_trainer 0 []) H)).
Defined.

Lemma epoch_minibatches_are_a_prefix_witness :
  length [4; 0; 3; 1; 2] = 1 * 5
  /\ concat (epoch_batches [4; 0; 3; 1; 2] (Nat.max 1 (1 * 5 / 2)) 2)
     = firstn (Nat.max 1 (1 * 5 / 2) * 2) [4; 0; 3; 1; 2].
Proof.
  assert (H : length [4; 0; 3; 1; 2] = 1 * 5) by reflexivity.
  split; [exact H|].
  exact (proj1 (@epoch_minibatches_are_a_prefix [4; 0; 3; 1; 2] 1 5 2
                  ltac:(discriminate) H)).
Defined.

Lemma train_stops_when_the_frames_are_reached_witness :
  selection_ready (toy_trainer 2)
  /\ steps_needed (toy_trainer 2) 5 <= 3
  /\ exists a',
       MultiplayerEnvTrainer.train toy_choice 3 5 (toy_trainer 2) = (Ok (Some tt), a')
       /\ 1 <= steps_needed (toy_trainer 2) 5
       /\ MultiplayerEnvTrainer.frame a'
          = (MultiplayerEnvTrainer.frame (toy_trainer 2)
             + Z.of_nat (steps_needed (toy_trainer 2) 5)
               * MultiplayerEnvTrainer.num_envs (toy_trainer 2))%Z
       /\ (5 <= MultiplayerEnvTrainer.frame a')%Z
       /\ MultiplayerEnvTrainer.stepped a'
          = MultiplayerEnvTrainer.stepped (toy_trainer 2)
            ++ steps_of_train (MultiplayerEnvTrainer.frame (toy_trainer 2))
                              (MultiplayerEnvTrainer.num_envs (toy_trainer 2))
                              (steps_needed (toy_trainer 2) 5).
Proof.
  assert (H1 : selection_ready (toy_trainer 2)).
  { split; [cbn; lia|left; reflexivity]. }
  assert (H2 : steps_needed (toy_trainer 2) 5 <= 3) by (vm_compute; lia).
  split; [exact H1|]. split; [exact H2|].
  apply (@train_stops_when_the_frames_are_reached toy_choice (toy_trainer 2) 5 3 H1);
    [cbn; lia|exact H2].
Defined.

Lemma train_never_returns_without_environments_witness :
  selection_ready (toy_trainer 0)
  /\ exists a',
       MultiplayerEnvTrainer.train toy_choice 7 1 (toy_trainer 0) = (Ok None, a')
       /\ MultiplayerEnvTrainer.stepped a'
          = MultiplayerEnvTrainer.stepped (toy_trainer 0)
            ++ map (fun k => ((MultiplayerEnvTrainer.frame (toy_trainer 0)
                               + Z.of_nat k * MultiplayerEnvTrainer.num_envs (toy_trainer 0))%Z,
                              false))
                   (seq 0 7).
Proof.
  assert (H1 : selection_ready (toy_trainer 0)).
  { split; [cbn; lia|left; reflexivity]. }
  split; [exact H1|].
  apply (@train_never_returns_without_environments toy_choice (toy_trainer 0) 1 H1);
    cbn; lia.
Defined.

Lemma selection_changes_are_spaced_witness :
  1 <= 2
  /\ exists a0 a',
       MultiplayerEnvTrainer.__init__ 2 10 4 1 = Ok a0
       /\ run_steps toy_choice [false; false; false; true] a0 = (Ok tt, a')
       /\ MultiplayerEnvTrainer.frame a' = (Z.of_nat (length [false; false; false; true]) * 4)%Z
       /\ selection_log_ok toy_choice a'
       /\ MultiplayerEnvTrainer.selection_train_frames a' = 10%Z
       /\ ([false; false; false; true] <> [] ->
           exists rest, MultiplayerEnvTrainer.printed a' = 0%Z :: rest).
Proof.
  assert (H : 1 <= 2) by lia.
  split; [exact H|].
  exact (@selection_changes_are_spaced toy_choice 2 10 4 1 [false; false; false; true] H).
Defined.
